(** * WebTicketing: the ticket claim / validate / redeem routes

    A shallow embedding of the backend routes that issue and redeem tickets
    over an explicit model of the MongoDB collections they touch, together
    with the properties the specification states about them.  The routes are
    - [POST /api/tickets/claim], [POST /api/tickets/validate],
      [POST /api/tickets/:id/use] and [GET /api/events/:id]
      (backend/src/routes/notifications.ts, second and third part);
    - [POST /api/qr/validate] and [POST /api/qr/scan]
      (backend/src/routes/qr.ts);
    - [GET /api/users/organizer/events] (backend/src/index.ts, second part);
    - [DELETE /api/admin/events/:id] and [DELETE /api/admin/users/:id]
      (backend/src/routes/analytics.ts, second part).

    The other routes over the same collections follow the examples: the
    reading routes of the tickets, the organizer's and the administrator's
    routes of the events, the scan statistics and the test payload, the
    organizer's views of one event, the public list of events with its
    pages, and the calendar of saved events.

    Conventions of the model
    - an [ObjectId] is its 24-digit hexadecimal rendering, a [string];
    - a [Date] is its time value, the number of milliseconds since the epoch,
      a [Z]; [new Date()] is a reading of the clock handed to the handler;
    - a JavaScript string is modelled by its bytes ([String.string]);
    - a Number that is an integer is a [Z], and where the code computes
      with a Number that a request can make large, the operation is that of
      the doubles ([JSNumber]);
    - a request handler is a function from the store before the request to a
      response and the store after it; the route middleware
      ([authenticate], [authorize], [requireApproval]) has run before and has
      put the authenticated principal in [req.user]. *)

From Stdlib Require Import ZArith QArith List String Ascii Bool Lia PeanoNat.
From Stdlib Require Import Permutation Sorted.
Import ListNotations.
Close Scope Q_scope.

Set Implicit Arguments.

(* ------------------------------------------------------------------ *)
(** ** JSON text: [JSON.stringify] on strings and flat objects, [JSON.parse] *)

Module JSON.

Local Open Scope string_scope.

(** The double quote, written by its code to keep it apart from the string
    delimiters. *)
Definition dquote : ascii := "034".
Definition backslash : ascii := "\".

#[warnings="-register-all"]
Inductive value : Type :=
| Null
| Bool (b : bool)
| Number (lexeme : string)
| Str (s : string)
| Array (l : list value)
| Object (members : list (string * value)).

(** *** Serialisation *)

Definition hex_digit (n : nat) : ascii :=
  match n with
  | 0 => "0" | 1 => "1" | 2 => "2" | 3 => "3" | 4 => "4"
  | 5 => "5" | 6 => "6" | 7 => "7" | 8 => "8" | 9 => "9"
  | 10 => "a" | 11 => "b" | 12 => "c" | 13 => "d" | 14 => "e"
  | _ => "f"
  end.

(** QuoteJSONString, one character: the two-character escapes, [\u00xx] for
    the other control characters, the character itself otherwise. *)
Definition escape_char (c : ascii) : string :=
  let n := nat_of_ascii c in
  if Nat.eqb n 8 then String backslash (String "b" EmptyString)
  else if Nat.eqb n 9 then String backslash (String "t" EmptyString)
  else if Nat.eqb n 10 then String backslash (String "n" EmptyString)
  else if Nat.eqb n 12 then String backslash (String "f" EmptyString)
  else if Nat.eqb n 13 then String backslash (String "r" EmptyString)
  else if Nat.eqb n 34 then String backslash (String dquote EmptyString)
  else if Nat.eqb n 92 then String backslash (String backslash EmptyString)
  else if Nat.ltb n 32 then
    String backslash (String "u" (String "0" (String "0"
      (String (hex_digit (Nat.div n 16))
         (String (hex_digit (Nat.modulo n 16)) EmptyString)))))
  else String c EmptyString.

Fixpoint escape (s : string) : string :=
  match s with
  | EmptyString => EmptyString
  | String c rest => escape_char c ++ escape rest
  end.

Definition quote (s : string) : string :=
  String dquote (escape s ++ String dquote EmptyString).

Fixpoint stringify_members (ms : list (string * string)) : string :=
  match ms with
  | [] => EmptyString
  | [(k, v)] => quote k ++ ":" ++ quote v
  | (k, v) :: rest => quote k ++ ":" ++ quote v ++ "," ++ stringify_members rest
  end.

(** [JSON.stringify] of an object literal whose property values are strings:
    the properties in the order they were written, no white space. *)
Definition stringify_object (ms : list (string * string)) : string :=
  "{" ++ stringify_members ms ++ "}".

(** *** Parsing *)

Inductive result (A : Type) : Type :=
| Parsed (a : A)
| SyntaxError
| OutOfFuel.
Arguments SyntaxError {A}.
Arguments OutOfFuel {A}.

Definition bind {A B} (r : result A) (k : A -> result B) : result B :=
  match r with
  | Parsed a => k a
  | SyntaxError => SyntaxError
  | OutOfFuel => OutOfFuel
  end.

Definition is_ws (c : ascii) : bool :=
  let n := nat_of_ascii c in
  Nat.eqb n 32 || Nat.eqb n 9 || Nat.eqb n 10 || Nat.eqb n 13.

Fixpoint skip_ws (s : string) : string :=
  match s with
  | String c rest => if is_ws c then skip_ws rest else s
  | EmptyString => s
  end.

Definition is_digit (c : ascii) : bool :=
  let n := nat_of_ascii c in Nat.leb 48 n && Nat.leb n 57.

Definition hex_value (c : ascii) : option nat :=
  let n := nat_of_ascii c in
  if Nat.leb 48 n && Nat.leb n 57 then Some (n - 48)
  else if Nat.leb 97 n && Nat.leb n 102 then Some (n - 87)
  else if Nat.leb 65 n && Nat.leb n 70 then Some (n - 55)
  else None.

(** The bytes that stand for one UTF-16 code unit given by a [\uXXXX] escape
    (UTF-8, a surrogate half encoded on its own). *)
Definition code_unit_bytes (n : nat) : string :=
  if Nat.ltb n 128 then String (ascii_of_nat n) EmptyString
  else if Nat.ltb n 2048 then
    String (ascii_of_nat (192 + Nat.div n 64))
      (String (ascii_of_nat (128 + Nat.modulo n 64)) EmptyString)
  else
    String (ascii_of_nat (224 + Nat.div n 4096))
      (String (ascii_of_nat (128 + Nat.modulo (Nat.div n 64) 64))
         (String (ascii_of_nat (128 + Nat.modulo n 64)) EmptyString)).

Definition simple_escape (e : ascii) : option ascii :=
  let n := nat_of_ascii e in
  if Nat.eqb n 34 then Some dquote
  else if Nat.eqb n 92 then Some backslash
  else if Nat.eqb n 47 then Some "/"%char
  else if Nat.eqb n 98 then Some (ascii_of_nat 8)
  else if Nat.eqb n 102 then Some (ascii_of_nat 12)
  else if Nat.eqb n 110 then Some (ascii_of_nat 10)
  else if Nat.eqb n 114 then Some (ascii_of_nat 13)
  else if Nat.eqb n 116 then Some (ascii_of_nat 9)
  else None.

Definition hex4 (a b c d : ascii) : option nat :=
  match hex_value a, hex_value b, hex_value c, hex_value d with
  | Some x, Some y, Some z, Some w => Some (((x * 16 + y) * 16 + z) * 16 + w)
  | _, _, _, _ => None
  end.

(** The characters of a string literal after its opening quote, up to and
    including the closing quote: the decoded contents and the rest of the
    input. *)
Fixpoint parse_chars (s : string) : option (string * string) :=
  match s with
  | EmptyString => None
  | String c rest =>
      if Ascii.eqb c dquote then Some (EmptyString, rest)
      else if Ascii.eqb c backslash then
        match rest with
        | EmptyString => None
        | String e rest1 =>
            match simple_escape e with
            | Some d =>
                match parse_chars rest1 with
                | Some (body, rest') => Some (String d body, rest')
                | None => None
                end
            | None =>
                if Ascii.eqb e "u" then
                  match rest1 with
                  | String h1 (String h2 (String h3 (String h4 rest2))) =>
                      match hex4 h1 h2 h3 h4 with
                      | Some n =>
                          match parse_chars rest2 with
                          | Some (body, rest') =>
                              Some (code_unit_bytes n ++ body, rest')
                          | None => None
                          end
                      | None => None
                      end
                  | _ => None
                  end
                else None
            end
        end
      else if Nat.ltb (nat_of_ascii c) 32 then None
      else
        match parse_chars rest with
        | Some (body, rest') => Some (String c body, rest')
        | None => None
        end
  end.

(** The longest prefix of digits, and what follows it. *)
Fixpoint span_digits (s : string) : string * string :=
  match s with
  | String c rest =>
      if is_digit c then
        let (ds, rest') := span_digits rest in (String c ds, rest')
      else (EmptyString, s)
  | EmptyString => (EmptyString, s)
  end.

Definition nonempty (s : string) : bool :=
  match s with EmptyString => false | String _ _ => true end.

Definition parse_int_part (s : string) : option (string * string) :=
  match s with
  | String c rest =>
      if Ascii.eqb c "0" then Some (String c EmptyString, rest)
      else if is_digit c then
        let (ds, rest') := span_digits rest in Some (String c ds, rest')
      else None
  | EmptyString => None
  end.

Definition parse_frac_part (s : string) : option (string * string) :=
  match s with
  | String c rest =>
      if Ascii.eqb c "." then
        let (ds, rest') := span_digits rest in
        if nonempty ds then Some (String c ds, rest') else None
      else Some (EmptyString, s)
  | EmptyString => Some (EmptyString, s)
  end.

Definition parse_exp_digits (pre : string) (s : string) : option (string * string) :=
  let (ds, rest') := span_digits s in
  if nonempty ds then Some (pre ++ ds, rest') else None.

Definition parse_exp_part (s : string) : option (string * string) :=
  match s with
  | String e rest =>
      if Ascii.eqb e "e" || Ascii.eqb e "E" then
        match rest with
        | String sg rest1 =>
            if Ascii.eqb sg "+" || Ascii.eqb sg "-"
            then parse_exp_digits (String e (String sg EmptyString)) rest1
            else parse_exp_digits (String e EmptyString) rest
        | EmptyString => None
        end
      else Some (EmptyString, s)
  | EmptyString => Some (EmptyString, s)
  end.

(** A number literal; its value is kept as the text that was read. *)
Definition parse_number (s : string) : option (string * string) :=
  let (sign, s1) :=
    match s with
    | String c rest =>
        if Ascii.eqb c "-" then (String c EmptyString, rest) else (EmptyString, s)
    | EmptyString => (EmptyString, s)
    end in
  match parse_int_part s1 with
  | Some (ip, s2) =>
      match parse_frac_part s2 with
      | Some (fp, s3) =>
          match parse_exp_part s3 with
          | Some (ep, s4) => Some (sign ++ ip ++ fp ++ ep, s4)
          | None => None
          end
      | None => None
      end
  | None => None
  end.

Fixpoint strip_prefix (p s : string) : option string :=
  match p, s with
  | EmptyString, _ => Some s
  | String a p', String b s' => if Ascii.eqb a b then strip_prefix p' s' else None
  | String _ _, EmptyString => None
  end.

Definition of_option {A} (o : option A) : result A :=
  match o with Some a => Parsed a | None => SyntaxError end.

(** After optional white space, the character [c]: what follows it. *)
Definition closes (c : ascii) (s : string) : option string :=
  match skip_ws s with
  | String d rest => if Ascii.eqb d c then Some rest else None
  | EmptyString => None
  end.

(** Recursive descent over the JSON grammar.  [parse_value] reads one value
    after optional white space; [parse_elements] and [parse_members] read
    the rest of an array or object whose opening bracket has been read and
    which is not closed at once. *)
Fixpoint parse_value (fuel : nat) (s : string) : result (value * string) :=
  match fuel with
  | O => OutOfFuel
  | S fuel' =>
      match skip_ws s with
      | EmptyString => SyntaxError
      | String c rest =>
          if Ascii.eqb c "{" then
            match closes "}" rest with
            | Some rest' => Parsed (Object [], rest')
            | None =>
                bind (parse_members fuel' rest)
                  (fun '(ms, rest') => Parsed (Object ms, rest'))
            end
          else if Ascii.eqb c "[" then
            match closes "]" rest with
            | Some rest' => Parsed (Array [], rest')
            | None =>
                bind (parse_elements fuel' rest)
                  (fun '(vs, rest') => Parsed (Array vs, rest'))
            end
          else if Ascii.eqb c dquote then
            bind (of_option (parse_chars rest))
              (fun '(body, rest') => Parsed (Str body, rest'))
          else if Ascii.eqb c "t" then
            bind (of_option (strip_prefix "rue" rest))
              (fun rest' => Parsed (Bool true, rest'))
          else if Ascii.eqb c "f" then
            bind (of_option (strip_prefix "alse" rest))
              (fun rest' => Parsed (Bool false, rest'))
          else if Ascii.eqb c "n" then
            bind (of_option (strip_prefix "ull" rest))
              (fun rest' => Parsed (Null, rest'))
          else
            bind (of_option (parse_number (String c rest)))
              (fun '(lexeme, rest') => Parsed (Number lexeme, rest'))
      end
  end
with parse_elements (fuel : nat) (s : string) : result (list value * string) :=
  match fuel with
  | O => OutOfFuel
  | S fuel' =>
      bind (parse_value fuel' s) (fun '(v, rest) =>
        match closes "]" rest with
        | Some rest' => Parsed ([v], rest')
        | None =>
            match closes "," rest with
            | Some rest' =>
                bind (parse_elements fuel' rest')
                  (fun '(vs, rest'') => Parsed (v :: vs, rest''))
            | None => SyntaxError
            end
        end)
  end
with parse_members (fuel : nat) (s : string) : result (list (string * value) * string) :=
  match fuel with
  | O => OutOfFuel
  | S fuel' =>
      match closes dquote s with
      | None => SyntaxError
      | Some rest =>
          bind (of_option (parse_chars rest)) (fun '(key, rest1) =>
            match closes ":" rest1 with
            | None => SyntaxError
            | Some rest2 =>
                bind (parse_value fuel' rest2) (fun '(v, rest3) =>
                  match closes "}" rest3 with
                  | Some rest' => Parsed ([(key, v)], rest')
                  | None =>
                      match closes "," rest3 with
                      | Some rest' =>
                          bind (parse_members fuel' rest')
                            (fun '(ms, rest'') => Parsed ((key, v) :: ms, rest''))
                      | None => SyntaxError
                      end
                  end)
            end)
      end
  end.

(** What [parse_members] does with the value of a member once it is read. *)
Definition after_member (fuel : nat) (key : string) (r : value * string)
  : result (list (string * value) * string) :=
  let '(v, rest3) := r in
  match closes "}" rest3 with
  | Some rest' => Parsed ([(key, v)], rest')
  | None =>
      match closes "," rest3 with
      | Some rest' =>
          bind (parse_members fuel rest')
            (fun '(ms, rest'') => Parsed ((key, v) :: ms, rest''))
      | None => SyntaxError
      end
  end.

(** The members of an object whose property values are strings. *)
Definition as_values (ms : list (string * string)) : list (string * value) :=
  map (fun m => (fst m, Str (snd m))) ms.

(** Every second call at least consumes a character, so twice the length of
    the text (and a little) is fuel enough. *)
Definition fuel_for (s : string) : nat := 2 * String.length s + 2.

Definition parse_text (fuel : nat) (s : string) : result value :=
  bind (parse_value fuel s) (fun '(v, rest) =>
    match skip_ws rest with
    | EmptyString => Parsed v
    | String _ _ => SyntaxError
    end).

(** *** The object a text denotes *)

(** A key that is an array index: the decimal numeral, without a leading
    zero, of an integer below 2^32 - 1. *)
Fixpoint decimal (s : string) (acc : N) : option N :=
  match s with
  | EmptyString => Some acc
  | String c rest =>
      if is_digit c then decimal rest (10 * acc + (N_of_ascii c - 48))%N
      else None
  end.

Definition array_index (k : string) : option N :=
  match k with
  | EmptyString => None
  | String c rest =>
      if Ascii.eqb c "0" && nonempty rest then None
      else if Nat.leb (String.length k) 10 then
        match decimal k 0 with
        | Some n => if N.leb n 4294967294 then Some n else None
        | None => None
        end
      else None
  end.

(** [CreateDataProperty]: a key the object has keeps its place and takes
    the new value, a new key comes last. *)
Fixpoint set_member (k : string) (v : value) (ms : list (string * value))
  : list (string * value) :=
  match ms with
  | [] => [(k, v)]
  | (k', v') :: rest =>
      if String.eqb k' k then (k', v) :: rest
      else (k', v') :: set_member k v rest
  end.

Definition define_all (ms : list (string * value)) : list (string * value) :=
  fold_left (fun acc m => set_member (fst m) (snd m) acc) ms [].

Fixpoint insert_index (i : N) (m : string * value)
    (l : list (N * (string * value))) : list (N * (string * value)) :=
  match l with
  | [] => [(i, m)]
  | (j, m') :: rest =>
      if N.ltb i j then (i, m) :: l else (j, m') :: insert_index i m rest
  end.

(** The own properties of the object made from the members of the text, in
    the order of its keys: the array indices ascending, then the other keys
    as they were first defined; a key given twice has its last value. *)
Definition own_properties (ms : list (string * value))
  : list (string * value) :=
  let defined := define_all ms in
  map snd
    (fold_right
       (fun m acc =>
          match array_index (fst m) with
          | Some i => insert_index i m acc
          | None => acc
          end) [] defined)
  ++ List.filter
       (fun m => match array_index (fst m) with Some _ => false | None => true end)
       defined.

Fixpoint normalize (v : value) : value :=
  match v with
  | Array l => Array (map normalize l)
  | Object ms =>
      Object (own_properties
                (map (fun m => match m with (k, x) => (k, normalize x) end) ms))
  | _ => v
  end.

(** [JSON.parse]: [Some] value, or [None] when it throws a [SyntaxError]. *)
Definition parse (s : string) : option value :=
  match parse_text (fuel_for s) s with
  | Parsed v => Some (normalize v)
  | _ => None
  end.

End JSON.

(* ------------------------------------------------------------------ *)
(** ** Dates: time values and [Date.prototype.toISOString] *)

Module JSDate.

Local Open Scope string_scope.
Local Open Scope Z_scope.

(** A time value: milliseconds since 1970-01-01T00:00:00Z. *)
Definition t := Z.

Definition msPerDay : Z := 86400000.

(** Year, month (1..12) and day of the month of a day number counted from
    the epoch, in the proleptic Gregorian calendar. *)
Definition civil_from_days (days : Z) : Z * Z * Z :=
  let z := days + 719468 in
  let era := z / 146097 in
  let doe := z - era * 146097 in
  let yoe := (doe - doe / 1460 + doe / 36524 - doe / 146096) / 365 in
  let doy := doe - (365 * yoe + yoe / 4 - yoe / 100) in
  let mp := (5 * doy + 2) / 153 in
  let d := doy - (153 * mp + 2) / 5 + 1 in
  let m := if mp <? 10 then mp + 3 else mp - 9 in
  (yoe + era * 400 + (if m <=? 2 then 1 else 0), m, d).

Definition digit (n : Z) : ascii := ascii_of_nat (48 + Z.to_nat n).

(** The last [width] decimal digits of [n], zero padded. *)
Fixpoint pad (width : nat) (n : Z) : string :=
  match width with
  | O => EmptyString
  | S w => pad w (n / 10) ++ String (digit (n mod 10)) EmptyString
  end.

Definition year_string (y : Z) : string :=
  if (0 <=? y) && (y <=? 9999) then pad 4 y
  else if y <? 0 then "-" ++ pad 6 (- y)
  else "+" ++ pad 6 y.

Definition toISOString (tv : t) : string :=
  let '(y, m, d) := civil_from_days (tv / msPerDay) in
  let ms := tv mod msPerDay in
  year_string y ++ "-" ++ pad 2 m ++ "-" ++ pad 2 d ++ "T"
    ++ pad 2 (ms / 3600000) ++ ":" ++ pad 2 (ms / 60000 mod 60) ++ ":"
    ++ pad 2 (ms / 1000 mod 60) ++ "." ++ pad 3 (ms mod 1000) ++ "Z".

End JSDate.

(* ------------------------------------------------------------------ *)
(** ** Numbers *)

(** The Number type on the integers.  A Number is an IEEE 754 double: an
    integer of at most 53 significant bits is a Number, any other integer
    is rounded to one, and past the largest double stands an infinity.  Of
    the two zeros only one is kept; no operation here tells them apart. *)
Module JSNumber.

Local Open Scope Z_scope.

(** The integer nearest to [n / d], for [0 <= n] and [0 < d]; of two that
    are equally near, the even one. *)
Definition round_half_even (n d : Z) : Z :=
  let q := n / d in
  let r := n mod d in
  if (d <? 2 * r) || ((2 * r =? d) && Z.odd q) then q + 1 else q.

(** The double nearest to an integer, before the test for overflow: the
    integer itself while it has at most 53 significant bits, else its
    rounding to 53 bits. *)
Definition nearest (z : Z) : Z :=
  let a := Z.abs z in
  let e := Z.log2 a in
  if e <=? 52 then z
  else
    let unit := 2 ^ (e - 52) in
    Z.sgn z * (round_half_even a unit * unit).

Inductive t : Type :=
| Finite (z : Z)
| PosInfinity
| NegInfinity
| NaN.

Definition huge : Z := 2 ^ 1024.

(** [Number(text)] for the decimal numeral of an integer, and the Number
    an operation gives from its exact result. *)
Definition of_Z (z : Z) : t :=
  let v := nearest z in
  if huge <=? v then PosInfinity
  else if v <=? - huge then NegInfinity
  else Finite v.

Definition neg (a : t) : t :=
  match a with
  | Finite z => Finite (- z)
  | PosInfinity => NegInfinity
  | NegInfinity => PosInfinity
  | NaN => NaN
  end.

(** [a + b] *)
Definition add (a b : t) : t :=
  match a, b with
  | Finite x, Finite y => of_Z (x + y)
  | NaN, _ => NaN
  | _, NaN => NaN
  | PosInfinity, NegInfinity => NaN
  | NegInfinity, PosInfinity => NaN
  | PosInfinity, _ => PosInfinity
  | _, PosInfinity => PosInfinity
  | NegInfinity, _ => NegInfinity
  | _, NegInfinity => NegInfinity
  end.

(** [a - b] *)
Definition sub (a b : t) : t := add a (neg b).

(** [a * b] *)
Definition mul (a b : t) : t :=
  match a, b with
  | Finite x, Finite y => of_Z (x * y)
  | NaN, _ => NaN
  | _, NaN => NaN
  | Finite x, PosInfinity | PosInfinity, Finite x =>
      if x =? 0 then NaN else if 0 <? x then PosInfinity else NegInfinity
  | Finite x, NegInfinity | NegInfinity, Finite x =>
      if x =? 0 then NaN else if 0 <? x then NegInfinity else PosInfinity
  | PosInfinity, PosInfinity | NegInfinity, NegInfinity => PosInfinity
  | PosInfinity, NegInfinity | NegInfinity, PosInfinity => NegInfinity
  end.

(** [a < b] *)
Definition ltb (a b : t) : bool :=
  match a, b with
  | Finite x, Finite y => x <? y
  | NaN, _ => false
  | _, NaN => false
  | _, NegInfinity => false
  | PosInfinity, _ => false
  | NegInfinity, _ => true
  | _, PosInfinity => true
  end.

(** [Math.ceil(a / b)] for Numbers [0 <= a] and [1 <= b] with integer
    values: the quotient is the double nearest to [a / b], whose binary
    exponent is that of the integer part of [a / b], and [Math.ceil] gives
    the least integer not below that double. *)
Definition ceil_quot (a b : Z) : Z :=
  if a =? 0 then 0
  else if a <? b then 1
  else
    let e := Z.log2 (a / b) in
    if e <=? 52 then
      let scale := 2 ^ (52 - e) in
      let m := round_half_even (a * scale) b in
      - ((- m) / scale)
    else
      let unit := 2 ^ (e - 52) in
      round_half_even a (b * unit) * unit.

End JSNumber.

(* ------------------------------------------------------------------ *)
(** ** Object identifiers *)

Module ObjectId.

(** An identifier is kept as what [toString()] gives: 24 lower-case
    hexadecimal digits. *)
Definition t := string.

Definition eqb (a b : t) : bool := String.eqb a b.
Definition toString (o : t) : string := o.

Definition is_hex (c : ascii) : bool :=
  let n := nat_of_ascii c in
  (Nat.leb 48 n && Nat.leb n 57) || (Nat.leb 97 n && Nat.leb n 102)
  || (Nat.leb 65 n && Nat.leb n 70).

Definition lower_hex (c : ascii) : ascii :=
  let n := nat_of_ascii c in
  if Nat.leb 65 n && Nat.leb n 70 then ascii_of_nat (n + 32) else c.

Fixpoint all_hex (s : string) : bool :=
  match s with
  | EmptyString => true
  | String c rest => is_hex c && all_hex rest
  end.

Fixpoint lower (s : string) : string :=
  match s with
  | EmptyString => EmptyString
  | String c rest => String (lower_hex c) (lower rest)
  end.

(** [isHexadecimal] of validator.js, the test of [/^(0x|0h)?[0-9A-F]+$/i]:
    hexadecimal digits, at least one, after an optional prefix [0x] or
    [0h] in either case. *)
Definition is_prefix_letter (c : ascii) : bool :=
  Ascii.eqb c "x" || Ascii.eqb c "X" || Ascii.eqb c "h" || Ascii.eqb c "H".

Definition nonempty (s : string) : bool :=
  match s with EmptyString => false | String _ _ => true end.

Definition isHexadecimal (s : string) : bool :=
  let digits :=
    match s with
    | String c0 (String c1 rest) =>
        if Ascii.eqb c0 "0" && is_prefix_letter c1 then rest else s
    | _ => s
    end in
  nonempty digits && all_hex digits.

(** The validator [isMongoId()]:
    [isHexadecimal(str) && str.length === 24]. *)
Definition isMongoId (s : string) : bool :=
  isHexadecimal s && Nat.eqb (String.length s) 24.

(** The cast mongoose applies to a string used where an [ObjectId] is
    expected: a string of 24 hexadecimal digits is the identifier it
    spells; [None] is a [CastError]. *)
Definition cast (s : string) : option t :=
  if Nat.eqb (String.length s) 24 && all_hex s then Some (lower s) else None.

End ObjectId.

(* ------------------------------------------------------------------ *)
(** ** Documents *)

(** [models/Ticket.ts] *)
Module Ticket.

Inductive Status : Type := active | used | cancelled | expired.

Definition status_eqb (a b : Status) : bool :=
  match a, b with
  | active, active | used, used | cancelled, cancelled | expired, expired => true
  | _, _ => false
  end.

Record t : Type := {
  _id : ObjectId.t;
  ticketId : string;
  event : ObjectId.t;
  user : ObjectId.t;
  qrCode : string;
  status : Status;
  usedAt : option JSDate.t;
  usedBy : option ObjectId.t;
  price : option Q;
  createdAt : JSDate.t;
  updatedAt : JSDate.t
}.

End Ticket.

(** [models/Event.ts]; the descriptive fields (title, description, times,
    location, category, image, tags, requirements, contact) play no part in
    the routes below and are left out. *)
Module Event.

Inductive Status : Type := draft | published | cancelled | completed.
Inductive TicketType : Type := free | paid.

Definition status_eqb (a b : Status) : bool :=
  match a, b with
  | draft, draft | published, published | cancelled, cancelled
  | completed, completed => true
  | _, _ => false
  end.

Record t : Type := {
  _id : ObjectId.t;
  date : JSDate.t;
  ticketType : TicketType;
  ticketPrice : option Q;
  capacity : Z;                    (* a finite Number, of integer value *)
  status : Status;
  isApproved : bool;
  organization : ObjectId.t;
  createdBy : ObjectId.t
}.

End Event.

(** [models/User.ts], the fields of the principal the routes read. *)
Module User.

Inductive Role : Type := student | organizer | admin.

Record t : Type := {
  _id : ObjectId.t;
  role : Role;
  isApproved : bool;
  organization : option ObjectId.t
}.

End User.

(* ------------------------------------------------------------------ *)
(** ** The store: the collections and the queries the routes make *)

Module Store.

Record t : Type := {
  tickets : list Ticket.t;
  events : list Event.t;
  organizations : list ObjectId.t;
  users : list User.t
}.

Definition empty : t :=
  {| tickets := []; events := []; organizations := []; users := [] |}.

Definition with_tickets (s : t) (ts : list Ticket.t) : t :=
  {| tickets := ts; events := events s;
     organizations := organizations s; users := users s |}.

(** [Model.findOne(filter)]: the first document, in the order of insertion,
    that passes the filter. *)
Definition findOne {A} (filter : A -> bool) (docs : list A) : option A :=
  find filter docs.

(** [Model.countDocuments(filter)] *)
Definition countDocuments {A} (filter : A -> bool) (docs : list A) : Z :=
  Z.of_nat (List.length (List.filter filter docs)).

(** [Model.deleteMany(filter)] *)
Definition deleteMany {A} (filter : A -> bool) (docs : list A) : list A :=
  List.filter (fun d => negb (filter d)) docs.

Definition Event_findById (s : t) (id : ObjectId.t) : option Event.t :=
  findOne (fun e => ObjectId.eqb (Event._id e) id) (events s).

Definition Ticket_findById (s : t) (id : ObjectId.t) : option Ticket.t :=
  findOne (fun k => ObjectId.eqb (Ticket._id k) id) (tickets s).

Definition User_findById (s : t) (id : ObjectId.t) : option User.t :=
  findOne (fun u => ObjectId.eqb (User._id u) id) (users s).

Definition Organization_exists (s : t) (id : ObjectId.t) : bool :=
  existsb (ObjectId.eqb id) (organizations s).

(** The unique indexes of the ticket collection: [_id], and the two fields
    the schema declares [unique: true]. *)
Definition duplicate_key (k : Ticket.t) (docs : list Ticket.t) : bool :=
  existsb (fun d =>
    ObjectId.eqb (Ticket._id d) (Ticket._id k)
    || String.eqb (Ticket.ticketId d) (Ticket.ticketId k)
    || String.eqb (Ticket.qrCode d) (Ticket.qrCode k)) docs.

(** The schema validation of [price]: [min: 0], when the field is set. *)
Definition price_valid (k : Ticket.t) : bool :=
  match Ticket.price k with
  | Some p => Qle_bool 0 p
  | None => true
  end.

(** [ticket.save()] of a document made with [new Ticket(...)]: validation,
    then the insertion; [None] when either throws. *)
Definition insert_ticket (s : t) (k : Ticket.t) : option t :=
  if negb (price_valid k) then None
  else if duplicate_key k (tickets s) then None
  else Some (with_tickets s (tickets s ++ [k])).

(** [ticket.save()] of a document that was read from the collection and
    modified: the stored document with its [_id] is replaced. *)
Definition update_ticket (s : t) (k : Ticket.t) : t :=
  with_tickets s
    (map (fun d => if ObjectId.eqb (Ticket._id d) (Ticket._id k) then k else d)
       (tickets s)).

End Store.

(* ------------------------------------------------------------------ *)
(** ** The routes *)

(** Each handler is embedded as its body between [try] and [catch]: the
    guards in the order of the source, each early [return res.status(...)]
    a response with the store untouched, and an exception thrown on the way
    (a [CastError], a [TypeError] on a [null] reference, a validation or
    duplicate-key error of [save()]) the response of the [catch] block.
    [body('qrData').isString()] holds of every [qrData] here, a [string].
    Left out: the rendering of the payload as a QR image
    ([QRCode.toDataURL], whose result is only sent back), the population of
    [user] for the response, and failures of the database connection. *)
Module Routes.

Local Open Scope string_scope.
Local Open Scope Z_scope.

(** What a handler sends: the status code and the JSON body, the latter
    reduced to the parts that identify the outcome. *)
Inductive Body : Type :=
| Errors                                   (* { errors: errors.array() } *)
| Message (message : string)               (* { message } *)
| NotValid (message : string) (status : Ticket.Status)
    (usedAt : option JSDate.t)             (* { message, status, usedAt } *)
| Claimed (ticket : Ticket.t)              (* { ticket: {...} } *)
| Valid (ticket : Ticket.t)                (* { valid: true, ticket: {...} } *)
| Scanned (message : string) (ticket : Ticket.t)
                                           (* { success: true, message, ticket } *)
| EventInfo (event : Event.t) (ticketsIssued : Z)
    (remainingCapacity : JSNumber.t).

Record Response : Type := { code : Z; body : Body }.

Definition json (c : Z) (b : Body) : Response := {| code := c; body := b |}.

(** The [catch] block every handler ends with. *)
Definition server_error : Response := json 500 (Message "Server error").

(** The clock readings of one request, in the order the handler takes them:
    the [new Date()] of its date check, the [new Date()] it writes into the
    payload or into [usedAt], and the time at which [save()] stamps
    [createdAt] and [updatedAt]. *)
Record Clock : Type := { at_check : JSDate.t; at_write : JSDate.t; at_save : JSDate.t }.

(** The payload put in the QR code: [JSON.stringify({ ticketId, eventId,
    userId, timestamp })]. *)
Definition qrData_of (ticketId eventId userId timestamp : string) : string :=
  JSON.stringify_object
    [("ticketId", ticketId); ("eventId", eventId);
     ("userId", userId); ("timestamp", timestamp)].

(** [new Ticket({ ticketId, event, user, qrCode, price })], with the schema
    default of [status] and the time stamps of the first [save()]. *)
Definition new_ticket (user : User.t) (event : Event.t) (eid : ObjectId.t)
    (ticketId qrData : string) (oid : ObjectId.t) (clk : Clock) : Ticket.t :=
  {| Ticket._id := oid;
     Ticket.ticketId := ticketId;
     Ticket.event := eid;
     Ticket.user := User._id user;
     Ticket.qrCode := qrData;
     Ticket.status := Ticket.active;
     Ticket.usedAt := None;
     Ticket.usedBy := None;
     Ticket.price :=
       match Event.ticketType event with
       | Event.paid => Event.ticketPrice event
       | Event.free => Some 0%Q
       end;
     Ticket.createdAt := at_save clk;
     Ticket.updatedAt := at_save clk |}.

(** [POST /api/tickets/claim].  [eventId] is [req.body.eventId]; [ticketId]
    is the result of [uuidv4()] and [oid] the [_id] that [new Ticket(...)]
    gives the document.  The body has no [paymentMethod], or a string: the
    validator of that field, which the handler does not read, passes. *)
Definition claim (s : Store.t) (user : User.t) (eventId : string)
    (ticketId : string) (oid : ObjectId.t) (clk : Clock) : Response * Store.t :=
  if negb (ObjectId.isMongoId eventId) then (json 400 Errors, s) else
  match ObjectId.cast eventId with
  | None => (server_error, s)
  | Some eid =>
  match Store.Event_findById s eid with
  | None => (json 404 (Message "Event not found"), s)
  | Some event =>
  if negb (Event.status_eqb (Event.status event) Event.published)
     || negb (Event.isApproved event)
  then (json 400 (Message "Event is not available for ticket claiming"), s)
  else if Event.date event <? at_check clk
  then (json 400 (Message "Event has already passed"), s)
  else
  match Store.findOne
          (fun k => ObjectId.eqb (Ticket.event k) eid
                    && ObjectId.eqb (Ticket.user k) (User._id user)
                    && (Ticket.status_eqb (Ticket.status k) Ticket.active
                        || Ticket.status_eqb (Ticket.status k) Ticket.used))
          (Store.tickets s) with
  | Some _ => (json 400 (Message "You already have a ticket for this event"), s)
  | None =>
  let ticketCount :=
    Store.countDocuments
      (fun k => ObjectId.eqb (Ticket.event k) eid
                && Ticket.status_eqb (Ticket.status k) Ticket.active)
      (Store.tickets s) in
  if Event.capacity event <=? ticketCount
  then (json 400 (Message "Event is sold out"), s)
  else
  let qrData :=
    qrData_of ticketId eventId (ObjectId.toString (User._id user))
      (JSDate.toISOString (at_write clk)) in
  let ticket := new_ticket user event eid ticketId qrData oid clk in
  match Store.insert_ticket s ticket with
  | None => (server_error, s)
  | Some s' => (json 201 (Claimed ticket), s')
  end
  end
  end
  end.

(** [.populate({ path: 'event', populate: { path: 'organization' } })]: the
    event the ticket refers to, with whether its organization was found;
    [None] when the event is gone and [ticket.event] is [null]. *)
Definition populate (s : Store.t) (k : Ticket.t) : option (Event.t * bool) :=
  match Store.Event_findById s (Ticket.event k) with
  | None => None
  | Some event => Some (event, Store.Organization_exists s (Event.organization event))
  end.

(** The comparison
    [ticket.event.organization._id.toString() !== req.user.organization.toString()]
    on a populated ticket; [None] when a dereference throws: the event or its
    organization is [null], or the principal has no organization. *)
Definition organization_differs (populated : option (Event.t * bool))
    (user : User.t) : option bool :=
  match populated with
  | Some (event, true) =>
      match User.organization user with
      | Some org =>
          Some (negb (String.eqb (ObjectId.toString (Event.organization event))
                                 (ObjectId.toString org)))
      | None => None
      end
  | _ => None
  end.

(** [POST /api/qr/validate] *)
Definition qr_validate (s : Store.t) (user : User.t) (qrData : string)
    (now : JSDate.t) : Response * Store.t :=
  match JSON.parse qrData with
  | None => (json 400 (Message "Invalid QR code format"), s)
  | Some _ =>
  match Store.findOne (fun k => String.eqb (Ticket.qrCode k) qrData)
          (Store.tickets s) with
  | None => (json 404 (Message "Ticket not found"), s)
  | Some ticket =>
  let populated := populate s ticket in
  match organization_differs populated user with
  | None => (server_error, s)
  | Some true =>
      (json 403 (Message "Ticket does not belong to your organization"), s)
  | Some false =>
  if negb (Ticket.status_eqb (Ticket.status ticket) Ticket.active)
  then (json 400 (NotValid "Ticket is not valid" (Ticket.status ticket)
                    (Ticket.usedAt ticket)), s)
  else
  match populated with
  | None => (server_error, s)
  | Some (event, _) =>
  if Event.date event <? now
  then (json 400 (Message "Event has already passed"), s)
  else (json 200 (Valid ticket), s)
  end
  end
  end
  end.

(** [POST /api/tickets/validate]: the same handler body, with a response
    that leaves out the price. *)
Definition tickets_validate (s : Store.t) (user : User.t) (qrData : string)
    (now : JSDate.t) : Response * Store.t :=
  match JSON.parse qrData with
  | None => (json 400 (Message "Invalid QR code format"), s)
  | Some _ =>
  match Store.findOne (fun k => String.eqb (Ticket.qrCode k) qrData)
          (Store.tickets s) with
  | None => (json 404 (Message "Ticket not found"), s)
  | Some ticket =>
  let populated := populate s ticket in
  match organization_differs populated user with
  | None => (server_error, s)
  | Some true =>
      (json 403 (Message "Ticket does not belong to your organization"), s)
  | Some false =>
  if negb (Ticket.status_eqb (Ticket.status ticket) Ticket.active)
  then (json 400 (NotValid "Ticket is not valid" (Ticket.status ticket)
                    (Ticket.usedAt ticket)), s)
  else
  match populated with
  | None => (server_error, s)
  | Some (event, _) =>
  if Event.date event <? now
  then (json 400 (Message "Event has already passed"), s)
  else (json 200 (Valid ticket), s)
  end
  end
  end
  end.

(** The three assignments before [ticket.save()] in the redeeming routes,
    and the [updatedAt] stamp of the save. *)
Definition mark_used (k : Ticket.t) (user : User.t) (clk : Clock) : Ticket.t :=
  {| Ticket._id := Ticket._id k;
     Ticket.ticketId := Ticket.ticketId k;
     Ticket.event := Ticket.event k;
     Ticket.user := Ticket.user k;
     Ticket.qrCode := Ticket.qrCode k;
     Ticket.status := Ticket.used;
     Ticket.usedAt := Some (at_write clk);
     Ticket.usedBy := Some (User._id user);
     Ticket.price := Ticket.price k;
     Ticket.createdAt := Ticket.createdAt k;
     Ticket.updatedAt := at_save clk |}.

(** [POST /api/qr/scan] *)
Definition qr_scan (s : Store.t) (user : User.t) (qrData : string)
    (clk : Clock) : Response * Store.t :=
  match JSON.parse qrData with
  | None => (json 400 (Message "Invalid QR code format"), s)
  | Some _ =>
  match Store.findOne (fun k => String.eqb (Ticket.qrCode k) qrData)
          (Store.tickets s) with
  | None => (json 404 (Message "Ticket not found"), s)
  | Some ticket =>
  let populated := populate s ticket in
  match organization_differs populated user with
  | None => (server_error, s)
  | Some true =>
      (json 403 (Message "Ticket does not belong to your organization"), s)
  | Some false =>
  if negb (Ticket.status_eqb (Ticket.status ticket) Ticket.active)
  then (json 400 (NotValid "Ticket is not valid" (Ticket.status ticket)
                    (Ticket.usedAt ticket)), s)
  else
  match populated with
  | None => (server_error, s)
  | Some (event, _) =>
  if Event.date event <? at_check clk
  then (json 400 (Message "Event has already passed"), s)
  else
    let ticket' := mark_used ticket user clk in
    (json 200 (Scanned "Ticket scanned and marked as used successfully" ticket'),
     Store.update_ticket s ticket')
  end
  end
  end
  end.

(** [POST /api/tickets/:id/use].  The event is populated, its organization
    is not: [organization._id] is the reference itself. *)
Definition tickets_use (s : Store.t) (user : User.t) (id : string)
    (clk : Clock) : Response * Store.t :=
  match ObjectId.cast id with
  | None => (server_error, s)
  | Some tid =>
  match Store.Ticket_findById s tid with
  | None => (json 404 (Message "Ticket not found"), s)
  | Some ticket =>
  match Store.Event_findById s (Ticket.event ticket), User.organization user with
  | Some event, Some org =>
      if negb (String.eqb (ObjectId.toString (Event.organization event))
                          (ObjectId.toString org))
      then (json 403 (Message "Access denied"), s)
      else if negb (Ticket.status_eqb (Ticket.status ticket) Ticket.active)
      then (json 400 (Message "Ticket is not active"), s)
      else
        (json 200 (Message "Ticket marked as used successfully"),
         Store.update_ticket s (mark_used ticket user clk))
  | _, _ => (server_error, s)
  end
  end
  end.

(** [GET /api/events/:id] *)
Definition get_event (s : Store.t) (id : string) : Response :=
  match ObjectId.cast id with
  | None => server_error
  | Some eid =>
  match Store.Event_findById s eid with
  | None => json 404 (Message "Event not found")
  | Some event =>
      let ticketCount :=
        Store.countDocuments
          (fun k => ObjectId.eqb (Ticket.event k) (Event._id event)
                    && Ticket.status_eqb (Ticket.status k) Ticket.active)
          (Store.tickets s) in
      json 200
        (EventInfo event ticketCount
           (JSNumber.sub (JSNumber.Finite (Event.capacity event))
              (JSNumber.Finite ticketCount)))
  end
  end.

(** [GET /api/users/organizer/events], the figures computed for one event:
    [ticketsIssued], [ticketsUsed], [remainingCapacity]. *)
Definition organizer_event_counts (s : Store.t) (event : Event.t)
  : Z * Z * JSNumber.t :=
  let ticketCount :=
    Store.countDocuments
      (fun k => ObjectId.eqb (Ticket.event k) (Event._id event)
                && Ticket.status_eqb (Ticket.status k) Ticket.active)
      (Store.tickets s) in
  let usedTickets :=
    Store.countDocuments
      (fun k => ObjectId.eqb (Ticket.event k) (Event._id event)
                && Ticket.status_eqb (Ticket.status k) Ticket.used)
      (Store.tickets s) in
  (ticketCount, usedTickets,
   JSNumber.sub (JSNumber.Finite (Event.capacity event))
     (JSNumber.Finite ticketCount)).

(** Remove the first document that passes the filter
    ([Model.findByIdAndDelete]). *)
Fixpoint deleteOne {A} (filter : A -> bool) (docs : list A) : list A :=
  match docs with
  | [] => []
  | d :: rest => if filter d then rest else d :: deleteOne filter rest
  end.

(** [DELETE /api/admin/events/:id] *)
Definition admin_delete_event (s : Store.t) (id : string) : Response * Store.t :=
  match ObjectId.cast id with
  | None => (server_error, s)
  | Some eid =>
  match Store.Event_findById s eid with
  | None => (json 404 (Message "Event not found"), s)
  | Some _ =>
      (json 200 (Message "Event deleted successfully"),
       {| Store.tickets :=
            Store.deleteMany (fun k => ObjectId.eqb (Ticket.event k) eid)
              (Store.tickets s);
          Store.events :=
            deleteOne (fun e => ObjectId.eqb (Event._id e) eid) (Store.events s);
          Store.organizations := Store.organizations s;
          Store.users := Store.users s |})
  end
  end.

(** [DELETE /api/admin/users/:id] *)
Definition admin_delete_user (s : Store.t) (id : string) : Response * Store.t :=
  match ObjectId.cast id with
  | None => (server_error, s)
  | Some uid =>
  match Store.User_findById s uid with
  | None => (json 404 (Message "User not found"), s)
  | Some _ =>
      (json 200 (Message "User deleted successfully"),
       {| Store.tickets :=
            Store.deleteMany (fun k => ObjectId.eqb (Ticket.user k) uid)
              (Store.tickets s);
          Store.events :=
            Store.deleteMany (fun e => ObjectId.eqb (Event.createdBy e) uid)
              (Store.events s);
          Store.organizations := Store.organizations s;
          Store.users :=
            deleteOne (fun u => ObjectId.eqb (User._id u) uid) (Store.users s) |})
  end
  end.

End Routes.

(* ------------------------------------------------------------------ *)
(** ** The ticket engine: requests, runs, and the notions of the specification *)

Module Engine.

Import Routes.
Local Open Scope string_scope.
Local Open Scope Z_scope.

(** The requests that read or write the ticket collection.  The remaining
    routes of the backend write other collections only. *)
Inductive Request : Type :=
| Claim (user : User.t) (eventId ticketId : string) (oid : ObjectId.t) (clk : Clock)
| QrValidate (user : User.t) (qrData : string) (now : JSDate.t)
| TicketsValidate (user : User.t) (qrData : string) (now : JSDate.t)
| QrScan (user : User.t) (qrData : string) (clk : Clock)
| TicketsUse (user : User.t) (id : string) (clk : Clock)
| AdminDeleteEvent (id : string)
| AdminDeleteUser (id : string).

Definition handle (s : Store.t) (r : Request) : Response * Store.t :=
  match r with
  | Claim user eventId ticketId oid clk => claim s user eventId ticketId oid clk
  | QrValidate user qrData now => qr_validate s user qrData now
  | TicketsValidate user qrData now => tickets_validate s user qrData now
  | QrScan user qrData clk => qr_scan s user qrData clk
  | TicketsUse user id clk => tickets_use s user id clk
  | AdminDeleteEvent id => admin_delete_event s id
  | AdminDeleteUser id => admin_delete_user s id
  end.

Definition step (s : Store.t) (r : Request) : Store.t := snd (handle s r).

(** Requests served one after the other. *)
Fixpoint run (s : Store.t) (rs : list Request) : Store.t :=
  match rs with
  | [] => s
  | r :: rest => run (step s r) rest
  end.

(** *** The responses under the names the specification gives them *)

Definition SoldOut : Response := json 400 (Message "Event is sold out").
Definition AlreadyClaimed : Response :=
  json 400 (Message "You already have a ticket for this event").
Definition Malformed : Response := json 400 (Message "Invalid QR code format").
Definition NotFound : Response := json 404 (Message "Ticket not found").
Definition WrongScope : Response :=
  json 403 (Message "Ticket does not belong to your organization").
Definition WrongScope_use : Response := json 403 (Message "Access denied").
Definition NotActive (st : Ticket.Status) (usedAt : option JSDate.t) : Response :=
  json 400 (NotValid "Ticket is not valid" st usedAt).
Definition NotActive_use : Response := json 400 (Message "Ticket is not active").
Definition EventPassed : Response := json 400 (Message "Event has already passed").

(** *** Capacity and holding *)

(** A ticket occupies a capacity slot, in the words of the specification,
    when its status is active or used. *)
Definition occupies (k : Ticket.t) : bool :=
  Ticket.status_eqb (Ticket.status k) Ticket.active
  || Ticket.status_eqb (Ticket.status k) Ticket.used.

Definition is_active (k : Ticket.t) : bool :=
  Ticket.status_eqb (Ticket.status k) Ticket.active.

(** Used, cancelled and expired. *)
Definition terminal (st : Ticket.Status) : bool :=
  negb (Ticket.status_eqb st Ticket.active).

(** The occupied-capacity count of the specification: tickets of the event
    in status active or used. *)
Definition occupied (s : Store.t) (eid : ObjectId.t) : Z :=
  Store.countDocuments
    (fun k => ObjectId.eqb (Ticket.event k) eid && occupies k) (Store.tickets s).

(** The count the routes take: tickets of the event in status active. *)
Definition active_count (s : Store.t) (eid : ObjectId.t) : Z :=
  Store.countDocuments
    (fun k => ObjectId.eqb (Ticket.event k) eid && is_active k) (Store.tickets s).

(** The tickets a holder holds for an event. *)
Definition held (eid uid : ObjectId.t) (k : Ticket.t) : bool :=
  ObjectId.eqb (Ticket.event k) eid && ObjectId.eqb (Ticket.user k) uid
  && occupies k.

Definition holds (s : Store.t) (eid uid : ObjectId.t) : Z :=
  Store.countDocuments (held eid uid) (Store.tickets s).

(** The anti-duplicate-claim invariant. *)
Definition one_per_holder (s : Store.t) : Prop :=
  forall eid uid, holds s eid uid <= 1.

(** No event has more active tickets than its capacity. *)
Definition within_capacity (s : Store.t) : Prop :=
  forall eid event,
    Store.Event_findById s eid = Some event ->
    active_count s eid <= Event.capacity event.

(** No two entries of the list are equal. *)
Fixpoint distinct (l : list string) : bool :=
  match l with
  | [] => true
  | x :: rest => negb (existsb (String.eqb x) rest) && distinct rest
  end.

(** The uniqueness the collections enforce: [_id] in both, and the two
    unique fields of the ticket schema. *)
Definition well_formed (s : Store.t) : bool :=
  distinct (map Ticket._id (Store.tickets s))
  && distinct (map Ticket.ticketId (Store.tickets s))
  && distinct (map Ticket.qrCode (Store.tickets s))
  && distinct (map Event._id (Store.events s)).

(** Checkers for the two invariants on a given store. *)
Definition one_per_holder_check (s : Store.t) : bool :=
  forallb (fun k => holds s (Ticket.event k) (Ticket.user k) <=? 1)
    (Store.tickets s).

Definition within_capacity_check (s : Store.t) : bool :=
  forallb (fun e => active_count s (Event._id e) <=? Event.capacity e)
    (Store.events s).

(** The event is open to claims at the time of the date check. *)
Definition claimable (event : Event.t) (now : JSDate.t) : Prop :=
  Event.status event = Event.published
  /\ Event.isApproved event = true
  /\ now <= Event.date event.

(** Modelled from the spec: the [cancel] operation, for which the backend
    has no route.  [cancel(ticketId, actingPrincipal) -> Ticket | Err]
    finds the ticket by its ticket identifier and, the ticket being active,
    sets its status to cancelled; a ticket that is not found, or whose
    status is terminal, is an error and nothing is written.  Whether the
    principal may cancel is decided by the caller. *)
Definition cancelled (k : Ticket.t) : Ticket.t :=
  {| Ticket._id := Ticket._id k;
     Ticket.ticketId := Ticket.ticketId k;
     Ticket.event := Ticket.event k;
     Ticket.user := Ticket.user k;
     Ticket.qrCode := Ticket.qrCode k;
     Ticket.status := Ticket.cancelled;
     Ticket.usedAt := Ticket.usedAt k;
     Ticket.usedBy := Ticket.usedBy k;
     Ticket.price := Ticket.price k;
     Ticket.createdAt := Ticket.createdAt k;
     Ticket.updatedAt := Ticket.updatedAt k |}.

Definition cancel (s : Store.t) (ticketId : string)
  : option (Ticket.t * Store.t) :=
  match Store.findOne (fun k => String.eqb (Ticket.ticketId k) ticketId)
          (Store.tickets s) with
  | None => None
  | Some k =>
      if Ticket.status_eqb (Ticket.status k) Ticket.active
      then Some (cancelled k, Store.update_ticket s (cancelled k))
      else None
  end.

(** The replacement [update_ticket] makes, on a stored document. *)
Definition replaced (k' : Ticket.t) (d : Ticket.t) : Ticket.t :=
  if ObjectId.eqb (Ticket._id d) (Ticket._id k') then k' else d.

(** *** What a request can do to the store *)

Inductive effect (s : Store.t) : Store.t -> Prop :=
| effect_none : effect s s
| effect_issue (tk : Ticket.t) (event : Event.t) :
    Store.Event_findById s (Ticket.event tk) = Some event ->
    Ticket.status tk = Ticket.active ->
    holds s (Ticket.event tk) (Ticket.user tk) = 0 ->
    active_count s (Ticket.event tk) < Event.capacity event ->
    Store.duplicate_key tk (Store.tickets s) = false ->
    effect s (Store.with_tickets s (Store.tickets s ++ [tk]))
| effect_redeem (k : Ticket.t) (user : User.t) (clk : Clock) :
    In k (Store.tickets s) ->
    Ticket.status k = Ticket.active ->
    effect s (Store.update_ticket s (mark_used k user clk))
| effect_delete_event (eid : ObjectId.t) :
    effect s
      {| Store.tickets :=
           Store.deleteMany (fun k => ObjectId.eqb (Ticket.event k) eid)
             (Store.tickets s);
         Store.events :=
           deleteOne (fun e => ObjectId.eqb (Event._id e) eid) (Store.events s);
         Store.organizations := Store.organizations s;
         Store.users := Store.users s |}
| effect_delete_user (uid : ObjectId.t) :
    effect s
      {| Store.tickets :=
           Store.deleteMany (fun k => ObjectId.eqb (Ticket.user k) uid)
             (Store.tickets s);
         Store.events :=
           Store.deleteMany (fun e => ObjectId.eqb (Event.createdBy e) uid)
             (Store.events s);
         Store.organizations := Store.organizations s;
         Store.users :=
           deleteOne (fun u => ObjectId.eqb (User._id u) uid) (Store.users s) |}.

End Engine.

(* ------------------------------------------------------------------ *)
(** ** Handlers cut at their awaits *)

(** A handler is an [async] function: between its reads of the store and
    its [save()] other requests may be served.  The claim and the scan are
    cut here in two steps, the reads (which end in a rejection or in the
    document to save) and the write, so that runs in which two requests
    overlap can be stated. *)
Module Interleaving.

Import Routes.
Local Open Scope string_scope.
Local Open Scope Z_scope.

(** [POST /api/tickets/claim] up to, and without, [await ticket.save()]. *)
Definition claim_reads (s : Store.t) (user : User.t) (eventId : string)
    (ticketId : string) (oid : ObjectId.t) (clk : Clock) : Response + Ticket.t :=
  if negb (ObjectId.isMongoId eventId) then inl (json 400 Errors) else
  match ObjectId.cast eventId with
  | None => inl server_error
  | Some eid =>
  match Store.Event_findById s eid with
  | None => inl (json 404 (Message "Event not found"))
  | Some event =>
  if negb (Event.status_eqb (Event.status event) Event.published)
     || negb (Event.isApproved event)
  then inl (json 400 (Message "Event is not available for ticket claiming"))
  else if Event.date event <? at_check clk
  then inl (json 400 (Message "Event has already passed"))
  else
  match Store.findOne
          (fun k => ObjectId.eqb (Ticket.event k) eid
                    && ObjectId.eqb (Ticket.user k) (User._id user)
                    && (Ticket.status_eqb (Ticket.status k) Ticket.active
                        || Ticket.status_eqb (Ticket.status k) Ticket.used))
          (Store.tickets s) with
  | Some _ => inl (json 400 (Message "You already have a ticket for this event"))
  | None =>
  if Event.capacity event
     <=? Store.countDocuments
           (fun k => ObjectId.eqb (Ticket.event k) eid
                     && Ticket.status_eqb (Ticket.status k) Ticket.active)
           (Store.tickets s)
  then inl (json 400 (Message "Event is sold out"))
  else
    inr (new_ticket user event eid ticketId
           (qrData_of ticketId eventId (ObjectId.toString (User._id user))
              (JSDate.toISOString (at_write clk))) oid clk)
  end
  end
  end.

(** [await ticket.save()] and the response. *)
Definition claim_write (s : Store.t) (ticket : Ticket.t) : Response * Store.t :=
  match Store.insert_ticket s ticket with
  | None => (server_error, s)
  | Some s' => (json 201 (Claimed ticket), s')
  end.

(** [POST /api/qr/scan] up to, and without, [await ticket.save()]. *)
Definition scan_reads (s : Store.t) (user : User.t) (qrData : string)
    (clk : Clock) : Response + Ticket.t :=
  match JSON.parse qrData with
  | None => inl (json 400 (Message "Invalid QR code format"))
  | Some _ =>
  match Store.findOne (fun k => String.eqb (Ticket.qrCode k) qrData)
          (Store.tickets s) with
  | None => inl (json 404 (Message "Ticket not found"))
  | Some ticket =>
  let populated := populate s ticket in
  match organization_differs populated user with
  | None => inl server_error
  | Some true =>
      inl (json 403 (Message "Ticket does not belong to your organization"))
  | Some false =>
  if negb (Ticket.status_eqb (Ticket.status ticket) Ticket.active)
  then inl (json 400 (NotValid "Ticket is not valid" (Ticket.status ticket)
                        (Ticket.usedAt ticket)))
  else
  match populated with
  | None => inl server_error
  | Some (event, _) =>
  if Event.date event <? at_check clk
  then inl (json 400 (Message "Event has already passed"))
  else inr (mark_used ticket user clk)
  end
  end
  end
  end.

Definition scan_write (s : Store.t) (ticket' : Ticket.t) : Response * Store.t :=
  (json 200 (Scanned "Ticket scanned and marked as used successfully" ticket'),
   Store.update_ticket s ticket').

(** Two requests whose reads both come before either write. *)
Definition overlapped {A} (reads1 reads2 : Store.t -> Response + A)
    (write : Store.t -> A -> Response * Store.t) (s : Store.t)
  : Response * Response * Store.t :=
  match reads1 s, reads2 s with
  | inr a1, inr a2 =>
      let (r1, s1) := write s a1 in
      let (r2, s2) := write s1 a2 in (r1, r2, s2)
  | inr a1, inl r2 => let (r1, s1) := write s a1 in (r1, r2, s1)
  | inl r1, inr a2 => let (r2, s2) := write s a2 in (r1, r2, s2)
  | inl r1, inl r2 => (r1, r2, s)
  end.

End Interleaving.

(* ------------------------------------------------------------------ *)
(** ** A small campus: one event of capacity one, two organizations *)

Module Examples.

Import Routes Engine.
Local Open Scope string_scope.
Local Open Scope Z_scope.

Definition org_a : ObjectId.t := "6900000000000000000000a1".
Definition org_b : ObjectId.t := "6900000000000000000000b2".

Definition organizer_a : User.t :=
  {| User._id := "6900000000000000000000c1"; User.role := User.organizer;
     User.isApproved := true; User.organization := Some org_a |}.

Definition organizer_b : User.t :=
  {| User._id := "6900000000000000000000c2"; User.role := User.organizer;
     User.isApproved := true; User.organization := Some org_b |}.

Definition holder1 : User.t :=
  {| User._id := "6900000000000000000000d1"; User.role := User.student;
     User.isApproved := true; User.organization := None |}.

Definition holder2 : User.t :=
  {| User._id := "6900000000000000000000d2"; User.role := User.student;
     User.isApproved := true; User.organization := None |}.

Definition concert_id : ObjectId.t := "6900000000000000000000e1".

(** 2026-01-01T00:00:00.000Z *)
Definition concert_date : JSDate.t := 1767225600000.

Definition concert : Event.t :=
  {| Event._id := concert_id; Event.date := concert_date;
     Event.ticketType := Event.free; Event.ticketPrice := None;
     Event.capacity := 1; Event.status := Event.published;
     Event.isApproved := true; Event.organization := org_a;
     Event.createdBy := User._id organizer_a |}.

(** 2025-11-03T07:00:00.000Z *)
Definition now : JSDate.t := 1762153200000.

Definition clock (t : JSDate.t) : Clock :=
  {| at_check := t; at_write := t + 1; at_save := t + 2 |}.

Definition s0 : Store.t :=
  {| Store.tickets := []; Store.events := [concert];
     Store.organizations := [org_a; org_b];
     Store.users := [organizer_a; organizer_b; holder1; holder2] |}.

Definition uuid1 : string := "3f2b8c1e-5d4a-4e6f-9a7b-1c2d3e4f5a6b".
Definition uuid2 : string := "9c1d7e2f-0a3b-4c5d-8e6f-7a8b9c0d1e2f".
Definition oid1 : ObjectId.t := "6900000000000000000000f1".
Definition oid2 : ObjectId.t := "6900000000000000000000f2".

(** Holder 1 claims the only ticket of the concert. *)
Definition claim1 : Request := Claim holder1 concert_id uuid1 oid1 (clock now).
Definition s1 : Store.t := step s0 claim1.

(** The payload printed in holder 1's QR code. *)
Definition qr1 : string :=
  qrData_of uuid1 concert_id (User._id holder1) (JSDate.toISOString (now + 1)).

(** An organizer of the concert's organization scans it a minute later. *)
Definition scan1 : Request := QrScan organizer_a qr1 (clock (now + 60000)).
Definition s2 : Store.t := step s1 scan1.

(** Then holder 2 claims. *)
Definition claim2 : Request :=
  Claim holder2 concert_id uuid2 oid2 (clock (now + 120000)).
Definition s3 : Store.t := step s2 claim2.

(** The ticket of holder 1 as stored after the claim. *)
Definition ticket1 : Ticket.t :=
  new_ticket holder1 concert concert_id uuid1 qr1 oid1 (clock now).

(** The store after holder 1's ticket was cancelled. *)
Definition s1_cancelled : Store.t :=
  match cancel s1 uuid1 with
  | Some (_, s') => s'
  | None => s1
  end.

End Examples.

(* ------------------------------------------------------------------ *)
(** ** The other routes over the same collections *)

(** [.sort({ field: -1 })]: the documents in descending order of a key,
    documents of equal key in the order they were in. *)
Module SortDesc.

Local Open Scope Z_scope.

Fixpoint insert_desc {A} (key : A -> Z) (x : A) (l : list A) : list A :=
  match l with
  | [] => [x]
  | y :: rest =>
      if key y <=? key x then x :: l else y :: insert_desc key x rest
  end.

Fixpoint sort_desc {A} (key : A -> Z) (l : list A) : list A :=
  match l with
  | [] => []
  | x :: rest => insert_desc key x (sort_desc key rest)
  end.

End SortDesc.

(** What the reading routes send: a payload with its status code, a
    refusal with its message, or the validation errors. *)
Module Reply.

Inductive t (A : Type) : Type :=
| Sent (code : Z) (payload : A)
| Refused (code : Z) (message : string)
| Invalid.                          (* 400 { errors: errors.array() } *)
Arguments Refused {A}.
Arguments Invalid {A}.

End Reply.

(** The ticket routes that only read
    (backend/src/routes/notifications.ts, second part). *)
Module TicketReads.

Import Routes Reply.
Local Open Scope string_scope.
Local Open Scope Z_scope.

(** [GET /api/tickets/:id].  [event] and [user] are populated; the owner
    check dereferences the populated user. *)
Definition get_ticket (s : Store.t) (user : User.t) (id : string)
  : Reply.t Ticket.t :=
  match ObjectId.cast id with
  | None => Refused 500 "Server error"
  | Some tid =>
  match Store.Ticket_findById s tid with
  | None => Refused 404 "Ticket not found"
  | Some ticket =>
  match Store.User_findById s (Ticket.user ticket) with
  | None => Refused 500 "Server error"
  | Some holder =>
      if negb (String.eqb (ObjectId.toString (User._id holder))
                          (ObjectId.toString (User._id user)))
      then Refused 403 "Access denied"
      else Sent 200 ticket
  end
  end
  end.

(** [GET /api/tickets/my]: the caller's tickets, newest first. *)
Definition my_tickets (s : Store.t) (user : User.t) : list Ticket.t :=
  SortDesc.sort_desc Ticket.createdAt
    (List.filter (fun k => ObjectId.eqb (Ticket.user k) (User._id user))
       (Store.tickets s)).

End TicketReads.

(** The organizer's event routes
    (backend/src/routes/notifications.ts, third part). *)
Module EventRoutes.

Import Routes Reply.
Local Open Scope string_scope.
Local Open Scope Z_scope.

(** [req.body], the fields of it that are fields of the event model here;
    a field the request does not carry is [None].  A field is given as the
    value the model casts it to: [capacity] as the Number, finite and of
    integer value, that the digits the validator accepts denote. *)
Record Body : Type := {
  date : option JSDate.t;
  ticketType : option Event.TicketType;
  ticketPrice : option Q;
  capacity : option Z;
  status : option Event.Status;
  isApproved : option bool;
  organization : option ObjectId.t;
  createdBy : option ObjectId.t
}.

Definition or_else {A} (o : option A) (d : A) : A :=
  match o with Some a => a | None => d end.

(** [Object.assign(event, req.body)] *)
Definition assign (e : Event.t) (b : Body) : Event.t :=
  {| Event._id := Event._id e;
     Event.date := or_else (date b) (Event.date e);
     Event.ticketType := or_else (ticketType b) (Event.ticketType e);
     Event.ticketPrice :=
       match ticketPrice b with Some p => Some p | None => Event.ticketPrice e end;
     Event.capacity := or_else (capacity b) (Event.capacity e);
     Event.status := or_else (status b) (Event.status e);
     Event.isApproved := or_else (isApproved b) (Event.isApproved e);
     Event.organization := or_else (organization b) (Event.organization e);
     Event.createdBy := or_else (createdBy b) (Event.createdBy e) |}.

(** The checks of the schema that [save()] runs: [capacity] at least 1,
    [ticketPrice] not negative, and present when the event is paid. *)
Definition schema_ok (e : Event.t) : bool :=
  (1 <=? Event.capacity e)
  && match Event.ticketPrice e with
     | Some p => Qle_bool 0 p
     | None =>
         match Event.ticketType e with
         | Event.paid => false
         | Event.free => true
         end
     end.

(** The validators of both routes on the optional fields:
    [capacity] an integer from 1, [ticketPrice] from 0. *)
Definition numbers_ok (b : Body) : bool :=
  match capacity b with Some c => 1 <=? c | None => true end
  && match ticketPrice b with Some p => Qle_bool 0 p | None => true end.

(** [body('status').optional().isIn(['draft', 'published', 'cancelled'])] *)
Definition status_ok (b : Body) : bool :=
  match status b with
  | Some Event.completed => false
  | _ => true
  end.

(** [event.save()] of a document that was read and modified. *)
Definition save_event (s : Store.t) (e : Event.t) : Store.t :=
  {| Store.tickets := Store.tickets s;
     Store.events :=
       map (fun d => if ObjectId.eqb (Event._id d) (Event._id e) then e else d)
         (Store.events s);
     Store.organizations := Store.organizations s;
     Store.users := Store.users s |}.

(** [PUT /api/events/:id] *)
Definition update_event (s : Store.t) (user : User.t) (id : string) (b : Body)
  : Reply.t Event.t * Store.t :=
  if negb (numbers_ok b && status_ok b) then (Invalid, s) else
  match ObjectId.cast id with
  | None => (Refused 500 "Server error", s)
  | Some eid =>
  match Store.Event_findById s eid with
  | None => (Refused 404 "Event not found", s)
  | Some event =>
      if negb (String.eqb (ObjectId.toString (Event.createdBy event))
                          (ObjectId.toString (User._id user)))
      then (Refused 403 "Access denied", s)
      else
        let event' := assign event b in
        if schema_ok event' then (Sent 200 event', save_event s event')
        else (Refused 500 "Server error", s)
  end
  end.

(** [POST /api/events].  [date], [ticketType] and [capacity] are required
    by the validators; [oid] is the [_id] of the new document. *)
Definition create_event (s : Store.t) (user : User.t) (b : Body)
    (oid : ObjectId.t) : Reply.t Event.t * Store.t :=
  match date b, ticketType b, capacity b with
  | Some d, Some kind, Some c =>
      if negb (numbers_ok b) then (Invalid, s) else
      match User.organization user with
      | None => (Refused 500 "Server error", s)
      | Some org =>
          let event :=
            {| Event._id := oid;
               Event.date := d;
               Event.ticketType := kind;
               Event.ticketPrice := ticketPrice b;
               Event.capacity := c;
               Event.status := Event.draft;
               Event.isApproved := or_else (isApproved b) false;
               Event.organization := org;
               Event.createdBy := User._id user |} in
          if negb (schema_ok event) then (Refused 500 "Server error", s)
          else if existsb (fun e => ObjectId.eqb (Event._id e) oid) (Store.events s)
          then (Refused 500 "Server error", s)
          else
            (Sent 201 event,
             {| Store.tickets := Store.tickets s;
                Store.events := (Store.events s ++ [event])%list;
                Store.organizations := Store.organizations s;
                Store.users := Store.users s |})
      end
  | _, _, _ => (Invalid, s)
  end.

(** [DELETE /api/events/:id]: the event document only. *)
Definition delete_event (s : Store.t) (user : User.t) (id : string)
  : Response * Store.t :=
  match ObjectId.cast id with
  | None => (server_error, s)
  | Some eid =>
  match Store.Event_findById s eid with
  | None => (json 404 (Message "Event not found"), s)
  | Some event =>
      if negb (String.eqb (ObjectId.toString (Event.createdBy event))
                          (ObjectId.toString (User._id user)))
      then (json 403 (Message "Access denied"), s)
      else
        (json 200 (Message "Event deleted successfully"),
         {| Store.tickets := Store.tickets s;
            Store.events :=
              deleteOne (fun e => ObjectId.eqb (Event._id e) eid) (Store.events s);
            Store.organizations := Store.organizations s;
            Store.users := Store.users s |})
  end
  end.

End EventRoutes.

(** The moderation routes of the administrator
    (backend/src/routes/analytics.ts, second part). *)
Module AdminRoutes.

Import Routes.
Local Open Scope string_scope.
Local Open Scope Z_scope.

(** [Model.findByIdAndUpdate(id, update)]: the first document with the
    [_id] is replaced by its updated copy. *)
Fixpoint update_first {A} (found : A -> bool) (change : A -> A) (docs : list A)
  : list A :=
  match docs with
  | [] => []
  | d :: rest =>
      if found d then change d :: rest else d :: update_first found change rest
  end.

Definition set_isApproved (v : bool) (e : Event.t) : Event.t :=
  {| Event._id := Event._id e; Event.date := Event.date e;
     Event.ticketType := Event.ticketType e;
     Event.ticketPrice := Event.ticketPrice e;
     Event.capacity := Event.capacity e; Event.status := Event.status e;
     Event.isApproved := v; Event.organization := Event.organization e;
     Event.createdBy := Event.createdBy e |}.

Definition set_status (v : Event.Status) (e : Event.t) : Event.t :=
  {| Event._id := Event._id e; Event.date := Event.date e;
     Event.ticketType := Event.ticketType e;
     Event.ticketPrice := Event.ticketPrice e;
     Event.capacity := Event.capacity e; Event.status := v;
     Event.isApproved := Event.isApproved e;
     Event.organization := Event.organization e;
     Event.createdBy := Event.createdBy e |}.

Definition change_event (s : Store.t) (id : string) (change : Event.t -> Event.t)
    (done : string) : Response * Store.t :=
  match ObjectId.cast id with
  | None => (server_error, s)
  | Some eid =>
  match Store.Event_findById s eid with
  | None => (json 404 (Message "Event not found"), s)
  | Some _ =>
      (json 200 (Message done),
       {| Store.tickets := Store.tickets s;
          Store.events :=
            update_first (fun e => ObjectId.eqb (Event._id e) eid) change
              (Store.events s);
          Store.organizations := Store.organizations s;
          Store.users := Store.users s |})
  end
  end.

(** [PUT /api/admin/events/:id/approve] *)
Definition approve_event (s : Store.t) (id : string) (isApproved : bool)
  : Response * Store.t :=
  change_event s id (set_isApproved isApproved)
    (if isApproved then "Event approved successfully"
     else "Event rejected successfully").

(** [PUT /api/admin/events/:id/status] *)
Definition set_event_status (s : Store.t) (id : string) (status : Event.Status)
  : Response * Store.t :=
  change_event s id (set_status status) "Event status updated successfully".

Definition unset_organization (u : User.t) : User.t :=
  {| User._id := User._id u; User.role := User.role u;
     User.isApproved := User.isApproved u; User.organization := None |}.

Definition member_of (org : ObjectId.t) (u : User.t) : bool :=
  match User.organization u with
  | Some o => ObjectId.eqb o org
  | None => false
  end.

(** [DELETE /api/admin/organizations/:id]: the members lose their
    organization, the events of the organization are deleted, then the
    organization itself. *)
Definition delete_organization (s : Store.t) (id : string) : Response * Store.t :=
  match ObjectId.cast id with
  | None => (server_error, s)
  | Some org =>
      if negb (Store.Organization_exists s org)
      then (json 404 (Message "Organization not found"), s)
      else
        (json 200 (Message "Organization deleted successfully"),
         {| Store.tickets := Store.tickets s;
            Store.events :=
              Store.deleteMany (fun e => ObjectId.eqb (Event.organization e) org)
                (Store.events s);
            Store.organizations :=
              deleteOne (fun o => ObjectId.eqb o org) (Store.organizations s);
            Store.users :=
              map (fun u => if member_of org u then unset_organization u else u)
                (Store.users s) |})
  end.

End AdminRoutes.

(** [JSON.stringify] of an object literal whose property values are strings
    or booleans. *)
Module JSONFlat.

Local Open Scope string_scope.

Inductive scalar : Type :=
| Text (s : string)
| Flag (b : bool).

Definition stringify_scalar (v : scalar) : string :=
  match v with
  | Text s => JSON.quote s
  | Flag true => "true"
  | Flag false => "false"
  end.

Fixpoint stringify_fields (ms : list (string * scalar)) : string :=
  match ms with
  | [] => EmptyString
  | [(k, v)] => JSON.quote k ++ ":" ++ stringify_scalar v
  | (k, v) :: rest =>
      JSON.quote k ++ ":" ++ stringify_scalar v ++ "," ++ stringify_fields rest
  end.

Definition stringify (ms : list (string * scalar)) : string :=
  "{" ++ stringify_fields ms ++ "}".

Definition as_value (v : scalar) : JSON.value :=
  match v with
  | Text s => JSON.Str s
  | Flag b => JSON.Bool b
  end.

End JSONFlat.

(** The other QR routes (backend/src/routes/qr.ts). *)
Module QrRoutes.

Import Routes Reply.
Local Open Scope string_scope.
Local Open Scope Z_scope.

(** The counts and the list of [GET /api/qr/events/:eventId/scan-stats];
    the attendance rate and the scans grouped by hour are left out. *)
Record ScanStats : Type := {
  totalTickets : Z;
  usedTickets : Z;
  activeTickets : Z;
  recentScans : list Ticket.t
}.

Definition has_usedAt (k : Ticket.t) : bool :=
  match Ticket.usedAt k with Some _ => true | None => false end.

Definition usedAt_value (k : Ticket.t) : Z :=
  match Ticket.usedAt k with Some t => t | None => 0 end.

(** [.sort({ usedAt: -1 })]: latest first, documents without the field
    last. *)
Definition sort_usedAt_desc (l : list Ticket.t) : list Ticket.t :=
  (SortDesc.sort_desc usedAt_value (List.filter has_usedAt l)
   ++ List.filter (fun k => negb (has_usedAt k)) l)%list.

(** [GET /api/qr/events/:eventId/scan-stats] *)
Definition scan_stats (s : Store.t) (user : User.t) (eventId : string)
  : Reply.t ScanStats :=
  match ObjectId.cast eventId with
  | None => Refused 500 "Server error"
  | Some eid =>
  match Store.Event_findById s eid with
  | None => Refused 404 "Event not found"
  | Some event =>
      if negb (String.eqb (ObjectId.toString (Event.createdBy event))
                          (ObjectId.toString (User._id user)))
      then Refused 403 "Access denied"
      else
        Sent 200
          {| totalTickets :=
               Store.countDocuments
                 (fun k => ObjectId.eqb (Ticket.event k) eid) (Store.tickets s);
             usedTickets :=
               Store.countDocuments
                 (fun k => ObjectId.eqb (Ticket.event k) eid
                           && Ticket.status_eqb (Ticket.status k) Ticket.used)
                 (Store.tickets s);
             activeTickets :=
               Store.countDocuments
                 (fun k => ObjectId.eqb (Ticket.event k) eid
                           && Ticket.status_eqb (Ticket.status k) Ticket.active)
                 (Store.tickets s);
             recentScans :=
               firstn 20
                 (sort_usedAt_desc
                    (List.filter
                       (fun k => ObjectId.eqb (Ticket.event k) eid
                                 && Ticket.status_eqb (Ticket.status k) Ticket.used)
                       (Store.tickets s))) |}
  end
  end.

(** The payload of [POST /api/qr/generate-test]:
    [JSON.stringify({ eventId, userId, testMode: true, timestamp })]. *)
Definition test_qrData (eventId userId timestamp : string) : string :=
  JSONFlat.stringify
    [("eventId", JSONFlat.Text eventId); ("userId", JSONFlat.Text userId);
     ("testMode", JSONFlat.Flag true); ("timestamp", JSONFlat.Text timestamp)].

(** [POST /api/qr/generate-test]; the reply is [qrData]. *)
Definition generate_test (s : Store.t) (user : User.t) (eventId userId : string)
    (now : JSDate.t) : Reply.t string :=
  if negb (ObjectId.isMongoId eventId && ObjectId.isMongoId userId) then Invalid
  else
  match ObjectId.cast eventId with
  | None => Refused 500 "Server error"
  | Some eid =>
  match Store.Event_findById s eid with
  | None => Refused 404 "Event not found"
  | Some event =>
      if negb (String.eqb (ObjectId.toString (Event.createdBy event))
                          (ObjectId.toString (User._id user)))
      then Refused 403 "Access denied"
      else Sent 200 (test_qrData eventId userId (JSDate.toISOString now))
  end
  end.

End QrRoutes.

(** The organizer's views of one event
    (backend/src/index.ts, second part). *)
Module OrganizerViews.

Import Routes Reply.
Local Open Scope string_scope.
Local Open Scope Z_scope.

(** The four counts of [GET /api/users/organizer/events/:id/analytics];
    the rates, the revenue and the grouped series are left out. *)
Record TicketStats : Type := {
  totalTickets : Z;
  usedTickets : Z;
  activeTickets : Z;
  cancelledTickets : Z
}.

Definition with_status (eid : ObjectId.t) (st : Ticket.Status) (k : Ticket.t)
  : bool :=
  ObjectId.eqb (Ticket.event k) eid && Ticket.status_eqb (Ticket.status k) st.

(** [GET /api/users/organizer/events/:id/analytics] *)
Definition event_analytics (s : Store.t) (user : User.t) (id : string)
  : Reply.t TicketStats :=
  match ObjectId.cast id with
  | None => Refused 500 "Server error"
  | Some eid =>
  match Store.Event_findById s eid with
  | None => Refused 404 "Event not found"
  | Some event =>
      if negb (String.eqb (ObjectId.toString (Event.createdBy event))
                          (ObjectId.toString (User._id user)))
      then Refused 403 "Access denied"
      else
        Sent 200
          {| totalTickets :=
               Store.countDocuments
                 (fun k => ObjectId.eqb (Ticket.event k) eid) (Store.tickets s);
             usedTickets :=
               Store.countDocuments (with_status eid Ticket.used) (Store.tickets s);
             activeTickets :=
               Store.countDocuments (with_status eid Ticket.active) (Store.tickets s);
             cancelledTickets :=
               Store.countDocuments (with_status eid Ticket.cancelled)
                 (Store.tickets s) |}
  end
  end.

(** [GET /api/users/organizer/events/:id/attendees]: the tickets of the
    event, newest first, and [totalAttendees]. *)
Definition attendees (s : Store.t) (user : User.t) (id : string)
  : Reply.t (list Ticket.t * Z) :=
  match ObjectId.cast id with
  | None => Refused 500 "Server error"
  | Some eid =>
  match Store.Event_findById s eid with
  | None => Refused 404 "Event not found"
  | Some event =>
      if negb (String.eqb (ObjectId.toString (Event.createdBy event))
                          (ObjectId.toString (User._id user)))
      then Refused 403 "Access denied"
      else
        let tickets :=
          SortDesc.sort_desc Ticket.createdAt
            (List.filter (fun k => ObjectId.eqb (Ticket.event k) eid)
               (Store.tickets s)) in
        Sent 200 (tickets, Z.of_nat (List.length tickets))
  end
  end.

End OrganizerViews.

(** The pages of the listing routes ([GET /api/events],
    [GET /api/admin/users], [GET /api/admin/events]). *)
Module Paging.

Import Reply.
Local Open Scope string_scope.
Local Open Scope Z_scope.

Record Page (A : Type) : Type := {
  items : list A;
  currentPage : JSNumber.t;
  totalPages : Z;
  total : Z;
  hasNext : bool;
  hasPrev : bool
}.

Section ListPage.
Context {A : Type}.

(** [Model.find(filter).sort(order).skip(skip).limit(limit)], the query
    the route sends to the database: the documents it is answered with, or
    [None] when the query fails. *)
Variable find : JSNumber.t -> Z -> option (list A).

(** [Model.countDocuments(filter)] *)
Variable count : Z.

(** [page] and [limit] are the query parameters, decimal numerals of
    integers, after their defaults (1 and 10); the validators want
    [page >= 1] and [1 <= limit <= 100]. *)
Definition list_page (page limit : Z) : Reply.t (Page A) :=
  if negb ((1 <=? page) && (1 <=? limit) && (limit <=? 100)) then Invalid
  else
    let skip :=
      JSNumber.mul (JSNumber.sub (JSNumber.of_Z page) (JSNumber.Finite 1))
        (JSNumber.of_Z limit) in
    match find skip limit with
    | None => Refused 500 "Server error"
    | Some found =>
        Sent 200
          {| items := found;
             currentPage := JSNumber.of_Z page;
             totalPages := JSNumber.ceil_quot count limit;
             total := count;
             hasNext :=
               JSNumber.ltb
                 (JSNumber.add skip
                    (JSNumber.Finite (Z.of_nat (List.length found))))
                 (JSNumber.Finite count);
             hasPrev := JSNumber.ltb (JSNumber.Finite 1) (JSNumber.of_Z page) |}
    end.

End ListPage.

(** What is supposed of the database where a theorem needs it: to a query
    whose [skip] is an integer from 0 to 2^53 it answers with the documents
    that pass the filter, in the order of the sort, from position [skip]
    on, [limit] of them at most. *)
Definition answers {A} (docs : list A)
    (find : JSNumber.t -> Z -> option (list A)) : Prop :=
  forall skip limit,
    0 <= skip <= 2 ^ 53 ->
    find (JSNumber.Finite skip) limit
    = Some (firstn (Z.to_nat limit) (skipn (Z.to_nat skip) docs)).

End Paging.

(** The saved events of a student: the [SavedEvent] collection and its
    three routes (backend/src/routes/notifications.ts, third part). *)
Module Calendar.

Import Routes.
Local Open Scope string_scope.
Local Open Scope Z_scope.

Record SavedEvent : Type := {
  user : ObjectId.t;
  event : ObjectId.t;
  createdAt : JSDate.t
}.

Definition is_saved (uid eid : ObjectId.t) (d : SavedEvent) : bool :=
  ObjectId.eqb (user d) uid && ObjectId.eqb (event d) eid.

(** [POST /api/events/:id/save] *)
Definition save (s : Store.t) (saved : list SavedEvent) (principal : User.t)
    (id : string) (now : JSDate.t) : Response * list SavedEvent :=
  match ObjectId.cast id with
  | None => (server_error, saved)
  | Some eid =>
  match Store.Event_findById s eid with
  | None => (json 404 (Message "Event not found"), saved)
  | Some _ =>
  match Store.findOne (is_saved (User._id principal) eid) saved with
  | Some _ => (json 400 (Message "Event already saved"), saved)
  | None =>
      (json 200 (Message "Event saved successfully"),
       (saved ++ [{| user := User._id principal; event := eid;
                     createdAt := now |}])%list)
  end
  end
  end.

(** [DELETE /api/events/:id/save] *)
Definition unsave (saved : list SavedEvent) (principal : User.t) (id : string)
  : Response * list SavedEvent :=
  match ObjectId.cast id with
  | None => (server_error, saved)
  | Some eid =>
      (json 200 (Message "Event removed from calendar"),
       deleteOne (is_saved (User._id principal) eid) saved)
  end.

(** [GET /api/events/saved/my]: the saved events, latest saved first; a
    saved event that no longer exists is dropped ([filter(Boolean)]). *)
Definition my_saved (s : Store.t) (saved : list SavedEvent) (principal : User.t)
  : list Event.t :=
  flat_map
    (fun d =>
       match Store.Event_findById s (event d) with
       | Some e => [e]
       | None => []
       end)
    (SortDesc.sort_desc createdAt
       (List.filter (fun d => ObjectId.eqb (user d) (User._id principal)) saved)).

End Calendar.

(** The public list of events ([GET /api/events] in
    backend/src/routes/notifications.ts, third part), for a query that names
    no [category], [date] or [search]. *)
Module EventList.

Import Routes Reply.
Local Open Scope string_scope.
Local Open Scope Z_scope.

(** The filter
    [{ status: 'published', isApproved: true, date: { $gte: new Date() } }]. *)
Definition listed (now : JSDate.t) (e : Event.t) : bool :=
  Event.status_eqb (Event.status e) Event.published
  && Bool.eqb (Event.isApproved e) true
  && (now <=? Event.date e).

(** [.sort({ field: 1 })] *)
Definition sort_asc {A} (key : A -> Z) (l : list A) : list A :=
  SortDesc.sort_desc (fun d => - key d) l.

(** An event of the list, with the two figures added to it. *)
Record Item : Type := {
  event : Event.t;
  ticketsIssued : Z;
  remainingCapacity : JSNumber.t
}.

Definition with_tickets (s : Store.t) (e : Event.t) : Item :=
  let ticketCount :=
    Store.countDocuments
      (fun k => ObjectId.eqb (Ticket.event k) (Event._id e)
                && Ticket.status_eqb (Ticket.status k) Ticket.active)
      (Store.tickets s) in
  {| event := e;
     ticketsIssued := ticketCount;
     remainingCapacity :=
       JSNumber.sub (JSNumber.Finite (Event.capacity e))
         (JSNumber.Finite ticketCount) |}.

(** The events that pass the filter, in the order of [.sort({ date: 1 })]:
    what the query of the route is about. *)
Definition upcoming (s : Store.t) (now : JSDate.t) : list Event.t :=
  sort_asc Event.date (List.filter (listed now) (Store.events s)).

(** [find] is the query [Event.find(filter).sort({ date: 1 }).skip(skip)
    .limit(limit)] of the route. *)
Definition list_events (find : JSNumber.t -> Z -> option (list Event.t))
    (s : Store.t) (now : JSDate.t) (page limit : Z)
  : Reply.t (Paging.Page Item) :=
  match Paging.list_page find
          (Store.countDocuments (listed now) (Store.events s)) page limit with
  | Sent c pg =>
      Sent c
        {| Paging.items := map (with_tickets s) (Paging.items pg);
           Paging.currentPage := Paging.currentPage pg;
           Paging.totalPages := Paging.totalPages pg;
           Paging.total := Paging.total pg;
           Paging.hasNext := Paging.hasNext pg;
           Paging.hasPrev := Paging.hasPrev pg |}
  | Refused c m => Refused c m
  | Invalid => Invalid
  end.

End EventList.

(** ** Every writing route *)

(** The requests of the claim-and-redeem engine together with those of the
    other routes that write to the four collections. *)
Module Backend.

Import Routes.

Inductive Request : Type :=
| Tickets (r : Engine.Request)
| CreateEvent (user : User.t) (b : EventRoutes.Body) (oid : ObjectId.t)
| UpdateEvent (user : User.t) (id : string) (b : EventRoutes.Body)
| DeleteEvent (user : User.t) (id : string)
| ApproveEvent (id : string) (isApproved : bool)
| SetEventStatus (id : string) (status : Event.Status)
| DeleteOrganization (id : string).

Definition step (s : Store.t) (r : Request) : Store.t :=
  match r with
  | Tickets r => Engine.step s r
  | CreateEvent user b oid => snd (EventRoutes.create_event s user b oid)
  | UpdateEvent user id b => snd (EventRoutes.update_event s user id b)
  | DeleteEvent user id => snd (EventRoutes.delete_event s user id)
  | ApproveEvent id isApproved => snd (AdminRoutes.approve_event s id isApproved)
  | SetEventStatus id status => snd (AdminRoutes.set_event_status s id status)
  | DeleteOrganization id => snd (AdminRoutes.delete_organization s id)
  end.

(** The store after a sequence of requests, served one after the other. *)
Fixpoint run (s : Store.t) (rs : list Request) : Store.t :=
  match rs with
  | [] => s
  | r :: rest => run (step s r) rest
  end.

End Backend.

(** ** A second event on the campus *)

Module MoreExamples.

Import Routes Engine.
Local Open Scope string_scope.
Local Open Scope Z_scope.

Definition workshop_id : ObjectId.t := "6900000000000000000000e2".

Definition no_fields : EventRoutes.Body :=
  {| EventRoutes.date := None; EventRoutes.ticketType := None;
     EventRoutes.ticketPrice := None; EventRoutes.capacity := None;
     EventRoutes.status := None; EventRoutes.isApproved := None;
     EventRoutes.organization := None; EventRoutes.createdBy := None |}.

(** The body with which organizer A creates a workshop of two places; it
    asks for a published event of the other organization. *)
Definition workshop_body : EventRoutes.Body :=
  {| EventRoutes.date := Some Examples.concert_date;
     EventRoutes.ticketType := Some Event.free;
     EventRoutes.ticketPrice := None; EventRoutes.capacity := Some 2;
     EventRoutes.status := Some Event.published;
     EventRoutes.isApproved := None;
     EventRoutes.organization := Some Examples.org_b;
     EventRoutes.createdBy := Some (User._id Examples.organizer_b) |}.

Definition s_created : Store.t :=
  snd (EventRoutes.create_event Examples.s1 Examples.organizer_a workshop_body
         workshop_id).

(** The update with which organizer A publishes and approves it. *)
Definition publish_body : EventRoutes.Body :=
  {| EventRoutes.date := None; EventRoutes.ticketType := None;
     EventRoutes.ticketPrice := None; EventRoutes.capacity := None;
     EventRoutes.status := Some Event.published;
     EventRoutes.isApproved := Some true;
     EventRoutes.organization := None; EventRoutes.createdBy := None |}.

Definition workshop : Event.t :=
  {| Event._id := workshop_id; Event.date := Examples.concert_date;
     Event.ticketType := Event.free; Event.ticketPrice := None;
     Event.capacity := 2; Event.status := Event.draft;
     Event.isApproved := false; Event.organization := Examples.org_a;
     Event.createdBy := User._id Examples.organizer_a |}.

(** The concert with two places and both holders' tickets, and the update
    that takes one place away. *)
Definition concert2 : Event.t :=
  {| Event._id := Examples.concert_id; Event.date := Examples.concert_date;
     Event.ticketType := Event.free; Event.ticketPrice := None;
     Event.capacity := 2; Event.status := Event.published;
     Event.isApproved := true; Event.organization := Examples.org_a;
     Event.createdBy := User._id Examples.organizer_a |}.

Definition s_two : Store.t :=
  run {| Store.tickets := []; Store.events := [concert2];
         Store.organizations := [Examples.org_a; Examples.org_b];
         Store.users := Store.users Examples.s0 |}
    [Examples.claim1;
     Claim Examples.holder2 Examples.concert_id Examples.uuid2 Examples.oid2
       (Examples.clock (Examples.now + 120000))].

(** A collection held in memory, as the database of the examples. *)
Definition in_memory {A} (docs : list A) (skip : JSNumber.t) (limit : Z)
  : option (list A) :=
  match skip with
  | JSNumber.Finite k =>
      if 0 <=? k then Some (firstn (Z.to_nat limit) (skipn (Z.to_nat k) docs))
      else None
  | _ => None
  end.

Definition shrink_body : EventRoutes.Body :=
  {| EventRoutes.date := None; EventRoutes.ticketType := None;
     EventRoutes.ticketPrice := None; EventRoutes.capacity := Some 1;
     EventRoutes.status := None; EventRoutes.isApproved := None;
     EventRoutes.organization := None; EventRoutes.createdBy := None |}.

End MoreExamples.

(* ------------------------------------------------------------------ *)
(** * Properties *)

Unset Implicit Arguments.

(** ** The JSON text of a flat object parses back to the object *)

Module JSONFacts.

Import JSON.
Local Open Scope string_scope.

Lemma append_assoc (a b c : string) : (a ++ b) ++ c = a ++ (b ++ c).
Proof. induction a as [|x a IH]; simpl; [reflexivity | now rewrite IH]. Qed.

Lemma length_append (a b : string) :
  String.length (a ++ b) = String.length a + String.length b.
Proof. induction a as [|x a IH]; simpl; [reflexivity | now rewrite IH]. Qed.

(** Reading back one escaped character gives the character. *)
Lemma parse_chars_escape_char (c : ascii) (rest : string) :
  parse_chars (escape_char c ++ rest) =
  match parse_chars rest with
  | Some (body, rest') => Some (String c body, rest')
  | None => None
  end.
Proof.
  destruct c as [[|] [|] [|] [|] [|] [|] [|] [|]]; reflexivity.
Qed.

Lemma parse_chars_escape (s rest : string) :
  parse_chars (escape s ++ String dquote rest) = Some (s, rest).
Proof.
  induction s as [|c s IH]; [reflexivity|].
  change (escape (String c s)) with (escape_char c ++ escape s).
  now rewrite append_assoc, parse_chars_escape_char, IH.
Qed.

Lemma quote_append (s rest : string) :
  quote s ++ rest = String dquote (escape s ++ String dquote rest).
Proof. unfold quote. simpl. now rewrite append_assoc. Qed.

Lemma parse_value_dquote (fuel : nat) (rest : string) :
  parse_value (S fuel) (String dquote rest)
  = bind (of_option (parse_chars rest))
      (fun '(body, rest') => Parsed (Str body, rest')).
Proof. reflexivity. Qed.

Lemma parse_value_quote (fuel : nat) (s rest : string) :
  parse_value (S fuel) (quote s ++ rest) = Parsed (Str s, rest).
Proof.
  now rewrite quote_append, parse_value_dquote, parse_chars_escape.
Qed.

Lemma parse_members_dquote (fuel : nat) (rest : string) :
  parse_members (S fuel) (String dquote rest)
  = bind (of_option (parse_chars rest)) (fun '(key, rest1) =>
      match closes ":" rest1 with
      | Some rest2 => bind (parse_value fuel rest2) (after_member fuel key)
      | None => SyntaxError
      end).
Proof. reflexivity. Qed.

Lemma parse_members_key (fuel : nat) (k rest : string) :
  parse_members (S fuel) (quote k ++ String ":" rest)
  = bind (parse_value fuel rest) (after_member fuel k).
Proof.
  now rewrite quote_append, parse_members_dquote, parse_chars_escape.
Qed.

Lemma parse_members_stringify (ms : list (string * string)) :
  ms <> [] ->
  forall fuel rest,
    List.length ms < fuel ->
    parse_members fuel (stringify_members ms ++ String "}" rest)
    = Parsed (as_values ms, rest).
Proof.
  induction ms as [|[k v] ms IH]; [congruence|]. intros _ fuel rest Hf.
  destruct fuel as [|fuel]; [simpl in Hf; lia|].
  destruct fuel as [|fuel]; [simpl in Hf; lia|].
  destruct ms as [|m ms].
  - change (stringify_members [(k, v)]) with (quote k ++ String ":" (quote v)).
    rewrite append_assoc.
    change (String ":" (quote v) ++ String "}" rest)
      with (String ":" (quote v ++ String "}" rest)).
    rewrite parse_members_key, parse_value_quote. reflexivity.
  - change (stringify_members ((k, v) :: m :: ms))
      with (quote k ++ String ":" (quote v ++ String "," (stringify_members (m :: ms)))).
    rewrite append_assoc.
    change (String ":" (quote v ++ String "," (stringify_members (m :: ms)))
              ++ String "}" rest)
      with (String ":" ((quote v ++ String "," (stringify_members (m :: ms)))
                          ++ String "}" rest)).
    rewrite append_assoc, parse_members_key, parse_value_quote.
    change (String "," (stringify_members (m :: ms)) ++ String "}" rest)
      with (String "," (stringify_members (m :: ms) ++ String "}" rest)).
    unfold after_member, bind at 1.
    change (closes "}" (String "," (stringify_members (m :: ms) ++ String "}" rest)))
      with (@None string).
    change (closes "," (String "," (stringify_members (m :: ms) ++ String "}" rest)))
      with (Some (stringify_members (m :: ms) ++ String "}" rest)).
    cbv iota beta.
    rewrite IH; [reflexivity | congruence | simpl in *; lia].
Qed.

Lemma length_stringify_members (ms : list (string * string)) :
  List.length ms <= String.length (stringify_members ms).
Proof.
  induction ms as [|[k v] ms IH]; [simpl; lia|].
  destruct ms as [|m ms].
  - simpl. lia.
  - change (stringify_members ((k, v) :: m :: ms))
      with (quote k ++ ":" ++ quote v ++ "," ++ stringify_members (m :: ms)).
    rewrite !length_append.
    set (r := String.length (stringify_members (m :: ms))) in *.
    simpl List.length in *.
    change (String.length ":") with 1%nat.
    change (String.length ",") with 1%nat. lia.
Qed.

(** [JSON.parse(JSON.stringify(o))] for an object [o] of string properties. *)
Lemma stringify_members_head (m : string * string) (ms : list (string * string)) :
  exists b, stringify_members (m :: ms) = String dquote b.
Proof.
  destruct m as [k v]. destruct ms as [|m' ms']; eexists; reflexivity.
Qed.

Lemma parse_value_object (fuel : nat) (b : string) :
  parse_value (S fuel) (String "{" (String dquote b))
  = bind (parse_members fuel (String dquote b))
      (fun '(ms, rest') => Parsed (Object ms, rest')).
Proof. reflexivity. Qed.

(** [JSON.parse(JSON.stringify(o))] for an object [o] of string properties. *)
Lemma parse_stringify_object (ms : list (string * string)) :
  parse (stringify_object ms) = Some (normalize (Object (as_values ms))).
Proof.
  destruct ms as [|m ms]; [reflexivity|].
  unfold parse, parse_text, stringify_object.
  set (body := stringify_members (m :: ms)).
  assert (Hlen : List.length (m :: ms) <= String.length body)
    by apply length_stringify_members.
  unfold fuel_for.
  assert (Hn : String.length ("{" ++ body ++ "}") = S (String.length body + 1)).
  { change (String.length ("{" ++ body ++ "}")) with (S (String.length (body ++ "}"))).
    now rewrite length_append. }
  rewrite Hn.
  replace (2 * S (String.length body + 1) + 2)%nat
    with (S (S (2 * String.length body + 4))) by lia.
  change ("{" ++ body ++ "}") with (String "{" (body ++ String "}" EmptyString)).
  destruct (stringify_members_head m ms) as [b Hb]. fold body in Hb.
  rewrite Hb.
  change (String dquote b ++ String "}" EmptyString)
    with (String dquote (b ++ String "}" EmptyString)).
  rewrite parse_value_object.
  change (String dquote (b ++ String "}" EmptyString))
    with (String dquote b ++ String "}" EmptyString).
  rewrite <- Hb. subst body.
  rewrite parse_members_stringify; [reflexivity | congruence |].
  simpl List.length in *. lia.
Qed.

(** *** The fuel handed to the parser suffices *)

Lemma skip_ws_length (s : string) :
  String.length (skip_ws s) <= String.length s.
Proof.
  induction s as [|c s IH]; cbn [skip_ws String.length]; [lia|].
  destruct (is_ws c); cbn [String.length]; lia.
Qed.

Lemma skip_ws_cons (s : string) (c : ascii) (rest : string) :
  skip_ws s = String c rest -> String.length rest < String.length s.
Proof.
  intros E. pose proof (skip_ws_length s) as H. rewrite E in H.
  cbn [String.length] in H. lia.
Qed.

Lemma closes_length (c : ascii) (s r : string) :
  closes c s = Some r -> String.length r < String.length s.
Proof.
  unfold closes. destruct (skip_ws s) as [|d rest] eqn:E; [discriminate|].
  destruct (Ascii.eqb d c); [|discriminate]. intros [= <-].
  now apply skip_ws_cons in E.
Qed.

Lemma parse_chars_length_bounded (n : nat) :
  forall s b r,
    String.length s <= n ->
    parse_chars s = Some (b, r) -> String.length r < String.length s.
Proof.
  induction n as [|n IH]; intros s b r Hn;
    (destruct s as [|c rest]; [discriminate|]);
    cbn [String.length] in Hn; [lia|].
  cbn [parse_chars String.length].
  destruct (Ascii.eqb c dquote); [intros [= _ <-]; lia|].
  destruct (Ascii.eqb c backslash).
  - destruct rest as [|e rest1]; [discriminate|].
    cbn [String.length] in *.
    destruct (simple_escape e).
    + destruct (parse_chars rest1) as [[b' r']|] eqn:E; [|discriminate].
      intros [= _ <-]. apply IH in E; lia.
    + destruct (Ascii.eqb e "u"); [|discriminate].
      destruct rest1 as [|h1 [|h2 [|h3 [|h4 rest2]]]]; try discriminate.
      cbn [String.length] in *.
      destruct (hex4 h1 h2 h3 h4); [|discriminate].
      destruct (parse_chars rest2) as [[b' r']|] eqn:E; [|discriminate].
      intros [= _ <-]. apply IH in E; lia.
  - destruct (Nat.ltb (nat_of_ascii c) 32); [discriminate|].
    destruct (parse_chars rest) as [[b' r']|] eqn:E; [|discriminate].
    intros [= _ <-]. apply IH in E; lia.
Qed.

Lemma parse_chars_length (s b r : string) :
  parse_chars s = Some (b, r) -> String.length r < String.length s.
Proof. apply (parse_chars_length_bounded (String.length s)). lia. Qed.

Lemma span_digits_length (s ds r : string) :
  span_digits s = (ds, r) -> String.length r <= String.length s.
Proof.
  revert ds r. induction s as [|c s IH]; intros ds r; cbn [span_digits].
  - intros [= _ <-]. lia.
  - destruct (is_digit c).
    + destruct (span_digits s) as [ds' r'] eqn:E. intros [= _ <-].
      specialize (IH ds' r' eq_refl). cbn [String.length]. lia.
    + intros [= _ <-]. lia.
Qed.

Lemma parse_int_part_length (s ip r : string) :
  parse_int_part s = Some (ip, r) -> String.length r < String.length s.
Proof.
  unfold parse_int_part. destruct s as [|c rest]; [discriminate|].
  cbn [String.length].
  destruct (Ascii.eqb c "0"); [intros [= _ <-]; lia|].
  destruct (is_digit c); [|discriminate].
  destruct (span_digits rest) as [ds r'] eqn:E. intros [= _ <-].
  apply span_digits_length in E. lia.
Qed.

Lemma parse_frac_part_length (s fp r : string) :
  parse_frac_part s = Some (fp, r) -> String.length r <= String.length s.
Proof.
  unfold parse_frac_part. destruct s as [|c rest]; [intros [= _ <-]; lia|].
  destruct (Ascii.eqb c ".").
  - destruct (span_digits rest) as [ds r'] eqn:E.
    destruct (nonempty ds); [|discriminate]. intros [= _ <-].
    apply span_digits_length in E. cbn [String.length]. lia.
  - intros [= _ <-]. lia.
Qed.

Lemma parse_exp_digits_length (pre s ep r : string) :
  parse_exp_digits pre s = Some (ep, r) -> String.length r <= String.length s.
Proof.
  unfold parse_exp_digits. destruct (span_digits s) as [ds r'] eqn:E.
  destruct (nonempty ds); [|discriminate]. intros [= _ <-].
  now apply span_digits_length in E.
Qed.

Lemma parse_exp_part_length (s ep r : string) :
  parse_exp_part s = Some (ep, r) -> String.length r <= String.length s.
Proof.
  unfold parse_exp_part. destruct s as [|e rest]; [intros [= _ <-]; lia|].
  destruct (Ascii.eqb e "e" || Ascii.eqb e "E"); [|intros [= _ <-]; lia].
  destruct rest as [|sg rest1]; [discriminate|].
  destruct (Ascii.eqb sg "+" || Ascii.eqb sg "-"); intros H;
    apply parse_exp_digits_length in H; cbn [String.length] in *; lia.
Qed.

Lemma parse_number_length (s lexeme r : string) :
  parse_number s = Some (lexeme, r) -> String.length r < String.length s.
Proof.
  unfold parse_number.
  assert (Hs : forall sign s1,
            match s with
            | String c rest =>
                if Ascii.eqb c "-" then (String c EmptyString, rest)
                else (EmptyString, s)
            | EmptyString => (EmptyString, s)
            end = (sign, s1) -> String.length s1 <= String.length s).
  { intros sign s1. destruct s as [|c rest]; [intros [= _ <-]; lia|].
    destruct (Ascii.eqb c "-"); intros [= _ <-]; cbn [String.length]; lia. }
  destruct (match s with EmptyString => _ | String _ _ => _ end) as [sign s1].
  specialize (Hs sign s1 eq_refl).
  destruct (parse_int_part s1) as [[ip s2]|] eqn:E1; [|discriminate].
  destruct (parse_frac_part s2) as [[fp s3]|] eqn:E2; [|discriminate].
  destruct (parse_exp_part s3) as [[ep s4]|] eqn:E3; [|discriminate].
  intros [= _ <-].
  apply parse_int_part_length in E1. apply parse_frac_part_length in E2.
  apply parse_exp_part_length in E3. lia.
Qed.

Lemma strip_prefix_length (p s r : string) :
  strip_prefix p s = Some r -> String.length r <= String.length s.
Proof.
  revert s. induction p as [|a p IH]; intros s; cbn [strip_prefix].
  - intros [= <-]. lia.
  - destruct s as [|b s']; [discriminate|].
    destruct (Ascii.eqb a b); [|discriminate].
    intros H. apply IH in H. cbn [String.length]. lia.
Qed.

Lemma parse_value_S (fuel : nat) (s : string) :
  parse_value (S fuel) s
  = match skip_ws s with
    | EmptyString => SyntaxError
    | String c rest =>
        if Ascii.eqb c "{" then
          match closes "}" rest with
          | Some rest' => Parsed (Object [], rest')
          | None =>
              bind (parse_members fuel rest)
                (fun '(ms, rest') => Parsed (Object ms, rest'))
          end
        else if Ascii.eqb c "[" then
          match closes "]" rest with
          | Some rest' => Parsed (Array [], rest')
          | None =>
              bind (parse_elements fuel rest)
                (fun '(vs, rest') => Parsed (Array vs, rest'))
          end
        else if Ascii.eqb c dquote then
          bind (of_option (parse_chars rest))
            (fun '(body, rest') => Parsed (Str body, rest'))
        else if Ascii.eqb c "t" then
          bind (of_option (strip_prefix "rue" rest))
            (fun rest' => Parsed (Bool true, rest'))
        else if Ascii.eqb c "f" then
          bind (of_option (strip_prefix "alse" rest))
            (fun rest' => Parsed (Bool false, rest'))
        else if Ascii.eqb c "n" then
          bind (of_option (strip_prefix "ull" rest))
            (fun rest' => Parsed (Null, rest'))
        else
          bind (of_option (parse_number (String c rest)))
            (fun '(lexeme, rest') => Parsed (Number lexeme, rest'))
    end.
Proof. reflexivity. Qed.

Lemma parse_elements_S (fuel : nat) (s : string) :
  parse_elements (S fuel) s
  = bind (parse_value fuel s) (fun '(v, rest) =>
      match closes "]" rest with
      | Some rest' => Parsed ([v], rest')
      | None =>
          match closes "," rest with
          | Some rest' =>
              bind (parse_elements fuel rest')
                (fun '(vs, rest'') => Parsed (v :: vs, rest''))
          | None => SyntaxError
          end
      end).
Proof. reflexivity. Qed.

Lemma parse_members_S (fuel : nat) (s : string) :
  parse_members (S fuel) s
  = match closes dquote s with
    | None => SyntaxError
    | Some rest =>
        bind (of_option (parse_chars rest)) (fun '(key, rest1) =>
          match closes ":" rest1 with
          | None => SyntaxError
          | Some rest2 => bind (parse_value fuel rest2) (after_member fuel key)
          end)
    end.
Proof. reflexivity. Qed.

(** A value, and a non-empty run of elements or members, use up input. *)
Lemma parse_consumes (fuel : nat) :
  (forall s v r,
     parse_value fuel s = Parsed (v, r) -> String.length r < String.length s)
  /\ (forall s vs r,
        parse_elements fuel s = Parsed (vs, r) ->
        String.length r < String.length s)
  /\ (forall s ms r,
        parse_members fuel s = Parsed (ms, r) ->
        String.length r < String.length s).
Proof.
  induction fuel as [|fuel (IHv & IHe & IHm)];
    [repeat split; intros; discriminate|].
  split; [|split].
  - intros s v r. rewrite parse_value_S.
    destruct (skip_ws s) as [|c rest] eqn:Hs; [discriminate|].
    apply skip_ws_cons in Hs.
    destruct (Ascii.eqb c "{").
    { destruct (closes "}" rest) as [rest'|] eqn:Hc.
      - intros [= _ <-]. apply closes_length in Hc. lia.
      - destruct (parse_members fuel rest) as [[ms r']| |] eqn:E;
          cbn [bind]; try discriminate.
        intros [= _ <-]. apply IHm in E. lia. }
    destruct (Ascii.eqb c "[").
    { destruct (closes "]" rest) as [rest'|] eqn:Hc.
      - intros [= _ <-]. apply closes_length in Hc. lia.
      - destruct (parse_elements fuel rest) as [[vs r']| |] eqn:E;
          cbn [bind]; try discriminate.
        intros [= _ <-]. apply IHe in E. lia. }
    destruct (Ascii.eqb c dquote).
    { destruct (parse_chars rest) as [[b r']|] eqn:E;
        cbn [bind of_option]; [|discriminate].
      intros [= _ <-]. apply parse_chars_length in E. lia. }
    destruct (Ascii.eqb c "t").
    { destruct (strip_prefix "rue" rest) as [r'|] eqn:E;
        cbn [bind of_option]; [|discriminate].
      intros [= _ <-]. apply strip_prefix_length in E. lia. }
    destruct (Ascii.eqb c "f").
    { destruct (strip_prefix "alse" rest) as [r'|] eqn:E;
        cbn [bind of_option]; [|discriminate].
      intros [= _ <-]. apply strip_prefix_length in E. lia. }
    destruct (Ascii.eqb c "n").
    { destruct (strip_prefix "ull" rest) as [r'|] eqn:E;
        cbn [bind of_option]; [|discriminate].
      intros [= _ <-]. apply strip_prefix_length in E. lia. }
    destruct (parse_number (String c rest)) as [[lx r']|] eqn:E;
      cbn [bind of_option]; [|discriminate].
    intros [= _ <-]. apply parse_number_length in E.
    cbn [String.length] in E. lia.
  - intros s vs r. rewrite parse_elements_S.
    destruct (parse_value fuel s) as [[v rest]| |] eqn:E;
      cbn [bind]; try discriminate.
    apply IHv in E.
    destruct (closes "]" rest) as [rest'|] eqn:Hc.
    { intros [= _ <-]. apply closes_length in Hc. lia. }
    destruct (closes "," rest) as [rest'|] eqn:Hc'; [|discriminate].
    destruct (parse_elements fuel rest') as [[vs' r']| |] eqn:E';
      cbn [bind]; try discriminate.
    intros [= _ <-]. apply closes_length in Hc'. apply IHe in E'. lia.
  - intros s ms r. rewrite parse_members_S.
    destruct (closes dquote s) as [rest|] eqn:Hq; [|discriminate].
    apply closes_length in Hq.
    destruct (parse_chars rest) as [[key rest1]|] eqn:Ek;
      cbn [bind of_option]; [|discriminate].
    apply parse_chars_length in Ek.
    destruct (closes ":" rest1) as [rest2|] eqn:Hc; [|discriminate].
    apply closes_length in Hc.
    destruct (parse_value fuel rest2) as [[v rest3]| |] eqn:E;
      cbn [bind]; try discriminate.
    apply IHv in E. unfold after_member.
    destruct (closes "}" rest3) as [rest'|] eqn:Hc1.
    { intros [= _ <-]. apply closes_length in Hc1. lia. }
    destruct (closes "," rest3) as [rest'|] eqn:Hc2; [|discriminate].
    destruct (parse_members fuel rest') as [[ms' r']| |] eqn:E';
      cbn [bind]; try discriminate.
    intros [= _ <-]. apply closes_length in Hc2. apply IHm in E'. lia.
Qed.

(** With twice the length of the input (and one or two more) as fuel, the
    parser never stops for want of fuel. *)
Lemma parse_fuel_enough (fuel : nat) :
  (forall s, 2 * String.length s + 1 <= fuel -> parse_value fuel s <> OutOfFuel)
  /\ (forall s, 2 * String.length s + 2 <= fuel ->
               parse_elements fuel s <> OutOfFuel)
  /\ (forall s, 2 * String.length s + 2 <= fuel ->
               parse_members fuel s <> OutOfFuel).
Proof.
  induction fuel as [|fuel (IHv & IHe & IHm)];
    [repeat split; intros; lia|].
  destruct (parse_consumes fuel) as (Cv & Ce & Cm).
  split; [|split].
  - intros s Hf. rewrite parse_value_S.
    destruct (skip_ws s) as [|c rest] eqn:Hs; [discriminate|].
    apply skip_ws_cons in Hs.
    destruct (Ascii.eqb c "{").
    { destruct (closes "}" rest); [discriminate|].
      assert (H : parse_members fuel rest <> OutOfFuel) by (apply IHm; lia).
      destruct (parse_members fuel rest) as [[ms r']| |];
        cbn [bind]; congruence. }
    destruct (Ascii.eqb c "[").
    { destruct (closes "]" rest); [discriminate|].
      assert (H : parse_elements fuel rest <> OutOfFuel) by (apply IHe; lia).
      destruct (parse_elements fuel rest) as [[vs r']| |];
        cbn [bind]; congruence. }
    destruct (Ascii.eqb c dquote).
    { destruct (parse_chars rest) as [[b r']|]; discriminate. }
    destruct (Ascii.eqb c "t").
    { destruct (strip_prefix "rue" rest); discriminate. }
    destruct (Ascii.eqb c "f").
    { destruct (strip_prefix "alse" rest); discriminate. }
    destruct (Ascii.eqb c "n").
    { destruct (strip_prefix "ull" rest); discriminate. }
    destruct (parse_number (String c rest)) as [[lx r']|]; discriminate.
  - intros s Hf. rewrite parse_elements_S.
    assert (H : parse_value fuel s <> OutOfFuel) by (apply IHv; lia).
    destruct (parse_value fuel s) as [[v rest]| |] eqn:E;
      cbn [bind]; try congruence.
    apply Cv in E.
    destruct (closes "]" rest); [discriminate|].
    destruct (closes "," rest) as [rest'|] eqn:Hc; [|discriminate].
    apply closes_length in Hc.
    assert (H' : parse_elements fuel rest' <> OutOfFuel) by (apply IHe; lia).
    destruct (parse_elements fuel rest') as [[vs r']| |];
      cbn [bind]; congruence.
  - intros s Hf. rewrite parse_members_S.
    destruct (closes dquote s) as [rest|] eqn:Hq; [|discriminate].
    apply closes_length in Hq.
    destruct (parse_chars rest) as [[key rest1]|] eqn:Ek;
      cbn [bind of_option]; [|discriminate].
    apply parse_chars_length in Ek.
    destruct (closes ":" rest1) as [rest2|] eqn:Hc; [|discriminate].
    apply closes_length in Hc.
    assert (H : parse_value fuel rest2 <> OutOfFuel) by (apply IHv; lia).
    destruct (parse_value fuel rest2) as [[v rest3]| |] eqn:E;
      cbn [bind]; try congruence.
    apply Cv in E. unfold after_member.
    destruct (closes "}" rest3); [discriminate|].
    destruct (closes "," rest3) as [rest'|] eqn:Hc2; [|discriminate].
    apply closes_length in Hc2.
    assert (H' : parse_members fuel rest' <> OutOfFuel) by (apply IHm; lia).
    destruct (parse_members fuel rest') as [[ms r']| |];
      cbn [bind]; congruence.
Qed.

(** More fuel does not change an answer. *)
Lemma parse_fuel_stable (fuel : nat) :
  (forall s, parse_value fuel s <> OutOfFuel ->
             parse_value (S fuel) s = parse_value fuel s)
  /\ (forall s, parse_elements fuel s <> OutOfFuel ->
               parse_elements (S fuel) s = parse_elements fuel s)
  /\ (forall s, parse_members fuel s <> OutOfFuel ->
               parse_members (S fuel) s = parse_members fuel s).
Proof.
  induction fuel as [|fuel (IHv & IHe & IHm)];
    [repeat split; intros s H; now contradiction H|].
  split; [|split].
  - intros s. rewrite (parse_value_S (S fuel)), (parse_value_S fuel).
    destruct (skip_ws s) as [|c rest]; [reflexivity|].
    destruct (Ascii.eqb c "{").
    { destruct (closes "}" rest); [reflexivity|]. intros H.
      rewrite IHm; [reflexivity|]. intros E. rewrite E in H. now apply H. }
    destruct (Ascii.eqb c "[").
    { destruct (closes "]" rest); [reflexivity|]. intros H.
      rewrite IHe; [reflexivity|]. intros E. rewrite E in H. now apply H. }
    reflexivity.
  - intros s. rewrite (parse_elements_S (S fuel)), (parse_elements_S fuel).
    intros H.
    assert (Hv : parse_value fuel s <> OutOfFuel)
      by (intros E; rewrite E in H; now apply H).
    rewrite (IHv s Hv).
    destruct (parse_value fuel s) as [[v rest]| |]; cbn [bind] in *;
      try reflexivity.
    destruct (closes "]" rest); [reflexivity|].
    destruct (closes "," rest) as [rest'|]; [|reflexivity].
    rewrite IHe; [reflexivity|]. intros E. rewrite E in H. now apply H.
  - intros s. rewrite (parse_members_S (S fuel)), (parse_members_S fuel).
    destruct (closes dquote s) as [rest|]; [|reflexivity].
    destruct (parse_chars rest) as [[key rest1]|]; cbn [bind of_option];
      [|reflexivity].
    destruct (closes ":" rest1) as [rest2|]; [|reflexivity].
    intros H.
    assert (Hv : parse_value fuel rest2 <> OutOfFuel)
      by (intros E; rewrite E in H; now apply H).
    rewrite (IHv rest2 Hv).
    destruct (parse_value fuel rest2) as [[v rest3]| |]; cbn [bind] in *;
      try reflexivity.
    unfold after_member in *.
    destruct (closes "}" rest3); [reflexivity|].
    destruct (closes "," rest3) as [rest'|]; [|reflexivity].
    rewrite IHm; [reflexivity|]. intros E. rewrite E in H. now apply H.
Qed.

(** [JSON.parse] is the parser at any sufficient fuel: it is [None] only on
    a syntax error. *)
Lemma parse_text_decided (s : string) :
  parse_text (fuel_for s) s <> OutOfFuel
  /\ forall extra, parse_text (extra + fuel_for s) s = parse_text (fuel_for s) s.
Proof.
  assert (Hv : parse_value (fuel_for s) s <> OutOfFuel).
  { apply (proj1 (parse_fuel_enough (fuel_for s))). unfold fuel_for. lia. }
  split.
  - unfold parse_text.
    destruct (parse_value (fuel_for s) s) as [[v rest]| |]; cbn [bind];
      try congruence.
    destruct (skip_ws rest); discriminate.
  - intros extra. unfold parse_text. f_equal.
    induction extra as [|extra IH]; [reflexivity|].
    cbn [Nat.add]. rewrite <- IH.
    apply (proj1 (parse_fuel_stable (extra + fuel_for s))). now rewrite IH.
Qed.

End JSONFacts.

(** ** Numbers that are exact *)

Module NumberFacts.

Import JSNumber.
Local Open Scope Z_scope.

Lemma round_half_even_bounds (n d : Z) :
  0 <= n -> 0 < d ->
  n / d <= round_half_even n d <= n / d + 1
  /\ 2 * (n - d * round_half_even n d) <= d
  /\ 2 * (d * round_half_even n d - n) <= d.
Proof.
  intros Hn Hd. unfold round_half_even.
  pose proof (Z.div_mod n d ltac:(lia)) as E.
  pose proof (Z.mod_pos_bound n d Hd) as Hr.
  set (q := n / d) in *. set (r := n mod d) in *.
  destruct (d <? 2 * r) eqn:E1; cbn [orb].
  - apply Z.ltb_lt in E1. repeat split; nia.
  - apply Z.ltb_ge in E1.
    destruct (2 * r =? d) eqn:E2; cbn [andb].
    + apply Z.eqb_eq in E2. destruct (Z.odd q); repeat split; nia.
    + repeat split; nia.
Qed.

Lemma round_half_even_exact (n d : Z) :
  0 < d -> n mod d = 0 -> round_half_even n d = n / d.
Proof.
  intros Hd Hr. unfold round_half_even. rewrite Hr.
  assert (E1 : (d <? 2 * 0) = false) by (apply Z.ltb_ge; lia).
  assert (E2 : (2 * 0 =? d) = false) by (apply Z.eqb_neq; lia).
  now rewrite E1, E2.
Qed.

(** An integer of magnitude at most 2^53 is a Number. *)
Lemma nearest_exact (z : Z) : Z.abs z <= 2 ^ 53 -> nearest z = z.
Proof.
  intros H. unfold nearest.
  destruct (Z.eq_dec (Z.abs z) (2 ^ 53)) as [E|E].
  - destruct (Z.abs_eq_or_opp z) as [E'|E']; rewrite E' in E.
    + subst z. reflexivity.
    + assert (z = - 2 ^ 53) by lia. subst z. reflexivity.
  - assert (Hlog : Z.log2 (Z.abs z) <= 52).
    { destruct (Z.eq_dec (Z.abs z) 0) as [E0|E0]; [now rewrite E0|].
      assert (Z.log2 (Z.abs z) < 53); [|lia].
      apply Z.log2_lt_pow2; lia. }
    apply Z.leb_le in Hlog. now rewrite Hlog.
Qed.

Lemma of_Z_exact (z : Z) : Z.abs z <= 2 ^ 53 -> of_Z z = Finite z.
Proof.
  intros H. unfold of_Z. rewrite (nearest_exact z H). unfold huge.
  assert (2 ^ 53 < 2 ^ 1024) by (apply Z.pow_lt_mono_r; lia).
  assert (E1 : (2 ^ 1024 <=? z) = false) by (apply Z.leb_gt; lia).
  assert (E2 : (z <=? - 2 ^ 1024) = false) by (apply Z.leb_gt; lia).
  now rewrite E1, E2.
Qed.

Lemma sub_exact (x y : Z) :
  Z.abs (x - y) <= 2 ^ 53 -> sub (Finite x) (Finite y) = Finite (x - y).
Proof.
  intros H. unfold sub, neg, add. rewrite Z.add_opp_r. now apply of_Z_exact.
Qed.

Lemma add_exact (x y : Z) :
  Z.abs (x + y) <= 2 ^ 53 -> add (Finite x) (Finite y) = Finite (x + y).
Proof. intros H. unfold add. now apply of_Z_exact. Qed.

Lemma mul_exact (x y : Z) :
  Z.abs (x * y) <= 2 ^ 53 -> mul (Finite x) (Finite y) = Finite (x * y).
Proof. intros H. unfold mul. now apply of_Z_exact. Qed.

(** Rounding keeps the sign. *)
Lemma nearest_positive (z : Z) : 0 < nearest z -> 0 < z.
Proof.
  unfold nearest. destruct (Z.log2 (Z.abs z) <=? 52); [trivial|].
  set (unit := 2 ^ (Z.log2 (Z.abs z) - 52)).
  intros H.
  assert (Hu : 0 <= unit) by (subst unit; apply Z.pow_nonneg; lia).
  destruct (Z.eq_dec unit 0) as [E|E]; [rewrite E in H; lia|].
  pose proof (round_half_even_bounds (Z.abs z) unit ltac:(lia) ltac:(lia))
    as ([Hq _] & _).
  pose proof (Z.div_pos (Z.abs z) unit ltac:(lia) ltac:(lia)).
  destruct (Z.lt_trichotomy z 0) as [Hz|[Hz|Hz]]; [| |assumption].
  - rewrite (Z.sgn_neg z Hz) in H. nia.
  - subst z. cbn [Z.sgn] in H. lia.
Qed.

Lemma sub_positive (x y : Z) :
  ltb (Finite 0) (sub (Finite x) (Finite y)) = true -> y < x.
Proof.
  unfold sub, neg, add, of_Z. rewrite Z.add_opp_r.
  destruct (huge <=? nearest (x - y)) eqn:E1.
  - intros _. apply Z.leb_le in E1.
    assert (0 < huge) by (unfold huge; apply Z.pow_pos_nonneg; lia).
    pose proof (nearest_positive (x - y)). lia.
  - destruct (nearest (x - y) <=? - huge); [discriminate|].
    cbn [ltb]. intros H. apply Z.ltb_lt in H.
    pose proof (nearest_positive (x - y)). lia.
Qed.

(** [Math.ceil(a / b)] is the least integer not below [a / b], while [a]
    is at most 2^53. *)
Lemma ceil_quot_bounds (a b : Z) :
  0 <= a <= 2 ^ 53 -> 1 <= b ->
  (ceil_quot a b - 1) * b < a <= ceil_quot a b * b.
Proof.
  intros Ha Hb. unfold ceil_quot.
  destruct (a =? 0) eqn:E0; [apply Z.eqb_eq in E0; lia|].
  apply Z.eqb_neq in E0.
  destruct (a <? b) eqn:E1; [apply Z.ltb_lt in E1; lia|].
  apply Z.ltb_ge in E1.
  pose proof (Z.div_mod a b ltac:(lia)) as Ediv.
  pose proof (Z.mod_pos_bound a b ltac:(lia)) as Hrem.
  set (f := a / b) in *. set (rem := a mod b) in *.
  assert (Hf : 1 <= f) by nia.
  destruct (Z.log2_spec f ltac:(lia)) as [Hlo Hhi].
  pose proof (Z.log2_nonneg f) as He.
  set (e := Z.log2 f) in *.
  destruct (e <=? 52) eqn:E2.
  - apply Z.leb_le in E2.
    set (S := 2 ^ (52 - e)).
    assert (HS : 1 <= S).
    { subst S. change 1 with (2 ^ 0). apply Z.pow_le_mono_r; lia. }
    assert (H2S : 2 * S * 2 ^ e = 2 ^ 53).
    { subst S. rewrite <- Z.mul_assoc, <- Z.pow_add_r by lia.
      replace (52 - e + e) with 52 by lia. reflexivity. }
    assert (Hpe : 0 < 2 ^ e) by (apply Z.pow_pos_nonneg; lia).
    pose proof (round_half_even_bounds (a * S) b ltac:(nia) ltac:(lia))
      as ([Hq1 Hq2] & Hr1 & Hr2).
    set (m := round_half_even (a * S) b) in *.
    pose proof (Z.div_mod (- m) S ltac:(lia)) as Em.
    pose proof (Z.mod_pos_bound (- m) S ltac:(lia)) as Hm.
    set (t := (- m) / S) in *.
    destruct (Z.eq_dec rem 0) as [Er|Er].
    + (* the quotient is an integer *)
      assert (Em' : m = f * S).
      { subst m. rewrite round_half_even_exact; [|lia|].
        - replace (a * S) with (f * S * b) by nia. now apply Z.div_mul; lia.
        - replace (a * S) with (f * S * b) by nia. apply Z.mod_mul. lia. }
      assert (t = - f) by nia. nia.
    + (* it is not: the double is above the integer part *)
      assert (Hb2 : b < 2 * S) by nia.
      assert (Hm1 : f * S < m).
      { assert (Hq : f * S <= (a * S) / b).
        { apply Z.div_le_lower_bound; nia. }
        destruct (Z.eq_dec ((a * S) / b) (f * S)) as [Eq|Eq]; [|lia].
        (* the scaled quotient has the integer part [f * S]: it rounds up *)
        pose proof (Z.div_mod (a * S) b ltac:(lia)) as Eas.
        nia. }
      assert (Hm2 : m <= (f + 1) * S).
      { assert ((a * S) / b < (f + 1) * S); [|lia].
        apply Z.div_lt_upper_bound; nia. }
      assert (t = - (f + 1)) by nia. nia.
  - apply Z.leb_gt in E2.
    assert (H53 : 2 ^ 53 <= 2 ^ e) by (apply Z.pow_le_mono_r; lia).
    assert (Ea : a = 2 ^ 53) by nia.
    assert (Eb : b = 1) by nia.
    assert (Ef : f = 2 ^ 53) by nia.
    assert (Ee : e = 53) by (unfold e; rewrite Ef; reflexivity).
    rewrite Ee. clear - Ea Eb.
    subst a b. vm_compute. split; [reflexivity | discriminate].
Qed.

End NumberFacts.

(** ** Lists of documents: finding, counting, replacing *)

Module StoreFacts.

Import Routes Engine.
Local Open Scope Z_scope.

(** A string that casts to an [ObjectId] passes [isMongoId()]. *)
Lemma cast_isMongoId (id : string) (x : ObjectId.t) :
  ObjectId.cast id = Some x -> ObjectId.isMongoId id = true.
Proof.
  unfold ObjectId.cast, ObjectId.isMongoId, ObjectId.isHexadecimal.
  destruct (Nat.eqb (String.length id) 24) eqn:El; [|discriminate].
  destruct (ObjectId.all_hex id) eqn:Eh; [|discriminate].
  intros _. rewrite andb_true_r.
  destruct id as [|c0 [|c1 rest]]; [discriminate | exact Eh |].
  destruct (Ascii.eqb c0 "0" && ObjectId.is_prefix_letter c1) eqn:Ep;
    [|exact Eh].
  exfalso. apply andb_true_iff in Ep as [_ Ep].
  cbn [ObjectId.all_hex] in Eh.
  apply andb_true_iff in Eh as [_ Eh]. apply andb_true_iff in Eh as [Eh _].
  unfold ObjectId.is_prefix_letter in Ep.
  repeat (apply orb_true_iff in Ep as [Ep|Ep]);
    apply Ascii.eqb_eq in Ep; subst c1; discriminate.
Qed.

Lemma oid_eqb_eq (a b : ObjectId.t) : ObjectId.eqb a b = true <-> a = b.
Proof. apply String.eqb_eq. Qed.

Lemma oid_eqb_refl (a : ObjectId.t) : ObjectId.eqb a a = true.
Proof. apply String.eqb_refl. Qed.

Lemma oid_eqb_neq (a b : ObjectId.t) : ObjectId.eqb a b = false <-> a <> b.
Proof. apply String.eqb_neq. Qed.

Lemma status_eqb_eq (a b : Ticket.Status) : Ticket.status_eqb a b = true <-> a = b.
Proof. destruct a, b; simpl; split; congruence. Qed.

Lemma event_status_eqb_eq (a b : Event.Status) :
  Event.status_eqb a b = true <-> a = b.
Proof. destruct a, b; simpl; split; congruence. Qed.

Section Counting.
Context {A : Type}.
Implicit Types (f g : A -> bool) (l : list A).

Lemma count_nonneg f l : 0 <= Store.countDocuments f l.
Proof. unfold Store.countDocuments. lia. Qed.

Lemma count_snoc f l x :
  Store.countDocuments f (l ++ [x])
  = Store.countDocuments f l + (if f x then 1 else 0).
Proof.
  unfold Store.countDocuments. rewrite filter_app, length_app. cbn [filter].
  destruct (f x); cbn [List.length]; lia.
Qed.

Lemma count_cons f l x :
  Store.countDocuments f (x :: l)
  = (if f x then 1 else 0) + Store.countDocuments f l.
Proof.
  unfold Store.countDocuments. cbn [filter].
  destruct (f x); cbn [List.length]; lia.
Qed.

Lemma count_nil f : Store.countDocuments f [] = 0.
Proof. reflexivity. Qed.

(** Nothing is counted exactly when nothing is found. *)
Lemma count_zero_find f l :
  Store.countDocuments f l = 0 <-> Store.findOne f l = None.
Proof.
  unfold Store.findOne.
  induction l as [|x l IH]; [easy|].
  rewrite count_cons. simpl. pose proof (count_nonneg f l).
  destruct (f x); [split; [lia | discriminate]|].
  rewrite <- IH. lia.
Qed.

Lemma count_map_same f (h : A -> A) l :
  (forall d, In d l -> f (h d) = f d) ->
  Store.countDocuments f (map h l) = Store.countDocuments f l.
Proof.
  induction l as [|x l IH]; intros H; [reflexivity|].
  simpl map. rewrite !count_cons, H, IH; [reflexivity | | now left].
  intros d Hd. apply H. now right.
Qed.

Lemma count_map_le f (h : A -> A) l :
  (forall d, In d l -> f (h d) = true -> f d = true) ->
  Store.countDocuments f (map h l) <= Store.countDocuments f l.
Proof.
  induction l as [|x l IH]; intros H; [reflexivity|].
  simpl map. rewrite !count_cons.
  assert (Hx := H x (or_introl eq_refl)).
  assert (IH' : Store.countDocuments f (map h l) <= Store.countDocuments f l).
  { apply IH. intros d Hd. apply H. now right. }
  destruct (f (h x)); destruct (f x); lia.
Qed.

Lemma count_mono f g l :
  (forall d, f d = true -> g d = true) ->
  Store.countDocuments f l <= Store.countDocuments g l.
Proof.
  intros H. induction l as [|x l IH]; [reflexivity|].
  rewrite !count_cons. specialize (H x).
  destruct (f x); destruct (g x); lia.
Qed.

Lemma count_delete_le f g l :
  Store.countDocuments f (Store.deleteMany g l) <= Store.countDocuments f l.
Proof.
  unfold Store.deleteMany.
  induction l as [|x l IH]; [reflexivity|].
  simpl filter. destruct (negb (g x)); rewrite ?count_cons;
    destruct (f x); lia.
Qed.

Lemma count_le_one_unique f l x y :
  Store.countDocuments f l <= 1 ->
  In x l -> In y l -> f x = true -> f y = true -> x = y.
Proof.
  induction l as [|z l IH]; [easy|].
  rewrite count_cons. intros Hc Hx Hy Hfx Hfy.
  pose proof (count_nonneg f l) as Hn.
  assert (Hin : forall w, In w l -> f w = true -> 1 <= Store.countDocuments f l).
  { clear. induction l as [|z l IH]; [easy|]. intros w [->|Hw] Hf;
      rewrite count_cons; pose proof (count_nonneg f l).
    - rewrite Hf. lia.
    - specialize (IH w Hw Hf). destruct (f z); lia. }
  destruct Hx as [->|Hx], Hy as [->|Hy]; trivial.
  - rewrite Hfx in Hc. specialize (Hin y Hy Hfy). lia.
  - rewrite Hfy in Hc. specialize (Hin x Hx Hfx). lia.
  - apply IH; trivial. destruct (f z); lia.
Qed.
End Counting.

Lemma find_deleteOne_incl {A} (f : A -> bool) (l : list A) (x : A) :
  In x (deleteOne f l) -> In x l.
Proof.
  induction l as [|y l IH]; simpl; [easy|].
  destruct (f y); simpl; intuition.
Qed.

Lemma deleteMany_incl {A} (f : A -> bool) (l : list A) (x : A) :
  In x (Store.deleteMany f l) -> In x l.
Proof. unfold Store.deleteMany. intros H. now apply filter_In in H. Qed.

(** *** Lists without repetition *)

Lemma existsb_eqb_In (x : string) (l : list string) :
  existsb (String.eqb x) l = true <-> In x l.
Proof.
  rewrite existsb_exists. split.
  - intros (y & Hy & E). apply String.eqb_eq in E. now subst.
  - intros H. exists x. split; [assumption | apply String.eqb_refl].
Qed.

Lemma distinct_NoDup (l : list string) : distinct l = true <-> NoDup l.
Proof.
  induction l as [|x l IH]; simpl.
  - split; [constructor | reflexivity].
  - rewrite andb_true_iff, negb_true_iff, IH. split.
    + intros [Hx Hl]. constructor; [|assumption].
      rewrite <- existsb_eqb_In. congruence.
    + intros H. inversion H as [|? ? Hx Hl]; subst. split; [|assumption].
      destruct (existsb (String.eqb x) l) eqn:E; [|reflexivity].
      apply existsb_eqb_In in E. contradiction.
Qed.

Section Keys.
Context {A : Type} (key : A -> string).

Lemma NoDup_key_inj (l : list A) (x y : A) :
  NoDup (map key l) -> In x l -> In y l -> key x = key y -> x = y.
Proof.
  induction l as [|z l IH]; [easy|]. simpl.
  intros Hnd Hx Hy E. inversion Hnd as [|? ? Hz Hl]; subst.
  destruct Hx as [->|Hx], Hy as [->|Hy]; trivial.
  - exfalso. apply Hz. rewrite E. now apply in_map.
  - exfalso. apply Hz. rewrite <- E. now apply in_map.
  - now apply IH.
Qed.

Lemma NoDup_key_filter (f : A -> bool) (l : list A) :
  NoDup (map key l) -> NoDup (map key (filter f l)).
Proof.
  induction l as [|z l IH]; [trivial|]. simpl.
  intros Hnd. inversion Hnd as [|? ? Hz Hl]; subst.
  destruct (f z); [|now apply IH]. simpl. constructor; [|now apply IH].
  intros Hin. apply Hz. apply in_map_iff in Hin as (w & Ew & Hw).
  apply filter_In in Hw as [Hw _]. rewrite <- Ew. now apply in_map.
Qed.

Lemma NoDup_key_deleteOne (f : A -> bool) (l : list A) :
  NoDup (map key l) -> NoDup (map key (deleteOne f l)).
Proof.
  induction l as [|z l IH]; [trivial|]. simpl.
  intros Hnd. inversion Hnd as [|? ? Hz Hl]; subst.
  destruct (f z); [assumption|]. simpl. constructor; [|now apply IH].
  intros Hin. apply Hz. apply in_map_iff in Hin as (w & Ew & Hw).
  apply find_deleteOne_incl in Hw. rewrite <- Ew. now apply in_map.
Qed.

Lemma NoDup_key_snoc (l : list A) (x : A) :
  NoDup (map key l) -> ~ In (key x) (map key l) ->
  NoDup (map key (l ++ [x])).
Proof.
  intros Hnd Hx. rewrite map_app. simpl.
  apply NoDup_app; [assumption | repeat constructor; easy |].
  intros a Ha [<-|[]]. contradiction.
Qed.

Lemma NoDup_key_map (h : A -> A) (l : list A) :
  (forall d, In d l -> key (h d) = key d) ->
  NoDup (map key l) -> NoDup (map key (map h l)).
Proof.
  intros H Hnd. rewrite map_map.
  rewrite (map_ext_in (fun d => key (h d)) key); assumption.
Qed.
End Keys.

End StoreFacts.

(** ** The outcomes of each handler *)

Module HandlerFacts.

Import Routes Engine StoreFacts.
Local Open Scope string_scope.
Local Open Scope Z_scope.

Ltac rejected := left; split; [reflexivity | simpl; discriminate].

(** A claim either leaves the store as it was, with a status other than
    201, or passed every guard and appended the new ticket. *)
Lemma claim_cases s user eventId ticketId oid clk :
  (snd (claim s user eventId ticketId oid clk) = s
   /\ code (fst (claim s user eventId ticketId oid clk)) <> 201)
  \/ exists eid event,
       ObjectId.cast eventId = Some eid
       /\ Store.Event_findById s eid = Some event
       /\ claimable event (at_check clk)
       /\ holds s eid (User._id user) = 0
       /\ active_count s eid < Event.capacity event
       /\ let tk := new_ticket user event eid ticketId
                      (qrData_of ticketId eventId (ObjectId.toString (User._id user))
                         (JSDate.toISOString (at_write clk))) oid clk in
          Store.duplicate_key tk (Store.tickets s) = false
          /\ Store.price_valid tk = true
          /\ claim s user eventId ticketId oid clk
             = (json 201 (Claimed tk),
                Store.with_tickets s (Store.tickets s ++ [tk])).
Proof.
  unfold claim.
  destruct (ObjectId.isMongoId eventId); [|rejected]. cbn [negb].
  destruct (ObjectId.cast eventId) as [eid|] eqn:Hc; [|rejected].
  destruct (Store.Event_findById s eid) as [event|] eqn:He; [|rejected].
  destruct (negb (Event.status_eqb (Event.status event) Event.published)
            || negb (Event.isApproved event)) eqn:Hs; [rejected|].
  destruct (Event.date event <? at_check clk) eqn:Hd; [rejected|].
  match goal with
  | |- context [Store.findOne ?f (Store.tickets s)] =>
      destruct (Store.findOne f (Store.tickets s)) eqn:Hf; [rejected|]
  end.
  match goal with
  | |- context [Event.capacity event <=? ?n] =>
      destruct (Event.capacity event <=? n) eqn:Hcap; [rejected|]
  end.
  unfold Store.insert_ticket.
  match goal with
  | |- context [Store.price_valid ?k] =>
      destruct (Store.price_valid k) eqn:Hp; [|rejected]
  end.
  cbn [negb].
  match goal with
  | |- context [Store.duplicate_key ?k ?l] =>
      destruct (Store.duplicate_key k l) eqn:Hk; [rejected|]
  end.
  right. exists eid, event.
  apply orb_false_iff in Hs as [Hs1 Hs2].
  apply negb_false_iff in Hs1, Hs2. apply event_status_eqb_eq in Hs1.
  apply Z.ltb_ge in Hd. apply Z.leb_gt in Hcap.
  apply count_zero_find in Hf.
  repeat split; assumption.
Qed.

(** The other direction: when every guard passes, the claim is granted. *)
Lemma claim_granted s user eventId ticketId oid clk eid event :
  ObjectId.cast eventId = Some eid ->
  Store.Event_findById s eid = Some event ->
  claimable event (at_check clk) ->
  holds s eid (User._id user) = 0 ->
  active_count s eid < Event.capacity event ->
  let tk := new_ticket user event eid ticketId
              (qrData_of ticketId eventId (ObjectId.toString (User._id user))
                 (JSDate.toISOString (at_write clk))) oid clk in
  Store.duplicate_key tk (Store.tickets s) = false ->
  Store.price_valid tk = true ->
  claim s user eventId ticketId oid clk
  = (json 201 (Claimed tk), Store.with_tickets s (Store.tickets s ++ [tk])).
Proof.
  intros Hc He (Hs & Ha & Hd) Hh Hcap tk Hk Hp.
  unfold claim.
  assert (Hv : ObjectId.isMongoId eventId = true)
    by exact (cast_isMongoId eventId eid Hc).
  rewrite Hv, Hc, He, Hs, Ha. cbn [negb orb Event.status_eqb].
  apply Z.ltb_ge in Hd. rewrite Hd.
  apply count_zero_find in Hh. unfold held, occupies in Hh. rewrite Hh.
  apply Z.leb_gt in Hcap. unfold active_count, is_active in Hcap. rewrite Hcap.
  unfold Store.insert_ticket. fold tk. rewrite Hp, Hk. reflexivity.
Qed.

Lemma organization_differs_false s k user :
  organization_differs (populate s k) user = Some false <->
  exists event,
    Store.Event_findById s (Ticket.event k) = Some event
    /\ Store.Organization_exists s (Event.organization event) = true
    /\ User.organization user = Some (Event.organization event).
Proof.
  unfold organization_differs, populate.
  destruct (Store.Event_findById s (Ticket.event k)) as [event|] eqn:He.
  - destruct (Store.Organization_exists s (Event.organization event)) eqn:Hx.
    + destruct (User.organization user) as [org|] eqn:Hu.
      * unfold ObjectId.toString.
        destruct (String.eqb (Event.organization event) org) eqn:E; simpl.
        -- apply String.eqb_eq in E. subst. split; [|reflexivity].
           intros _. exists event. auto.
        -- apply String.eqb_neq in E. split; [discriminate|].
           intros (e & He' & _ & Ho). congruence.
      * split; [discriminate|]. intros (e & _ & _ & Ho). discriminate.
    + split; [discriminate|]. intros (e & He' & Ho & _). congruence.
  - split; [discriminate|]. intros (e & He' & _). discriminate.
Qed.

(** A scan either rejects and leaves the store as it was, or met every
    precondition and stored the ticket as used. *)
Lemma qr_scan_cases s user qrData clk :
  (snd (qr_scan s user qrData clk) = s
   /\ code (fst (qr_scan s user qrData clk)) <> 200)
  \/ exists ticket event,
       JSON.parse qrData <> None
       /\ Store.findOne (fun k => String.eqb (Ticket.qrCode k) qrData)
            (Store.tickets s) = Some ticket
       /\ Store.Event_findById s (Ticket.event ticket) = Some event
       /\ Store.Organization_exists s (Event.organization event) = true
       /\ User.organization user = Some (Event.organization event)
       /\ Ticket.status ticket = Ticket.active
       /\ at_check clk <= Event.date event
       /\ qr_scan s user qrData clk
          = (json 200 (Scanned "Ticket scanned and marked as used successfully"
                         (mark_used ticket user clk)),
             Store.update_ticket s (mark_used ticket user clk)).
Proof.
  unfold qr_scan.
  destruct (JSON.parse qrData) as [v|] eqn:Hp; [|rejected].
  destruct (Store.findOne _ (Store.tickets s)) as [ticket|] eqn:Hf; [|rejected].
  cbv zeta.
  destruct (organization_differs (populate s ticket) user) as [[|]|] eqn:Ho;
    [rejected | | rejected].
  apply organization_differs_false in Ho as (event & He & Hx & Hu).
  destruct (negb (Ticket.status_eqb (Ticket.status ticket) Ticket.active)) eqn:Hs;
    [rejected|].
  unfold populate. rewrite He.
  destruct (Event.date event <? at_check clk) eqn:Hd; [rejected|].
  right. exists ticket, event.
  apply negb_false_iff, status_eqb_eq in Hs. apply Z.ltb_ge in Hd.
  repeat split; try assumption. discriminate.
Qed.

Lemma qr_scan_accepted s user qrData clk ticket event :
  JSON.parse qrData <> None ->
  Store.findOne (fun k => String.eqb (Ticket.qrCode k) qrData)
    (Store.tickets s) = Some ticket ->
  Store.Event_findById s (Ticket.event ticket) = Some event ->
  Store.Organization_exists s (Event.organization event) = true ->
  User.organization user = Some (Event.organization event) ->
  Ticket.status ticket = Ticket.active ->
  at_check clk <= Event.date event ->
  qr_scan s user qrData clk
  = (json 200 (Scanned "Ticket scanned and marked as used successfully"
                 (mark_used ticket user clk)),
     Store.update_ticket s (mark_used ticket user clk)).
Proof.
  intros Hp Hf He Hx Hu Hs Hd. unfold qr_scan.
  destruct (JSON.parse qrData); [|congruence].
  rewrite Hf. cbv zeta.
  assert (Ho : organization_differs (populate s ticket) user = Some false)
    by (apply organization_differs_false; eauto).
  rewrite Ho, Hs. cbn [Ticket.status_eqb negb].
  unfold populate. rewrite He. apply Z.ltb_ge in Hd. now rewrite Hd.
Qed.

(** The same for the route that redeems by the stored [_id]. *)
Lemma tickets_use_cases s user id clk :
  (snd (tickets_use s user id clk) = s
   /\ fst (tickets_use s user id clk)
      <> json 200 (Message "Ticket marked as used successfully"))
  \/ exists tid ticket event,
       ObjectId.cast id = Some tid
       /\ Store.Ticket_findById s tid = Some ticket
       /\ Store.Event_findById s (Ticket.event ticket) = Some event
       /\ User.organization user = Some (Event.organization event)
       /\ Ticket.status ticket = Ticket.active
       /\ tickets_use s user id clk
          = (json 200 (Message "Ticket marked as used successfully"),
             Store.update_ticket s (mark_used ticket user clk)).
Proof.
  unfold tickets_use.
  destruct (ObjectId.cast id) as [tid|] eqn:Hc; [|rejected].
  destruct (Store.Ticket_findById s tid) as [ticket|] eqn:Hf; [|rejected].
  destruct (Store.Event_findById s (Ticket.event ticket)) as [event|] eqn:He;
    [|rejected].
  destruct (User.organization user) as [org|] eqn:Hu; [|rejected].
  unfold ObjectId.toString.
  destruct (String.eqb (Event.organization event) org) eqn:E; cbn [negb];
    [|rejected].
  destruct (negb (Ticket.status_eqb (Ticket.status ticket) Ticket.active)) eqn:Hs;
    [rejected|].
  right. exists tid, ticket, event.
  apply String.eqb_eq in E. subst org.
  apply negb_false_iff, status_eqb_eq in Hs.
  repeat split; assumption.
Qed.

Lemma qr_validate_read_only s user qrData now :
  snd (qr_validate s user qrData now) = s.
Proof.
  unfold qr_validate.
  repeat match goal with
         | |- context [match ?x with _ => _ end] => destruct x
         | |- context [let '_ := ?x in _] => destruct x
         end; reflexivity.
Qed.

Lemma tickets_validate_read_only s user qrData now :
  snd (tickets_validate s user qrData now) = s.
Proof.
  unfold tickets_validate.
  repeat match goal with
         | |- context [match ?x with _ => _ end] => destruct x
         end; reflexivity.
Qed.

(** Every request has one of the effects listed in [effect]. *)
Lemma handle_effect s r : effect s (step s r).
Proof.
  unfold step. destruct r as [user eventId ticketId oid clk | user qrData now
    | user qrData now | user qrData clk | user id clk | id | id]; cbn [handle].
  - destruct (claim_cases s user eventId ticketId oid clk)
      as [[E _] | (eid & event & Hc & He & Hcl & Hh & Hcap & Hk & Hp & E)].
    + rewrite E. constructor.
    + rewrite E. cbn [snd].
      eapply effect_issue with (event := event); try eassumption; reflexivity.
  - rewrite qr_validate_read_only. constructor.
  - rewrite tickets_validate_read_only. constructor.
  - destruct (qr_scan_cases s user qrData clk)
      as [[E _] | (ticket & event & _ & Hf & _ & _ & _ & Hs & _ & E)].
    + rewrite E. constructor.
    + rewrite E. cbn [snd]. apply effect_redeem; [|assumption].
      apply find_some in Hf. tauto.
  - destruct (tickets_use_cases s user id clk)
      as [[E _] | (tid & ticket & event & _ & Hf & _ & _ & Hs & E)].
    + rewrite E. constructor.
    + rewrite E. cbn [snd]. apply effect_redeem; [|assumption].
      apply find_some in Hf. tauto.
  - unfold admin_delete_event.
    destruct (ObjectId.cast id) as [eid|]; [|constructor].
    destruct (Store.Event_findById s eid); [|constructor].
    cbn [snd]. apply effect_delete_event.
  - unfold admin_delete_user.
    destruct (ObjectId.cast id) as [uid|]; [|constructor].
    destruct (Store.User_findById s uid); [|constructor].
    cbn [snd]. apply effect_delete_user.
Qed.

End HandlerFacts.

(** ** Invariants of the store under the requests *)

Module Invariants.

Import Routes Engine StoreFacts HandlerFacts.
Local Open Scope Z_scope.

Lemma well_formed_spec (s : Store.t) :
  well_formed s = true <->
  NoDup (map Ticket._id (Store.tickets s))
  /\ NoDup (map Ticket.ticketId (Store.tickets s))
  /\ NoDup (map Ticket.qrCode (Store.tickets s))
  /\ NoDup (map Event._id (Store.events s)).
Proof.
  unfold well_formed. rewrite !andb_true_iff, !distinct_NoDup. tauto.
Qed.

Lemma duplicate_key_false (tk : Ticket.t) (l : list Ticket.t) :
  Store.duplicate_key tk l = false ->
  ~ In (Ticket._id tk) (map Ticket._id l)
  /\ ~ In (Ticket.ticketId tk) (map Ticket.ticketId l)
  /\ ~ In (Ticket.qrCode tk) (map Ticket.qrCode l).
Proof.
  unfold Store.duplicate_key. intros H.
  assert (Hall : forall d, In d l ->
            Ticket._id d <> Ticket._id tk
            /\ Ticket.ticketId d <> Ticket.ticketId tk
            /\ Ticket.qrCode d <> Ticket.qrCode tk).
  { intros d Hd.
    destruct (ObjectId.eqb (Ticket._id d) (Ticket._id tk)) eqn:E1;
    destruct (String.eqb (Ticket.ticketId d) (Ticket.ticketId tk)) eqn:E2;
    destruct (String.eqb (Ticket.qrCode d) (Ticket.qrCode tk)) eqn:E3;
    try (exfalso; apply not_true_iff_false in H; apply H;
         apply existsb_exists; exists d; rewrite E1, E2, E3; now split).
    apply oid_eqb_neq in E1. apply String.eqb_neq in E2, E3. tauto. }
  repeat split; intros Hin; apply in_map_iff in Hin as (d & E & Hd);
    destruct (Hall d Hd) as (? & ? & ?); congruence.
Qed.

Lemma replaced_mark_used (l : list Ticket.t) (k d : Ticket.t) user clk :
  NoDup (map Ticket._id l) -> In k l -> In d l ->
  replaced (mark_used k user clk) d = d
  \/ (d = k /\ replaced (mark_used k user clk) d = mark_used k user clk).
Proof.
  intros Hnd Hk Hd. unfold replaced. cbn [mark_used Ticket._id].
  destruct (ObjectId.eqb (Ticket._id d) (Ticket._id k)) eqn:E; [|now left].
  right. split; [|reflexivity].
  apply oid_eqb_eq in E. now apply (NoDup_key_inj Ticket._id l).
Qed.

Lemma well_formed_effect s s' :
  effect s s' -> well_formed s = true -> well_formed s' = true.
Proof.
  intros He Hwf. rewrite well_formed_spec in *.
  destruct Hwf as (H1 & H2 & H3 & H4).
  destruct He as [| tk event _ _ _ _ Hk | k user clk Hin _ | eid | uid];
    cbn [Store.tickets Store.events Store.with_tickets Store.update_ticket].
  - tauto.
  - apply duplicate_key_false in Hk as (K1 & K2 & K3).
    repeat split; trivial; now apply NoDup_key_snoc.
  - repeat split; trivial; apply NoDup_key_map; trivial; intros d Hd;
      fold (replaced (mark_used k user clk) d);
      destruct (@replaced_mark_used (Store.tickets s) k d user clk H1 Hin Hd)
        as [->|[-> ->]];
      reflexivity.
  - repeat split; try (now apply NoDup_key_filter).
    now apply NoDup_key_deleteOne.
  - repeat split; now apply NoDup_key_filter.
Qed.

Lemma held_mark_used eid uid k user clk :
  Ticket.status k = Ticket.active ->
  held eid uid (mark_used k user clk) = held eid uid k.
Proof. intros Hs. unfold held, occupies. cbn. now rewrite Hs. Qed.

Lemma one_per_holder_effect s s' :
  effect s s' -> well_formed s = true -> one_per_holder s -> one_per_holder s'.
Proof.
  intros He Hwf Hinv eid uid. specialize (Hinv eid uid).
  apply well_formed_spec in Hwf as (H1 & _).
  unfold holds in *.
  destruct He as [| tk event _ _ Hh _ _ | k user clk Hin Hs | eid' | uid'];
    cbn [Store.tickets Store.with_tickets Store.update_ticket].
  - assumption.
  - rewrite count_snoc. destruct (held eid uid tk) eqn:E; [|lia].
    unfold held in E. apply andb_true_iff in E as [E _].
    apply andb_true_iff in E as [E1 E2].
    apply oid_eqb_eq in E1, E2. subst. unfold holds in Hh. lia.
  - rewrite count_map_same; [assumption|]. intros d Hd.
    fold (replaced (mark_used k user clk) d).
    destruct (@replaced_mark_used (Store.tickets s) k d user clk H1 Hin Hd)
      as [->|[-> ->]];
      [reflexivity | now apply held_mark_used].
  - etransitivity; [apply count_delete_le | assumption].
  - etransitivity; [apply count_delete_le | assumption].
Qed.

Lemma find_by_id_unique (l : list Event.t) (e : Event.t) :
  NoDup (map Event._id l) -> In e l ->
  Store.findOne (fun e' => ObjectId.eqb (Event._id e') (Event._id e)) l = Some e.
Proof.
  intros Hnd Hin. unfold Store.findOne.
  destruct (find _ l) as [e'|] eqn:Hf.
  - apply find_some in Hf as [Hin' E]. apply oid_eqb_eq in E.
    f_equal. now apply (NoDup_key_inj Event._id l).
  - apply find_none with (x := e) in Hf; [|assumption].
    now rewrite oid_eqb_refl in Hf.
Qed.

Lemma find_event_after_delete s (events' : list Event.t) eid e :
  NoDup (map Event._id (Store.events s)) ->
  (forall x, In x events' -> In x (Store.events s)) ->
  Store.findOne (fun e' => ObjectId.eqb (Event._id e') eid) events' = Some e ->
  Store.Event_findById s eid = Some e.
Proof.
  intros Hnd Hincl Hf. apply find_some in Hf as [Hin E].
  apply oid_eqb_eq in E. subst eid.
  unfold Store.Event_findById. apply find_by_id_unique; auto.
Qed.

Lemma within_capacity_effect s s' :
  effect s s' -> well_formed s = true -> within_capacity s -> within_capacity s'.
Proof.
  intros He Hwf Hinv eid e. apply well_formed_spec in Hwf as (H1 & _ & _ & H4).
  unfold within_capacity in *. unfold active_count in Hinv |- *.
  destruct He as [| tk event Hev _ _ Hcap _ | k user clk Hin Hs | eid' | uid'];
    unfold Store.Event_findById;
    cbn [Store.tickets Store.events Store.with_tickets Store.update_ticket];
    intros Hf.
  - now apply Hinv.
  - rewrite count_snoc.
    destruct (ObjectId.eqb (Ticket.event tk) eid && is_active tk) eqn:E.
    + apply andb_true_iff in E as [E _]. apply oid_eqb_eq in E. subst eid.
      unfold Store.Event_findById in Hev. rewrite Hev in Hf.
      injection Hf as <-. unfold active_count in Hcap. lia.
    + specialize (Hinv eid e Hf). lia.
  - etransitivity; [|apply (Hinv eid e Hf)].
    apply count_map_le. intros d Hd H.
    fold (replaced (mark_used k user clk) d) in H.
    destruct (@replaced_mark_used (Store.tickets s) k d user clk H1 Hin Hd)
      as [E|[_ E]]; rewrite E in H; [assumption|].
    apply andb_true_iff in H as [_ H]. discriminate.
  - etransitivity; [apply count_delete_le|]. apply Hinv.
    eapply find_event_after_delete; [exact H4 | | exact Hf].
    intros x. apply find_deleteOne_incl.
  - etransitivity; [apply count_delete_le|]. apply Hinv.
    eapply find_event_after_delete; [exact H4 | | exact Hf].
    intros x. apply deleteMany_incl.
Qed.

End Invariants.

(** ** Lookups after a write *)

Module LookupFacts.

Import Routes Engine StoreFacts HandlerFacts Invariants.
Local Open Scope string_scope.
Local Open Scope Z_scope.

(** The claim handler once the event is found and open: the duplicate
    guard, the capacity check, the insertion. *)
Lemma claim_after_guards s user eventId ticketId oid clk eid event :
  ObjectId.cast eventId = Some eid ->
  Store.Event_findById s eid = Some event ->
  claimable event (at_check clk) ->
  claim s user eventId ticketId oid clk
  = match Store.findOne (held eid (User._id user)) (Store.tickets s) with
    | Some _ => (AlreadyClaimed, s)
    | None =>
        if Event.capacity event <=? active_count s eid then (SoldOut, s)
        else
          match Store.insert_ticket s
                  (new_ticket user event eid ticketId
                     (qrData_of ticketId eventId (ObjectId.toString (User._id user))
                        (JSDate.toISOString (at_write clk))) oid clk) with
          | None => (server_error, s)
          | Some s' =>
              (json 201
                 (Claimed
                    (new_ticket user event eid ticketId
                       (qrData_of ticketId eventId
                          (ObjectId.toString (User._id user))
                          (JSDate.toISOString (at_write clk))) oid clk)), s')
          end
    end.
Proof.
  intros Hc He (Hs & Ha & Hd). unfold claim.
  assert (Hv : ObjectId.isMongoId eventId = true)
    by exact (cast_isMongoId eventId eid Hc).
  rewrite Hv, Hc, He, Hs, Ha. cbn [negb orb Event.status_eqb].
  apply Z.ltb_ge in Hd. rewrite Hd. reflexivity.
Qed.

Lemma holds_positive s eid uid k :
  In k (Store.tickets s) ->
  Ticket.event k = eid -> Ticket.user k = uid ->
  Ticket.status k = Ticket.active \/ Ticket.status k = Ticket.used ->
  exists k', Store.findOne (held eid uid) (Store.tickets s) = Some k'.
Proof.
  intros Hin He Hu Hs.
  destruct (Store.findOne (held eid uid) (Store.tickets s)) as [k'|] eqn:Hf;
    [now exists k'|].
  apply find_none with (x := k) in Hf; [|assumption].
  unfold held, occupies in Hf. subst.
  rewrite !oid_eqb_refl in Hf.
  destruct Hs as [E|E]; rewrite E in Hf; discriminate.
Qed.

Lemma holds_none s eid uid :
  (forall k, In k (Store.tickets s) ->
     Ticket.event k = eid -> Ticket.user k = uid ->
     Ticket.status k = Ticket.cancelled \/ Ticket.status k = Ticket.expired) ->
  Store.findOne (held eid uid) (Store.tickets s) = None.
Proof.
  intros H.
  destruct (Store.findOne (held eid uid) (Store.tickets s)) as [k|] eqn:Hf;
    [|reflexivity].
  apply find_some in Hf as [Hin Hk]. unfold held, occupies in Hk.
  apply andb_true_iff in Hk as [Hk Ho]. apply andb_true_iff in Hk as [H1 H2].
  apply oid_eqb_eq in H1, H2.
  destruct (H k Hin H1 H2) as [E|E]; rewrite E in Ho; discriminate.
Qed.

(** After [update_ticket] with the redeemed copy of the ticket a payload
    resolved to, the payload resolves to that copy. *)
Lemma find_qr_after_update (l : list Ticket.t) k q user clk :
  Store.findOne (fun d => String.eqb (Ticket.qrCode d) q) l = Some k ->
  Store.findOne (fun d => String.eqb (Ticket.qrCode d) q)
    (map (replaced (mark_used k user clk)) l)
  = Some (mark_used k user clk).
Proof.
  unfold Store.findOne. intros Hf.
  assert (Hq : String.eqb (Ticket.qrCode k) q = true)
    by (apply find_some in Hf; tauto).
  induction l as [|d l IH]; [discriminate|].
  cbn [find map] in *.
  destruct (String.eqb (Ticket.qrCode d) q) eqn:Ed.
  - injection Hf as ->. unfold replaced at 1 2. cbn [mark_used Ticket._id].
    rewrite oid_eqb_refl. cbn [mark_used Ticket.qrCode]. now rewrite Hq.
  - unfold replaced at 1 2. cbn [mark_used Ticket._id].
    destruct (ObjectId.eqb (Ticket._id d) (Ticket._id k)).
    + cbn [mark_used Ticket.qrCode]. now rewrite Hq.
    + rewrite Ed. now apply IH.
Qed.

(** Where a ticket of the store after a request comes from. *)
Lemma ticket_after_effect s s' k' :
  effect s s' -> In k' (Store.tickets s') ->
  In k' (Store.tickets s)
  \/ (Ticket.status k' = Ticket.active
      /\ Store.tickets s' = (Store.tickets s ++ [k'])%list
      /\ forall k, In k (Store.tickets s) -> Ticket._id k <> Ticket._id k')
  \/ (exists k user clk,
        In k (Store.tickets s) /\ Ticket.status k = Ticket.active
        /\ k' = mark_used k user clk).
Proof.
  intros He Hin.
  destruct He as [| tk event _ Hs _ _ Hk | k user clk Hk Hs | eid | uid];
    cbn [Store.tickets Store.with_tickets Store.update_ticket] in Hin.
  - now left.
  - apply in_app_or in Hin as [Hin|[<-|[]]]; [now left|].
    right; left. repeat split; trivial.
    apply duplicate_key_false in Hk as (K & _ & _).
    intros k Hin E. apply K. rewrite <- E. now apply in_map.
  - apply in_map_iff in Hin as (d & E & Hd).
    fold (replaced (mark_used k user clk) d) in E. unfold replaced in E.
    destruct (ObjectId.eqb (Ticket._id d) _).
    + right; right. exists k, user, clk. auto.
    + left. now subst.
  - left. eapply deleteMany_incl. exact Hin.
  - left. eapply deleteMany_incl. exact Hin.
Qed.

(** Replacing one stored document that is counted by one that is not. *)
Lemma count_replaced_drop (f : Ticket.t -> bool) (l : list Ticket.t) k k' :
  NoDup (map Ticket._id l) -> In k l ->
  Ticket._id k' = Ticket._id k -> f k = true -> f k' = false ->
  Store.countDocuments f (map (replaced k') l) = Store.countDocuments f l - 1.
Proof.
  intros Hnd Hin Eid Hk Hk'.
  induction l as [|d l IH]; [easy|].
  cbn [map]. rewrite !count_cons.
  inversion Hnd as [|? ? Hd Hl]; subst.
  destruct Hin as [->|Hin].
  - unfold replaced at 1. rewrite Eid, oid_eqb_refl, Hk, Hk'.
    rewrite count_map_same; [lia|].
    intros d Hd'. unfold replaced. rewrite Eid.
    destruct (ObjectId.eqb (Ticket._id d) (Ticket._id k)) eqn:E; [|reflexivity].
    exfalso. apply Hd. apply oid_eqb_eq in E. rewrite <- E. now apply in_map.
  - rewrite IH by assumption.
    unfold replaced at 1. rewrite Eid.
    destruct (ObjectId.eqb (Ticket._id d) (Ticket._id k)) eqn:E; [|lia].
    exfalso. apply Hd. apply oid_eqb_eq in E. rewrite E. now apply in_map.
Qed.

Lemma count_replaced_same (f : Ticket.t -> bool) (l : list Ticket.t) k k' :
  NoDup (map Ticket._id l) -> In k l ->
  Ticket._id k' = Ticket._id k -> f k' = f k ->
  Store.countDocuments f (map (replaced k') l) = Store.countDocuments f l.
Proof.
  intros Hnd Hin Eid Hk. apply count_map_same. intros d Hd.
  unfold replaced. rewrite Eid.
  destruct (ObjectId.eqb (Ticket._id d) (Ticket._id k)) eqn:E; [|reflexivity].
  apply oid_eqb_eq in E.
  now rewrite (NoDup_key_inj Ticket._id l d k Hnd Hd Hin E).
Qed.

(** The payload determines its four fields. *)
Lemma parse_qrData (a b c d : string) :
  JSON.parse (qrData_of a b c d)
  = Some (JSON.Object
            [("ticketId", JSON.Str a); ("eventId", JSON.Str b);
             ("userId", JSON.Str c); ("timestamp", JSON.Str d)]).
Proof. unfold qrData_of. now rewrite JSONFacts.parse_stringify_object. Qed.

Lemma qrData_injective (a b c d a' b' c' d' : string) :
  qrData_of a b c d = qrData_of a' b' c' d' ->
  a = a' /\ b = b' /\ c = c' /\ d = d'.
Proof.
  intros E. pose proof (parse_qrData a b c d) as P.
  rewrite E, parse_qrData in P. injection P. auto.
Qed.

Lemma active_le_occupied s eid : active_count s eid <= occupied s eid.
Proof.
  apply count_mono. intros d H. unfold occupies, is_active in *.
  apply andb_true_iff in H as [-> ->]. reflexivity.
Qed.

Lemma run_invariant (P : Store.t -> Prop) :
  (forall s r, well_formed s = true -> P s -> P (step s r)) ->
  forall rs s, well_formed s = true -> P s ->
               well_formed (run s rs) = true /\ P (run s rs).
Proof.
  intros Hstep. induction rs as [|r rs IH]; intros s Hwf HP; [now split|].
  cbn [run]. apply IH.
  - eapply well_formed_effect; [apply handle_effect | assumption].
  - now apply Hstep.
Qed.

End LookupFacts.

(* ------------------------------------------------------------------ *)
(** * The claims of the specification *)

Module Claims.

Import Routes Engine StoreFacts HandlerFacts Invariants LookupFacts.
Local Open Scope string_scope.
Local Open Scope Z_scope.

(** ** Capacity *)

(** C1, as the specification words it, fails on the routes: the capacity
    check counts the active tickets only.  In the store reached when holder 1
    has claimed the one ticket of the concert and had it scanned, the
    occupied-capacity count (active or used) equals the capacity, yet the
    claim of holder 2 is not answered with "sold out"; it is granted, and two
    tickets then occupy the single slot. *)
Lemma oversold_after_redemption :
  Store.Event_findById Examples.s2 Examples.concert_id = Some Examples.concert
  /\ Event.capacity Examples.concert <= occupied Examples.s2 Examples.concert_id
  /\ fst (handle Examples.s2 Examples.claim2) <> SoldOut
  /\ code (fst (handle Examples.s2 Examples.claim2)) = 201
  /\ Event.capacity Examples.concert
     < occupied (step Examples.s2 Examples.claim2) Examples.concert_id.
Proof.
  repeat split; try reflexivity. vm_compute. discriminate.
Qed.

(** C1, amended: a claim that fails writes nothing; once the event is found
    claimable and the holder holds no ticket for it, the claim is answered
    with "sold out" exactly when the number of ACTIVE tickets of the event has
    reached its capacity, and "sold out" is never answered otherwise; and as
    requests are served, no event ever has more active tickets than its
    capacity. *)
Theorem claim_capacity_guard :
  (forall s user eventId ticketId oid clk,
     code (fst (claim s user eventId ticketId oid clk)) <> 201 ->
     snd (claim s user eventId ticketId oid clk) = s)
  /\ (forall s user eventId ticketId oid clk eid event,
        ObjectId.cast eventId = Some eid ->
        Store.Event_findById s eid = Some event ->
        claimable event (at_check clk) ->
        holds s eid (User._id user) = 0 ->
        (fst (claim s user eventId ticketId oid clk) = SoldOut
         <-> Event.capacity event <= active_count s eid))
  /\ (forall s user eventId ticketId oid clk,
        fst (claim s user eventId ticketId oid clk) = SoldOut ->
        snd (claim s user eventId ticketId oid clk) = s
        /\ exists eid event,
             ObjectId.cast eventId = Some eid
             /\ Store.Event_findById s eid = Some event
             /\ Event.capacity event <= active_count s eid)
  /\ (forall s rs,
        well_formed s = true -> within_capacity s ->
        within_capacity (run s rs)).
Proof.
  split; [|split; [|split]].
  - intros s user eventId ticketId oid clk H.
    destruct (claim_cases s user eventId ticketId oid clk)
      as [[E _] | (eid & event & _ & _ & _ & _ & _ & _ & _ & E)]; [assumption|].
    rewrite E in H. now contradiction H.
  - intros s user eventId ticketId oid clk eid event Hc He Hcl Hh.
    rewrite (claim_after_guards s user eventId ticketId oid clk eid event Hc He Hcl).
    apply count_zero_find in Hh. unfold holds in Hh. rewrite Hh.
    destruct (Event.capacity event <=? active_count s eid) eqn:Hcap.
    + apply Z.leb_le in Hcap. tauto.
    + apply Z.leb_gt in Hcap.
      destruct (Store.insert_ticket s _); (split; [discriminate | lia]).
  - intros s user eventId ticketId oid clk H.
    destruct (claim_cases s user eventId ticketId oid clk)
      as [[E _] | (eid & event & _ & _ & _ & _ & _ & _ & _ & E)];
      [|rewrite E in H; discriminate].
    split; [assumption|]. clear E. revert H. unfold claim.
    destruct (ObjectId.isMongoId eventId); [|discriminate]. cbn [negb].
    destruct (ObjectId.cast eventId) as [eid|] eqn:Hc; [|discriminate].
    destruct (Store.Event_findById s eid) as [event|] eqn:He; [|discriminate].
    destruct (_ || _); [discriminate|].
    destruct (Event.date event <? at_check clk); [discriminate|].
    destruct (Store.findOne _ (Store.tickets s)); [discriminate|].
    match goal with
    | |- context [Event.capacity event <=? ?n] =>
        destruct (Event.capacity event <=? n) eqn:Hcap
    end.
    + intros _. exists eid, event. apply Z.leb_le in Hcap. auto.
    + destruct (Store.insert_ticket s _); discriminate.
  - intros s rs Hwf Hinv.
    apply (run_invariant within_capacity); trivial.
    intros s0 r Hwf0. apply within_capacity_effect; trivial.
    apply handle_effect.
Qed.

(** The scenario of the specification: the concert holds one ticket, holder 1
    has it, and holder 2 is answered "sold out". *)
Lemma claim_capacity_guard_witness :
  fst (claim Examples.s1 Examples.holder2 Examples.concert_id Examples.uuid2
         Examples.oid2 (Examples.clock Examples.now)) = SoldOut.
Proof.
  apply (proj1 (proj2 claim_capacity_guard)
           Examples.s1 Examples.holder2 Examples.concert_id Examples.uuid2
           Examples.oid2 (Examples.clock Examples.now)
           Examples.concert_id Examples.concert).
  - reflexivity.
  - reflexivity.
  - repeat split; vm_compute; congruence.
  - reflexivity.
  - vm_compute. discriminate.
Defined.

(** ** One ticket per holder *)

(** C2, amended: served one after the other, the requests keep at most one
    active or used ticket per event and holder; and a claim by a holder who
    holds one writes nothing and is not granted: it is answered "already
    claimed" as soon as the event is found and claimable. *)
Theorem one_ticket_per_holder :
  (forall s r,
     well_formed s = true -> one_per_holder s ->
     well_formed (step s r) = true /\ one_per_holder (step s r))
  /\ (forall s rs,
        well_formed s = true -> one_per_holder s ->
        well_formed (run s rs) = true /\ one_per_holder (run s rs))
  /\ (forall s user eventId ticketId oid clk eid k,
        ObjectId.cast eventId = Some eid ->
        In k (Store.tickets s) ->
        Ticket.event k = eid -> Ticket.user k = User._id user ->
        Ticket.status k = Ticket.active \/ Ticket.status k = Ticket.used ->
        snd (claim s user eventId ticketId oid clk) = s
        /\ code (fst (claim s user eventId ticketId oid clk)) <> 201
        /\ (forall event,
              Store.Event_findById s eid = Some event ->
              claimable event (at_check clk) ->
              fst (claim s user eventId ticketId oid clk) = AlreadyClaimed)).
Proof.
  split; [|split].
  - intros s r Hwf Hinv. split.
    + eapply well_formed_effect; [apply handle_effect | assumption].
    + eapply one_per_holder_effect; [apply handle_effect | |]; assumption.
  - intros s rs Hwf Hinv. apply (run_invariant one_per_holder); trivial.
    intros s0 r Hwf0. apply one_per_holder_effect; trivial. apply handle_effect.
  - intros s user eventId ticketId oid clk eid k Hc Hin He Hu Hs.
    destruct (holds_positive s eid (User._id user) k Hin He Hu Hs) as [k' Hf].
    assert (Hpos : holds s eid (User._id user) <> 0).
    { intros Hz. apply count_zero_find in Hz. congruence. }
    destruct (claim_cases s user eventId ticketId oid clk)
      as [[E N] | (eid' & event & Hc' & _ & _ & Hh & _)].
    + repeat split; trivial. intros event Hev Hcl.
      rewrite (claim_after_guards s user eventId ticketId oid clk eid event Hc Hev Hcl).
      now rewrite Hf.
    + exfalso. apply Hpos. congruence.
Qed.

(** Holder 1 asks for a second ticket of the concert. *)
Lemma one_ticket_per_holder_witness :
  fst (claim Examples.s1 Examples.holder1 Examples.concert_id Examples.uuid2
         Examples.oid2 (Examples.clock Examples.now)) = AlreadyClaimed
  /\ one_per_holder (run Examples.s0 [Examples.claim1; Examples.scan1; Examples.claim2]).
Proof.
  split.
  - refine (proj2 (proj2 (proj2 (proj2 one_ticket_per_holder)
             Examples.s1 Examples.holder1 Examples.concert_id Examples.uuid2
             Examples.oid2 (Examples.clock Examples.now)
             Examples.concert_id Examples.ticket1 _ _ _ _ _))
             Examples.concert _ _).
    + reflexivity.
    + vm_compute. left. reflexivity.
    + reflexivity.
    + reflexivity.
    + vm_compute. left. reflexivity.
    + reflexivity.
    + repeat split; vm_compute; congruence.
  - refine (proj2 (proj1 (proj2 one_ticket_per_holder) Examples.s0 _ _ _)).
    + reflexivity.
    + intros eid uid. vm_compute. discriminate.
Defined.

(** ** Redemption *)

(** C3, amended: a scan succeeds exactly when the payload parses, resolves
    to a stored ticket whose event and organization are found, the principal
    belongs to that organization, the ticket is active and the event date has
    not passed; it then stores the ticket as used, with the time of the scan
    and the scanning principal; and no scan of the same payload that is
    served after it succeeds or writes, whoever sends it: a principal of the
    organization is answered "not valid" with the status used. *)
Theorem redeem_exactly_once :
  forall s user qrData clk,
    (code (fst (qr_scan s user qrData clk)) = 200 <->
     exists ticket event,
       JSON.parse qrData <> None
       /\ Store.findOne (fun k => String.eqb (Ticket.qrCode k) qrData)
            (Store.tickets s) = Some ticket
       /\ Store.Event_findById s (Ticket.event ticket) = Some event
       /\ Store.Organization_exists s (Event.organization event) = true
       /\ User.organization user = Some (Event.organization event)
       /\ Ticket.status ticket = Ticket.active
       /\ at_check clk <= Event.date event)
    /\ (forall ticket,
          Store.findOne (fun k => String.eqb (Ticket.qrCode k) qrData)
            (Store.tickets s) = Some ticket ->
          code (fst (qr_scan s user qrData clk)) = 200 ->
          let s' := snd (qr_scan s user qrData clk) in
          let ticket' := mark_used ticket user clk in
          Ticket.status ticket = Ticket.active
          /\ fst (qr_scan s user qrData clk)
             = json 200 (Scanned "Ticket scanned and marked as used successfully"
                           ticket')
          /\ Store.findOne (fun k => String.eqb (Ticket.qrCode k) qrData)
               (Store.tickets s') = Some ticket'
          /\ Ticket.status ticket' = Ticket.used
          /\ Ticket.usedAt ticket' = Some (at_write clk)
          /\ Ticket.usedBy ticket' = Some (User._id user)
          /\ (forall user' clk',
                code (fst (qr_scan s' user' qrData clk')) <> 200
                /\ snd (qr_scan s' user' qrData clk') = s')
          /\ (forall user' clk',
                User.organization user' = User.organization user ->
                fst (qr_scan s' user' qrData clk')
                = NotActive Ticket.used (Some (at_write clk)))).
Proof.
  intros s user qrData clk. split.
  - split.
    + intros H. destruct (qr_scan_cases s user qrData clk)
        as [[_ N] | (ticket & event & H1 & H2 & H3 & H4 & H5 & H6 & H7 & _)];
        [contradiction|].
      exists ticket, event. auto 10.
    + intros (ticket & event & H1 & H2 & H3 & H4 & H5 & H6 & H7).
      now rewrite (qr_scan_accepted s user qrData clk ticket event).
  - intros ticket Hf Hok.
    destruct (qr_scan_cases s user qrData clk)
      as [[_ N] | (ticket0 & event & H1 & H2 & H3 & H4 & H5 & H6 & H7 & E)];
      [contradiction|].
    assert (ticket0 = ticket) by congruence. subst ticket0.
    rewrite E. cbn [fst snd]. cbv zeta.
    assert (Hf' : Store.findOne (fun k => String.eqb (Ticket.qrCode k) qrData)
                    (Store.tickets (Store.update_ticket s (mark_used ticket user clk)))
                  = Some (mark_used ticket user clk)).
    { cbn [Store.update_ticket Store.with_tickets Store.tickets].
      now apply (find_qr_after_update (Store.tickets s)). }
    repeat split; trivial.
    + destruct (qr_scan_cases (Store.update_ticket s (mark_used ticket user clk))
                  user' qrData clk')
        as [[_ N] | (t2 & e2 & _ & G & _ & _ & _ & G' & _)]; [assumption|].
      rewrite Hf' in G. injection G as <-. discriminate.
    + destruct (qr_scan_cases (Store.update_ticket s (mark_used ticket user clk))
                  user' qrData clk')
        as [[N _] | (t2 & e2 & _ & G & _ & _ & _ & G' & _)]; [assumption|].
      rewrite Hf' in G. injection G as <-. discriminate.
    + intros user' clk' Hsame. unfold qr_scan.
      destruct (JSON.parse qrData); [|congruence].
      rewrite Hf'. cbv zeta.
      assert (Ho : organization_differs
                     (populate (Store.update_ticket s (mark_used ticket user clk))
                        (mark_used ticket user clk)) user' = Some false).
      { apply organization_differs_false. exists event.
        rewrite Hsame. auto. }
      rewrite Ho. reflexivity.
Qed.

(** The ticket of holder 1 is scanned once, and then a second time. *)
Lemma redeem_exactly_once_witness :
  fst (qr_scan Examples.s2 Examples.organizer_a Examples.qr1
         (Examples.clock (Examples.now + 120000)))
  = NotActive Ticket.used (Some (Examples.now + 60001)).
Proof.
  destruct (proj2 (redeem_exactly_once Examples.s1 Examples.organizer_a
                     Examples.qr1 (Examples.clock (Examples.now + 60000)))
              Examples.ticket1 eq_refl eq_refl)
    as (_ & _ & _ & _ & _ & _ & _ & H).
  exact (H Examples.organizer_a (Examples.clock (Examples.now + 120000))
           eq_refl).
Defined.

(** C4: when the ticket a redemption request resolves to belongs to an event
    of another organization than the principal's, the request is answered
    403 and the store is left as it was, whatever the identifiers; so on both
    redeeming routes. *)
Theorem cross_organization_rejected :
  (forall s user qrData clk ticket event org,
     JSON.parse qrData <> None ->
     Store.findOne (fun k => String.eqb (Ticket.qrCode k) qrData)
       (Store.tickets s) = Some ticket ->
     Store.Event_findById s (Ticket.event ticket) = Some event ->
     Store.Organization_exists s (Event.organization event) = true ->
     User.organization user = Some org ->
     org <> Event.organization event ->
     qr_scan s user qrData clk = (WrongScope, s))
  /\ (forall s user id clk tid ticket event org,
        ObjectId.cast id = Some tid ->
        Store.Ticket_findById s tid = Some ticket ->
        Store.Event_findById s (Ticket.event ticket) = Some event ->
        User.organization user = Some org ->
        org <> Event.organization event ->
        tickets_use s user id clk = (WrongScope_use, s)).
Proof.
  split.
  - intros s user qrData clk ticket event org Hp Hf He Hx Hu Hne.
    unfold qr_scan. destruct (JSON.parse qrData); [|congruence].
    rewrite Hf. cbv zeta. unfold populate, organization_differs.
    rewrite He, Hx, Hu. unfold ObjectId.toString.
    destruct (String.eqb (Event.organization event) org) eqn:E; [|reflexivity].
    apply String.eqb_eq in E. congruence.
  - intros s user id clk tid ticket event org Hc Hf He Hu Hne.
    unfold tickets_use. rewrite Hc, Hf, He, Hu. unfold ObjectId.toString.
    destruct (String.eqb (Event.organization event) org) eqn:E; [|reflexivity].
    apply String.eqb_eq in E. congruence.
Qed.

(** An organizer of the other organization scans holder 1's ticket. *)
Lemma cross_organization_rejected_witness :
  qr_scan Examples.s1 Examples.organizer_b Examples.qr1
    (Examples.clock Examples.now) = (WrongScope, Examples.s1)
  /\ tickets_use Examples.s1 Examples.organizer_b Examples.oid1
       (Examples.clock Examples.now) = (WrongScope_use, Examples.s1).
Proof.
  split.
  - apply (proj1 cross_organization_rejected Examples.s1 Examples.organizer_b
             Examples.qr1 (Examples.clock Examples.now) Examples.ticket1
             Examples.concert Examples.org_b).
    + vm_compute. discriminate.
    + reflexivity.
    + reflexivity.
    + reflexivity.
    + reflexivity.
    + vm_compute. discriminate.
  - apply (proj2 cross_organization_rejected Examples.s1 Examples.organizer_b
             Examples.oid1 (Examples.clock Examples.now) Examples.oid1
             Examples.ticket1 Examples.concert Examples.org_b).
    + reflexivity.
    + reflexivity.
    + reflexivity.
    + reflexivity.
    + vm_compute. discriminate.
Defined.

(** ** The QR payload *)

Lemma find_snoc_fresh {A} (f : A -> bool) (l : list A) (x : A) :
  Store.findOne f l = None -> f x = true -> Store.findOne f (l ++ [x]) = Some x.
Proof.
  unfold Store.findOne. induction l as [|d l IH]; cbn [find app].
  - intros _ ->. reflexivity.
  - destruct (f d); [discriminate | assumption].
Qed.

Lemma claimed_ticket s user eventId ticketId oid clk ticket :
  fst (claim s user eventId ticketId oid clk) = json 201 (Claimed ticket) ->
  exists eid event,
    ObjectId.cast eventId = Some eid
    /\ Store.Event_findById s eid = Some event
    /\ ticket = new_ticket user event eid ticketId
                  (qrData_of ticketId eventId (ObjectId.toString (User._id user))
                     (JSDate.toISOString (at_write clk))) oid clk
    /\ Store.duplicate_key ticket (Store.tickets s) = false
    /\ snd (claim s user eventId ticketId oid clk)
       = Store.with_tickets s (Store.tickets s ++ [ticket]).
Proof.
  intros H.
  destruct (claim_cases s user eventId ticketId oid clk)
    as [[_ N] | (eid & event & Hc & He & _ & _ & _ & Hk & _ & E)].
  - rewrite H in N. now contradiction N.
  - rewrite E in H |- *. cbn [fst snd] in *. injection H as <-.
    exists eid, event. auto.
Qed.

(** C5: the payload stored with a claimed ticket parses to the ticket
    identifier, the event identifier as the claimant sent it (which casts to
    the ticket's event), the holder identifier and the time the payload was
    made, and looking that payload up resolves to the ticket; a string that
    equals no stored payload is answered "invalid format" or "not found" and
    nothing is written; and the ticket a scan redeems is always one whose
    stored payload is the scanned string. *)
Theorem credential_round_trip :
  (forall s user eventId ticketId oid clk ticket,
     fst (claim s user eventId ticketId oid clk) = json 201 (Claimed ticket) ->
     JSON.parse (Ticket.qrCode ticket)
     = Some (JSON.Object
               [("ticketId", JSON.Str (Ticket.ticketId ticket));
                ("eventId", JSON.Str eventId);
                ("userId", JSON.Str (ObjectId.toString (Ticket.user ticket)));
                ("timestamp", JSON.Str (JSDate.toISOString (at_write clk)))])
     /\ ObjectId.cast eventId = Some (Ticket.event ticket)
     /\ Store.findOne (fun k => String.eqb (Ticket.qrCode k) (Ticket.qrCode ticket))
          (Store.tickets (snd (claim s user eventId ticketId oid clk)))
        = Some ticket)
  /\ (forall s user qrData clk,
        (forall k, In k (Store.tickets s) -> Ticket.qrCode k <> qrData) ->
        (fst (qr_scan s user qrData clk) = Malformed
         \/ fst (qr_scan s user qrData clk) = NotFound)
        /\ snd (qr_scan s user qrData clk) = s)
  /\ (forall s user qrData clk message ticket',
        fst (qr_scan s user qrData clk) = json 200 (Scanned message ticket') ->
        Ticket.qrCode ticket' = qrData
        /\ exists ticket,
             In ticket (Store.tickets s)
             /\ Ticket.qrCode ticket = qrData
             /\ ticket' = mark_used ticket user clk).
Proof.
  split; [|split].
  - intros s user eventId ticketId oid clk ticket H.
    destruct (claimed_ticket s user eventId ticketId oid clk ticket H)
      as (eid & event & Hc & He & -> & Hk & E).
    cbn [new_ticket Ticket.qrCode Ticket.ticketId Ticket.user Ticket.event].
    split; [apply parse_qrData|]. split; [assumption|].
    rewrite E. cbn [Store.with_tickets Store.tickets].
    apply find_snoc_fresh; [|apply String.eqb_refl].
    apply duplicate_key_false in Hk as (_ & _ & K).
    destruct (Store.findOne _ (Store.tickets s)) as [d|] eqn:Hf; [|reflexivity].
    apply find_some in Hf as [Hin Hd]. apply String.eqb_eq in Hd.
    exfalso. apply K. cbn [new_ticket Ticket.qrCode]. rewrite <- Hd.
    now apply in_map.
  - intros s user qrData clk Hno. unfold qr_scan.
    destruct (JSON.parse qrData); [|split; [now left | reflexivity]].
    destruct (Store.findOne _ (Store.tickets s)) as [k|] eqn:Hf;
      [|split; [now right | reflexivity]].
    apply find_some in Hf as [Hin Hk]. apply String.eqb_eq in Hk.
    now destruct (Hno k Hin).
  - intros s user qrData clk message ticket' H.
    destruct (qr_scan_cases s user qrData clk)
      as [[_ N] | (ticket & event & _ & Hf & _ & _ & _ & _ & _ & E)].
    + rewrite H in N. now contradiction N.
    + rewrite E in H. cbn [fst] in H. injection H as _ <-.
      apply find_some in Hf as [Hin Hk]. apply String.eqb_eq in Hk.
      split; [assumption|]. exists ticket. auto.
Qed.

(** Holder 1's claim, and a payload altered in its last digit. *)
Lemma credential_round_trip_witness :
  JSON.parse (Ticket.qrCode Examples.ticket1)
  = Some (JSON.Object
            [("ticketId", JSON.Str Examples.uuid1);
             ("eventId", JSON.Str Examples.concert_id);
             ("userId", JSON.Str (User._id Examples.holder1));
             ("timestamp", JSON.Str "2025-11-03T07:00:00.001Z")])
  /\ snd (qr_scan Examples.s1 Examples.organizer_a
            (qrData_of Examples.uuid1 Examples.concert_id
               (User._id Examples.holder1) "2025-11-03T07:00:00.002Z")
            (Examples.clock Examples.now)) = Examples.s1.
Proof.
  split.
  - apply (proj1 (proj1 credential_round_trip Examples.s0 Examples.holder1
                    Examples.concert_id Examples.uuid1 Examples.oid1
                    (Examples.clock Examples.now) Examples.ticket1 eq_refl)).
  - apply (proj1 (proj2 credential_round_trip) Examples.s1 Examples.organizer_a).
    intros k Hk. vm_compute in Hk. destruct Hk as [<-|[]].
    vm_compute. discriminate.
Defined.

(** C6: the payload of a claimed ticket is [qrData_of] applied to the
    ticket identifier, the event identifier, the holder identifier and the
    time stamp, and to nothing else; that text parses to an object of exactly
    these four members, so two payloads are equal only when the four fields
    are; and no request changes the payload stored with a ticket, whatever it
    does to the status. *)
Theorem payload_four_fields :
  (forall s user eventId ticketId oid clk ticket,
     fst (claim s user eventId ticketId oid clk) = json 201 (Claimed ticket) ->
     Ticket.qrCode ticket
     = qrData_of (Ticket.ticketId ticket) eventId
         (ObjectId.toString (Ticket.user ticket))
         (JSDate.toISOString (at_write clk))
     /\ Ticket.ticketId ticket = ticketId
     /\ Ticket.user ticket = User._id user
     /\ ObjectId.cast eventId = Some (Ticket.event ticket))
  /\ (forall a b c d,
        JSON.parse (qrData_of a b c d)
        = Some (JSON.Object
                  [("ticketId", JSON.Str a); ("eventId", JSON.Str b);
                   ("userId", JSON.Str c); ("timestamp", JSON.Str d)]))
  /\ (forall a b c d a' b' c' d',
        qrData_of a b c d = qrData_of a' b' c' d' ->
        a = a' /\ b = b' /\ c = c' /\ d = d')
  /\ (forall s r k k',
        well_formed s = true ->
        In k (Store.tickets s) -> In k' (Store.tickets (step s r)) ->
        Ticket._id k' = Ticket._id k ->
        Ticket.qrCode k' = Ticket.qrCode k).
Proof.
  split; [|split; [|split]].
  - intros s user eventId ticketId oid clk ticket H.
    destruct (claimed_ticket s user eventId ticketId oid clk ticket H)
      as (eid & event & Hc & He & -> & Hk & E).
    cbn [new_ticket Ticket.qrCode Ticket.ticketId Ticket.user Ticket.event].
    auto.
  - apply parse_qrData.
  - apply qrData_injective.
  - intros s r k k' Hwf Hk Hk' Eid.
    apply well_formed_spec in Hwf as (H1 & _).
    destruct (ticket_after_effect s (step s r) k' (handle_effect s r) Hk')
      as [Hin | [(_ & _ & Hnew) | (k0 & user & clk & Hin & _ & ->)]].
    + now rewrite (NoDup_key_inj Ticket._id (Store.tickets s) k' k H1 Hin Hk Eid).
    + now destruct (Hnew k Hk).
    + cbn [mark_used Ticket._id Ticket.qrCode] in *.
      now rewrite (NoDup_key_inj Ticket._id (Store.tickets s) k0 k H1 Hin Hk Eid).
Qed.

(** The payload of holder 1's ticket before and after the scan. *)
Lemma payload_four_fields_witness :
  Ticket.qrCode Examples.ticket1 = Examples.qr1
  /\ Ticket.qrCode (mark_used Examples.ticket1 Examples.organizer_a
                      (Examples.clock (Examples.now + 60000)))
     = Ticket.qrCode Examples.ticket1.
Proof.
  split.
  - apply (proj1 (proj1 payload_four_fields Examples.s0 Examples.holder1
                    Examples.concert_id Examples.uuid1 Examples.oid1
                    (Examples.clock Examples.now) Examples.ticket1 eq_refl)).
  - apply (proj2 (proj2 (proj2 payload_four_fields)) Examples.s1 Examples.scan1
             Examples.ticket1).
    + reflexivity.
    + vm_compute. left. reflexivity.
    + vm_compute. left. reflexivity.
    + reflexivity.
Defined.

(** ** The capacity read-out *)

(** C7, as the specification words it, fails on the routes: the read-out
    subtracts the active tickets only.  Once holder 1's ticket is used, the
    event page of the concert reports no ticket issued and one slot left,
    while capacity minus the tickets in status active or used is zero. *)
Lemma remaining_ignores_used :
  get_event Examples.s2 Examples.concert_id
  = json 200 (EventInfo Examples.concert 0 (JSNumber.Finite 1))
  /\ organizer_event_counts Examples.s2 Examples.concert
     = (0, 1, JSNumber.Finite 1)
  /\ Event.capacity Examples.concert
     - occupied Examples.s2 Examples.concert_id = 0.
Proof. repeat split. Qed.

(** What a cancellation that succeeds has done. *)
Lemma cancel_done s ticketId k' s' :
  cancel s ticketId = Some (k', s') ->
  exists k,
    In k (Store.tickets s) /\ Ticket.ticketId k = ticketId
    /\ Ticket.status k = Ticket.active
    /\ k' = cancelled k /\ s' = Store.update_ticket s (cancelled k).
Proof.
  unfold cancel.
  destruct (Store.findOne _ (Store.tickets s)) as [k|] eqn:Hf; [|discriminate].
  destruct (Ticket.status_eqb (Ticket.status k) Ticket.active) eqn:Hs;
    [|discriminate].
  intros H. injection H as <- <-. exists k.
  apply find_some in Hf as [Hin Hk]. apply String.eqb_eq in Hk.
  apply status_eqb_eq in Hs. auto.
Qed.

Lemma active_count_cancelled s k eid :
  well_formed s = true -> In k (Store.tickets s) ->
  Ticket.status k = Ticket.active ->
  active_count (Store.update_ticket s (cancelled k)) eid
  = active_count s eid - (if ObjectId.eqb (Ticket.event k) eid then 1 else 0).
Proof.
  intros Hwf Hin Hs. apply well_formed_spec in Hwf as (H1 & _).
  unfold active_count.
  cbn [Store.update_ticket Store.with_tickets Store.tickets].
  change (fun d => if ObjectId.eqb (Ticket._id d) (Ticket._id (cancelled k))
                   then cancelled k else d)
    with (replaced (cancelled k)).
  destruct (ObjectId.eqb (Ticket.event k) eid) eqn:E.
  - apply count_replaced_drop with (k := k); trivial.
    + unfold is_active. now rewrite E, Hs.
    + cbn. now rewrite andb_false_r.
  - rewrite Z.sub_0_r. apply count_replaced_same with (k := k); trivial.
    unfold is_active. cbn [cancelled Ticket.event]. now rewrite E.
Qed.

(** C7, amended: the event page and the organizer's list report
    remaining = capacity minus the number of ACTIVE tickets of the event,
    subtracted as Numbers, which is exact while the capacity and the count
    are at most 2^53; so a cancellation, which the specification allows of an
    active ticket only, raises the remaining count of the event by exactly
    one; and the cancellation of a ticket in a terminal status is refused. *)
Theorem remaining_capacity_counts_active :
  (forall s id eid event,
     ObjectId.cast id = Some eid ->
     Store.Event_findById s eid = Some event ->
     get_event s id
     = json 200
         (EventInfo event (active_count s eid)
            (JSNumber.sub (JSNumber.Finite (Event.capacity event))
               (JSNumber.Finite (active_count s eid))))
     /\ (0 <= Event.capacity event <= 2 ^ 53 ->
         active_count s eid <= 2 ^ 53 ->
         get_event s id
         = json 200
             (EventInfo event (active_count s eid)
                (JSNumber.Finite
                   (Event.capacity event - active_count s eid)))))
  /\ (forall s event,
        0 <= Event.capacity event <= 2 ^ 53 ->
        active_count s (Event._id event) <= 2 ^ 53 ->
        organizer_event_counts s event
        = (active_count s (Event._id event),
           Store.countDocuments
             (fun k => ObjectId.eqb (Ticket.event k) (Event._id event)
                       && Ticket.status_eqb (Ticket.status k) Ticket.used)
             (Store.tickets s),
           JSNumber.Finite
             (Event.capacity event - active_count s (Event._id event))))
  /\ (forall s ticketId k' s' id event,
        well_formed s = true ->
        cancel s ticketId = Some (k', s') ->
        ObjectId.cast id = Some (Ticket.event k') ->
        Store.Event_findById s (Ticket.event k') = Some event ->
        0 <= Event.capacity event <= 2 ^ 53 ->
        active_count s (Ticket.event k') <= 2 ^ 53 ->
        get_event s' id
        = json 200
            (EventInfo event (active_count s (Ticket.event k') - 1)
               (JSNumber.Finite
                  (Event.capacity event
                   - active_count s (Ticket.event k') + 1))))
  /\ (forall s ticketId k,
        Store.findOne (fun d => String.eqb (Ticket.ticketId d) ticketId)
          (Store.tickets s) = Some k ->
        terminal (Ticket.status k) = true ->
        cancel s ticketId = None).
Proof.
  assert (Hget : forall s id eid event,
            ObjectId.cast id = Some eid ->
            Store.Event_findById s eid = Some event ->
            get_event s id
            = json 200
                (EventInfo event (active_count s eid)
                   (JSNumber.sub (JSNumber.Finite (Event.capacity event))
                      (JSNumber.Finite (active_count s eid))))).
  { intros s id eid event Hc He. unfold get_event. rewrite Hc, He.
    apply find_some in He as [_ E]. apply oid_eqb_eq in E. now rewrite E. }
  assert (Hpos : forall s eid, 0 <= active_count s eid)
    by (intros; apply count_nonneg).
  split; [|split; [|split]].
  - intros s id eid event Hc He. split; [now apply Hget|].
    intros Hcap Hact. rewrite (Hget s id eid event Hc He).
    rewrite NumberFacts.sub_exact; [reflexivity|].
    specialize (Hpos s eid). lia.
  - intros s event Hcap Hact. unfold organizer_event_counts.
    change (Store.countDocuments
              (fun k => ObjectId.eqb (Ticket.event k) (Event._id event)
                        && Ticket.status_eqb (Ticket.status k) Ticket.active)
              (Store.tickets s))
      with (active_count s (Event._id event)).
    rewrite NumberFacts.sub_exact; [reflexivity|].
    specialize (Hpos s (Event._id event)). lia.
  - intros s ticketId k' s' id event Hwf Hcancel Hc He Hcap Hact.
    destruct (cancel_done s ticketId k' s' Hcancel)
      as (k & Hin & _ & Hs & -> & ->).
    cbn [cancelled Ticket.event] in *.
    assert (He' : Store.Event_findById (Store.update_ticket s (cancelled k))
                    (Ticket.event k) = Some event) by exact He.
    rewrite (Hget _ id (Ticket.event k) event Hc He').
    rewrite (active_count_cancelled s k (Ticket.event k) Hwf Hin Hs).
    rewrite oid_eqb_refl.
    assert (Hone : 1 <= active_count s (Ticket.event k)).
    { unfold active_count.
      pose proof (count_zero_find
                    (fun d => ObjectId.eqb (Ticket.event d) (Ticket.event k)
                              && is_active d) (Store.tickets s)) as Hz.
      specialize (Hpos s (Ticket.event k)). unfold active_count in Hpos.
      destruct (Z.eq_dec
                  (Store.countDocuments
                     (fun d => ObjectId.eqb (Ticket.event d) (Ticket.event k)
                               && is_active d) (Store.tickets s)) 0)
        as [E|E]; [|lia].
      apply Hz in E. apply find_none with (x := k) in E; [|assumption].
      unfold is_active in E. now rewrite oid_eqb_refl, Hs in E. }
    rewrite NumberFacts.sub_exact by lia.
    do 3 f_equal. lia.
  - intros s ticketId k Hf Ht. unfold cancel. rewrite Hf.
    unfold terminal in Ht. apply negb_true_iff in Ht. now rewrite Ht.
Qed.

(** Holder 1's active ticket is cancelled: the slot of the concert is
    reported free again. *)
Lemma remaining_capacity_counts_active_witness :
  get_event Examples.s1_cancelled Examples.concert_id
  = json 200 (EventInfo Examples.concert (1 - 1) (JSNumber.Finite (1 - 1 + 1))).
Proof.
  assert (Hc : cancel Examples.s1 Examples.uuid1
               = Some (cancelled Examples.ticket1, Examples.s1_cancelled))
    by reflexivity.
  assert (Hcap : 0 <= Event.capacity Examples.concert <= 2 ^ 53)
    by (vm_compute; split; discriminate).
  assert (Hact : active_count Examples.s1
                   (Ticket.event (cancelled Examples.ticket1)) <= 2 ^ 53)
    by (vm_compute; discriminate).
  exact (proj1 (proj2 (proj2 remaining_capacity_counts_active)) Examples.s1
           Examples.uuid1 (cancelled Examples.ticket1) Examples.s1_cancelled
           Examples.concert_id Examples.concert eq_refl Hc eq_refl eq_refl
           Hcap Hact).
Defined.

(** ** The life cycle of a ticket *)

(** C8: a claim stores its ticket as active; a stored ticket that is used,
    cancelled or expired is left exactly as it is by every request that does
    not delete it; and the only change of status a request makes is from
    active to used. *)
Theorem terminal_statuses_final :
  (forall s user eventId ticketId oid clk ticket,
     fst (claim s user eventId ticketId oid clk) = json 201 (Claimed ticket) ->
     Ticket.status ticket = Ticket.active
     /\ Store.tickets (snd (claim s user eventId ticketId oid clk))
        = (Store.tickets s ++ [ticket])%list)
  /\ (forall s r k k',
        well_formed s = true ->
        In k (Store.tickets s) -> terminal (Ticket.status k) = true ->
        In k' (Store.tickets (step s r)) -> Ticket._id k' = Ticket._id k ->
        k' = k)
  /\ (forall s r k k',
        well_formed s = true ->
        In k (Store.tickets s) ->
        In k' (Store.tickets (step s r)) -> Ticket._id k' = Ticket._id k ->
        Ticket.status k' <> Ticket.status k ->
        Ticket.status k = Ticket.active /\ Ticket.status k' = Ticket.used)
  /\ (forall s r k',
        In k' (Store.tickets (step s r)) ->
        (forall k, In k (Store.tickets s) -> Ticket._id k <> Ticket._id k') ->
        Ticket.status k' = Ticket.active).
Proof.
  split; [|split; [|split]].
  - intros s user eventId ticketId oid clk ticket H.
    destruct (claimed_ticket s user eventId ticketId oid clk ticket H)
      as (eid & event & _ & _ & -> & _ & E).
    rewrite E. split; reflexivity.
  - intros s r k k' Hwf Hk Ht Hk' Eid.
    apply well_formed_spec in Hwf as (H1 & _).
    destruct (ticket_after_effect s (step s r) k' (handle_effect s r) Hk')
      as [Hin | [(_ & _ & Hnew) | (k0 & user & clk & Hin & Hs & ->)]].
    + exact (NoDup_key_inj Ticket._id (Store.tickets s) k' k H1 Hin Hk Eid).
    + now destruct (Hnew k Hk).
    + cbn [mark_used Ticket._id] in Eid.
      rewrite (NoDup_key_inj Ticket._id (Store.tickets s) k0 k H1 Hin Hk Eid) in Hs.
      unfold terminal in Ht. rewrite Hs in Ht. discriminate.
  - intros s r k k' Hwf Hk Hk' Eid Hne.
    apply well_formed_spec in Hwf as (H1 & _).
    destruct (ticket_after_effect s (step s r) k' (handle_effect s r) Hk')
      as [Hin | [(_ & _ & Hnew) | (k0 & user & clk & Hin & Hs & ->)]].
    + rewrite (NoDup_key_inj Ticket._id (Store.tickets s) k' k H1 Hin Hk Eid) in Hne.
      now contradiction Hne.
    + now destruct (Hnew k Hk).
    + cbn [mark_used Ticket._id] in Eid.
      rewrite (NoDup_key_inj Ticket._id (Store.tickets s) k0 k H1 Hin Hk Eid) in Hs.
      split; [assumption | reflexivity].
  - intros s r k' Hk' Hnew.
    destruct (ticket_after_effect s (step s r) k' (handle_effect s r) Hk')
      as [Hin | [(Hs & _) | (k0 & user & clk & Hin & Hs & ->)]].
    + now destruct (Hnew k' Hin).
    + assumption.
    + now destruct (Hnew k0 Hin).
Qed.

(** The used ticket of holder 1 is scanned again and stays as it is. *)
Lemma terminal_statuses_final_witness :
  mark_used Examples.ticket1 Examples.organizer_a
    (Examples.clock (Examples.now + 60000))
  = mark_used Examples.ticket1 Examples.organizer_a
      (Examples.clock (Examples.now + 60000))
  /\ Ticket.status Examples.ticket1 = Ticket.active.
Proof.
  split.
  - apply (proj1 (proj2 terminal_statuses_final) Examples.s2
             (QrScan Examples.organizer_a Examples.qr1
                (Examples.clock (Examples.now + 120000)))).
    + reflexivity.
    + vm_compute. left. reflexivity.
    + reflexivity.
    + vm_compute. left. reflexivity.
    + reflexivity.
  - apply (proj1 (proj1 terminal_statuses_final Examples.s0 Examples.holder1
                    Examples.concert_id Examples.uuid1 Examples.oid1
                    (Examples.clock Examples.now) Examples.ticket1 eq_refl)).
Defined.

(** ** Validation *)

(** C9: [POST /api/qr/validate] writes nothing; and for the same store,
    principal, payload and time of the date check it either reports the
    ticket valid where the scan redeems that ticket, or sends the very
    rejection the scan sends, the scan then writing nothing either. *)
Theorem validate_read_only :
  forall s user qrData now,
    snd (qr_validate s user qrData now) = s
    /\ (forall clk,
          at_check clk = now ->
          (exists ticket,
             fst (qr_validate s user qrData now) = json 200 (Valid ticket)
             /\ Ticket.status ticket = Ticket.active
             /\ qr_scan s user qrData clk
                = (json 200
                     (Scanned "Ticket scanned and marked as used successfully"
                        (mark_used ticket user clk)),
                   Store.update_ticket s (mark_used ticket user clk)))
          \/ (code (fst (qr_validate s user qrData now)) <> 200
              /\ fst (qr_validate s user qrData now)
                 = fst (qr_scan s user qrData clk)
              /\ snd (qr_scan s user qrData clk) = s)).
Proof.
  intros s user qrData now. split; [apply qr_validate_read_only|].
  intros clk <-. unfold qr_validate, qr_scan.
  destruct (JSON.parse qrData);
    [|right; repeat split; simpl; discriminate].
  destruct (Store.findOne _ (Store.tickets s)) as [ticket|];
    [|right; repeat split; simpl; discriminate].
  cbv zeta.
  destruct (organization_differs (populate s ticket) user) as [[|]|];
    try (right; repeat split; simpl; discriminate).
  destruct (negb (Ticket.status_eqb (Ticket.status ticket) Ticket.active)) eqn:Hs;
    [right; repeat split; simpl; discriminate|].
  destruct (populate s ticket) as [[event b]|];
    [|right; repeat split; simpl; discriminate].
  destruct (Event.date event <? at_check clk);
    [right; repeat split; simpl; discriminate|].
  left. exists ticket. apply negb_false_iff, status_eqb_eq in Hs.
  repeat split. assumption.
Qed.

(** Validating holder 1's ticket before the scan, at the time of the scan. *)
Lemma validate_read_only_witness :
  (exists ticket,
     fst (qr_validate Examples.s1 Examples.organizer_a Examples.qr1
            (Examples.now + 60000)) = json 200 (Valid ticket)
     /\ Ticket.status ticket = Ticket.active
     /\ qr_scan Examples.s1 Examples.organizer_a Examples.qr1
          (Examples.clock (Examples.now + 60000))
        = (json 200
             (Scanned "Ticket scanned and marked as used successfully"
                (mark_used ticket Examples.organizer_a
                   (Examples.clock (Examples.now + 60000)))),
           Store.update_ticket Examples.s1
             (mark_used ticket Examples.organizer_a
                (Examples.clock (Examples.now + 60000)))))
  \/ (code (fst (qr_validate Examples.s1 Examples.organizer_a Examples.qr1
                   (Examples.now + 60000))) <> 200
      /\ fst (qr_validate Examples.s1 Examples.organizer_a Examples.qr1
                (Examples.now + 60000))
         = fst (qr_scan Examples.s1 Examples.organizer_a Examples.qr1
                  (Examples.clock (Examples.now + 60000)))
      /\ snd (qr_scan Examples.s1 Examples.organizer_a Examples.qr1
                (Examples.clock (Examples.now + 60000))) = Examples.s1).
Proof.
  apply (proj2 (validate_read_only Examples.s1 Examples.organizer_a Examples.qr1
                  (Examples.now + 60000))
           (Examples.clock (Examples.now + 60000))).
  reflexivity.
Defined.

(** ** A new claim after a cancelled or expired ticket *)

(** C10: when every ticket the holder has for the event is cancelled or
    expired, the claim is not answered "already claimed"; and if, besides,
    the event is claimable and fewer active tickets than its capacity are out,
    the claim is granted and the new active ticket is stored, provided the
    insertion itself passes (price not negative, no key already taken). *)
Theorem terminal_tickets_do_not_block :
  forall s user eventId ticketId oid clk eid event,
    ObjectId.cast eventId = Some eid ->
    Store.Event_findById s eid = Some event ->
    claimable event (at_check clk) ->
    (forall k, In k (Store.tickets s) ->
       Ticket.event k = eid -> Ticket.user k = User._id user ->
       Ticket.status k = Ticket.cancelled \/ Ticket.status k = Ticket.expired) ->
    fst (claim s user eventId ticketId oid clk) <> AlreadyClaimed
    /\ (active_count s eid < Event.capacity event ->
        let tk := new_ticket user event eid ticketId
                    (qrData_of ticketId eventId (ObjectId.toString (User._id user))
                       (JSDate.toISOString (at_write clk))) oid clk in
        Store.duplicate_key tk (Store.tickets s) = false ->
        Store.price_valid tk = true ->
        claim s user eventId ticketId oid clk
        = (json 201 (Claimed tk),
           Store.with_tickets s (Store.tickets s ++ [tk]))).
Proof.
  intros s user eventId ticketId oid clk eid event Hc He Hcl Hterm.
  pose proof (holds_none s eid (User._id user) Hterm) as Hf.
  split.
  - rewrite (claim_after_guards s user eventId ticketId oid clk eid event Hc He Hcl).
    rewrite Hf.
    destruct (Event.capacity event <=? active_count s eid); [discriminate|].
    destruct (Store.insert_ticket s _); discriminate.
  - intros Hcap tk Hk Hp.
    apply (claim_granted s user eventId ticketId oid clk eid event); trivial.
    now apply count_zero_find.
Qed.

(** Holder 1, whose ticket was cancelled, claims again and gets a ticket. *)
Lemma terminal_tickets_do_not_block_witness :
  code (fst (claim Examples.s1_cancelled Examples.holder1 Examples.concert_id
               Examples.uuid2 Examples.oid2
               (Examples.clock (Examples.now + 120000)))) = 201.
Proof.
  destruct (terminal_tickets_do_not_block Examples.s1_cancelled
              Examples.holder1 Examples.concert_id Examples.uuid2
              Examples.oid2 (Examples.clock (Examples.now + 120000))
              Examples.concert_id Examples.concert) as [_ H].
  - reflexivity.
  - reflexivity.
  - repeat split; vm_compute; congruence.
  - intros k Hk _ _. vm_compute in Hk. destruct Hk as [<-|[]].
    left. reflexivity.
  - rewrite H; reflexivity.
Defined.

End Claims.

(* ------------------------------------------------------------------ *)
(** * Overlapping requests *)

(** The properties above are about requests served one after the other.
    The guards of the handlers are reads followed by an unconditional write,
    and the ticket collection has no unique index on (event, user); when the
    reads of two requests both come before either write, the guards protect
    neither the capacity, nor the one-ticket-per-holder rule, nor the
    redemption. *)
Module Overlap.

Import Routes Engine Interleaving.
Local Open Scope string_scope.
Local Open Scope Z_scope.

(** The two steps, run without anything in between, are the handler. *)
Lemma claim_two_steps s user eventId ticketId oid clk :
  claim s user eventId ticketId oid clk
  = match claim_reads s user eventId ticketId oid clk with
    | inl r => (r, s)
    | inr ticket => claim_write s ticket
    end.
Proof.
  unfold claim, claim_reads, claim_write.
  destruct (negb (ObjectId.isMongoId eventId)); [reflexivity|].
  destruct (ObjectId.cast eventId) as [eid|]; [|reflexivity].
  destruct (Store.Event_findById s eid) as [event|]; [|reflexivity].
  destruct (_ || _); [reflexivity|].
  destruct (Event.date event <? at_check clk); [reflexivity|].
  destruct (Store.findOne _ (Store.tickets s)); [reflexivity|].
  match goal with
  | |- context [Event.capacity event <=? ?n] =>
      destruct (Event.capacity event <=? n); reflexivity
  end.
Qed.

Lemma scan_two_steps s user qrData clk :
  qr_scan s user qrData clk
  = match scan_reads s user qrData clk with
    | inl r => (r, s)
    | inr ticket' => scan_write s ticket'
    end.
Proof.
  unfold qr_scan, scan_reads, scan_write.
  destruct (JSON.parse qrData); [|reflexivity].
  destruct (Store.findOne _ (Store.tickets s)) as [ticket|]; [|reflexivity].
  cbv zeta.
  destruct (organization_differs (populate s ticket) user) as [[|]|];
    try reflexivity.
  destruct (negb (Ticket.status_eqb (Ticket.status ticket) Ticket.active));
    [reflexivity|].
  destruct (populate s ticket) as [[event b]|]; [|reflexivity].
  destruct (Event.date event <? at_check clk); reflexivity.
Qed.

(** Two holders claim the single ticket of the concert at the same time:
    both are granted, and the event has two active tickets. *)
Lemma overlapping_claims_oversell :
  let '(r1, r2, s) :=
    overlapped
      (fun s => claim_reads s Examples.holder1 Examples.concert_id
                  Examples.uuid1 Examples.oid1 (Examples.clock Examples.now))
      (fun s => claim_reads s Examples.holder2 Examples.concert_id
                  Examples.uuid2 Examples.oid2 (Examples.clock Examples.now))
      claim_write Examples.s0 in
  code r1 = 201 /\ code r2 = 201
  /\ well_formed s = true
  /\ active_count s Examples.concert_id = 2
  /\ Event.capacity Examples.concert = 1.
Proof. vm_compute. repeat split. Qed.

(** C2, as the specification words it, fails on the route: the guard is a
    read followed, after an [await], by an insertion that checks nothing,
    and the collection has no unique index on the event and the holder.  One
    holder, who has no ticket, sends the claim twice at the same time: both
    claims are granted, and the holder has two active tickets for the
    concert. *)
Lemma overlapping_claims_duplicate :
  holds Examples.s0 Examples.concert_id (User._id Examples.holder1) = 0
  /\ let '(r1, r2, s) :=
       overlapped
         (fun s => claim_reads s Examples.holder1 Examples.concert_id
                     Examples.uuid1 Examples.oid1 (Examples.clock Examples.now))
         (fun s => claim_reads s Examples.holder1 Examples.concert_id
                     Examples.uuid2 Examples.oid2
                     (Examples.clock (Examples.now + 5)))
         claim_write Examples.s0 in
     code r1 = 201 /\ code r2 = 201
     /\ r1 <> AlreadyClaimed /\ r2 <> AlreadyClaimed
     /\ well_formed s = true
     /\ holds s Examples.concert_id (User._id Examples.holder1) = 2.
Proof. vm_compute. repeat split; discriminate. Qed.

(** C3, as the specification words it, fails on the route: the status the
    scan tests was read before the [await] of the save, and the save is
    unconditional.  The active ticket of holder 1 is scanned at two gates at
    the same time: both scans answer with success, neither with "not
    valid", and the ticket is stored as the second save left it. *)
Lemma overlapping_scans_both_succeed :
  Store.tickets Examples.s1 = [Examples.ticket1]
  /\ Ticket.status Examples.ticket1 = Ticket.active
  /\ let '(r1, r2, s) :=
       overlapped
         (fun s => scan_reads s Examples.organizer_a Examples.qr1
                     (Examples.clock (Examples.now + 60000)))
         (fun s => scan_reads s Examples.organizer_a Examples.qr1
                     (Examples.clock (Examples.now + 60003)))
         scan_write Examples.s1 in
     code r1 = 200 /\ code r2 = 200
     /\ Store.tickets s
        = [mark_used Examples.ticket1 Examples.organizer_a
             (Examples.clock (Examples.now + 60003))].
Proof. vm_compute. repeat split. Qed.

End Overlap.

(* ------------------------------------------------------------------ *)
(** * The other routes *)

(** ** Sorting, finding and replacing, once more *)

Module MoreFacts.

Import Routes Engine StoreFacts HandlerFacts Invariants LookupFacts.
Local Open Scope Z_scope.

Section Sorting.
Context {A : Type} (key : A -> Z).

Lemma insert_desc_perm (x : A) (l : list A) :
  Permutation (SortDesc.insert_desc key x l) (x :: l).
Proof.
  induction l as [|y l IH]; cbn [SortDesc.insert_desc]; [reflexivity|].
  destruct (key y <=? key x); [reflexivity|].
  rewrite IH. apply perm_swap.
Qed.

Lemma sort_desc_perm (l : list A) : Permutation (SortDesc.sort_desc key l) l.
Proof.
  induction l as [|x l IH]; cbn [SortDesc.sort_desc]; [reflexivity|].
  rewrite insert_desc_perm. now constructor.
Qed.

Lemma insert_desc_sorted (x : A) (l : list A) :
  StronglySorted (fun a b => key b <= key a) l ->
  StronglySorted (fun a b => key b <= key a) (SortDesc.insert_desc key x l).
Proof.
  induction l as [|y l IH]; cbn [SortDesc.insert_desc]; intros Hs.
  - repeat constructor.
  - inversion Hs as [|? ? Hl Hy]; subst.
    destruct (key y <=? key x) eqn:E.
    + apply Z.leb_le in E. constructor; [assumption|].
      constructor; [assumption|].
      eapply Forall_impl; [|exact Hy]. cbn. intros b Hb. lia.
    + apply Z.leb_gt in E. constructor; [now apply IH|].
      eapply Permutation_Forall;
        [symmetry; apply insert_desc_perm|].
      constructor; [lia | assumption].
Qed.

Lemma sort_desc_sorted (l : list A) :
  StronglySorted (fun a b => key b <= key a) (SortDesc.sort_desc key l).
Proof.
  induction l as [|x l IH]; cbn [SortDesc.sort_desc]; [constructor|].
  now apply insert_desc_sorted.
Qed.

Lemma sort_desc_In (l : list A) (x : A) :
  In x (SortDesc.sort_desc key l) <-> In x l.
Proof.
  split; apply Permutation_in;
    [apply sort_desc_perm | symmetry; apply sort_desc_perm].
Qed.

Lemma sort_desc_length (l : list A) :
  List.length (SortDesc.sort_desc key l) = List.length l.
Proof. apply Permutation_length, sort_desc_perm. Qed.
End Sorting.

Lemma find_ticket_by_id_unique (l : list Ticket.t) (k : Ticket.t) :
  NoDup (map Ticket._id l) -> In k l ->
  Store.findOne (fun d => ObjectId.eqb (Ticket._id d) (Ticket._id k)) l = Some k.
Proof.
  intros Hnd Hin. unfold Store.findOne.
  destruct (find _ l) as [d|] eqn:Hf.
  - apply find_some in Hf as [Hin' E]. apply oid_eqb_eq in E.
    f_equal. now apply (NoDup_key_inj Ticket._id l).
  - apply find_none with (x := k) in Hf; [|assumption].
    now rewrite oid_eqb_refl in Hf.
Qed.

(** After the first document with an [_id] is deleted from a collection
    without repeated [_id]s, none is found under it. *)
Lemma find_after_deleteOne (l : list Event.t) (eid : ObjectId.t) :
  NoDup (map Event._id l) ->
  Store.findOne (fun e => ObjectId.eqb (Event._id e) eid)
    (deleteOne (fun e => ObjectId.eqb (Event._id e) eid) l) = None.
Proof.
  unfold Store.findOne. induction l as [|d l IH]; [reflexivity|].
  cbn [map deleteOne]. intros Hnd. inversion Hnd as [|? ? Hd Hl]; subst.
  destruct (ObjectId.eqb (Event._id d) eid) eqn:E.
  - apply oid_eqb_eq in E. subst eid.
    destruct (find _ l) as [e|] eqn:Hf; [|reflexivity].
    apply find_some in Hf as [Hin E]. apply oid_eqb_eq in E.
    exfalso. apply Hd. rewrite <- E. now apply in_map.
  - cbn [find]. rewrite E. now apply IH.
Qed.

Lemma find_deleteOne_other {A} (f g : A -> bool) (l : list A) :
  (forall d, In d l -> g d = true -> f d = false) ->
  Store.findOne f (deleteOne g l) = Store.findOne f l.
Proof.
  unfold Store.findOne. induction l as [|d l IH]; [reflexivity|].
  intros H. cbn [deleteOne find].
  destruct (g d) eqn:Eg.
  - now rewrite (H d (or_introl eq_refl) Eg).
  - cbn [find]. destruct (f d); [reflexivity|].
    apply IH. intros x Hx. apply H. now right.
Qed.

(** [findByIdAndUpdate] and a later [findById]. *)
Lemma find_update_first {A} (f : A -> bool) (g : A -> A) (l : list A) :
  (forall d, f (g d) = f d) ->
  Store.findOne f (AdminRoutes.update_first f g l)
  = option_map g (Store.findOne f l).
Proof.
  unfold Store.findOne. intros H. induction l as [|d l IH]; [reflexivity|].
  cbn [AdminRoutes.update_first find].
  destruct (f d) eqn:E; cbn [find].
  - now rewrite H, E.
  - now rewrite E.
Qed.

Lemma find_update_first_other {A} (f h : A -> bool) (g : A -> A) (l : list A) :
  (forall d, h (g d) = h d) ->
  (forall d, f d = true -> h d = false) ->
  Store.findOne h (AdminRoutes.update_first f g l) = Store.findOne h l.
Proof.
  unfold Store.findOne. intros H1 H2. induction l as [|d l IH]; [reflexivity|].
  cbn [AdminRoutes.update_first find].
  destruct (f d) eqn:E; cbn [find].
  - now rewrite H1, (H2 d E).
  - now rewrite IH.
Qed.

Lemma find_snoc {A} (f : A -> bool) (l : list A) (x : A) :
  Store.findOne f (l ++ [x])
  = match Store.findOne f l with
    | Some d => Some d
    | None => if f x then Some x else None
    end.
Proof.
  unfold Store.findOne. induction l as [|d l IH]; cbn [app find];
    [reflexivity|].
  destruct (f d); [reflexivity | assumption].
Qed.

Lemma count_split {A} (f g : A -> bool) (l : list A) :
  Store.countDocuments f l
  = Store.countDocuments (fun d => f d && g d) l
    + Store.countDocuments (fun d => f d && negb (g d)) l.
Proof.
  induction l as [|d l IH]; [reflexivity|].
  rewrite !count_cons, IH. destruct (f d), (g d); cbn [andb negb]; lia.
Qed.

Lemma find_filter_keep {A} (f h : A -> bool) (l : list A) (k : A) :
  Store.findOne f l = Some k -> h k = true ->
  Store.findOne f (List.filter h l) = Some k.
Proof.
  unfold Store.findOne. induction l as [|d l IH]; [discriminate|].
  cbn [find filter]. intros Hf Hk.
  destruct (f d) eqn:E.
  - injection Hf as ->. rewrite Hk. cbn [find]. now rewrite E.
  - destruct (h d); [cbn [find]; rewrite E|]; now apply IH.
Qed.

Lemma find_filter_none {A} (f h : A -> bool) (l : list A) :
  Store.findOne f l = None -> Store.findOne f (List.filter h l) = None.
Proof.
  unfold Store.findOne. intros Hf.
  destruct (find f (List.filter h l)) as [d|] eqn:E; [|reflexivity].
  apply find_some in E as [Hin Hd]. apply filter_In in Hin as [Hin _].
  apply find_none with (x := d) in Hf; [congruence | assumption].
Qed.

(** A document found under a unique key is not found once the documents
    of a filter it passes are deleted. *)
Lemma find_qr_deleted (l : list Ticket.t) (g : Ticket.t -> bool) q k :
  NoDup (map Ticket.qrCode l) ->
  Store.findOne (fun d => String.eqb (Ticket.qrCode d) q) l = Some k ->
  g k = true ->
  Store.findOne (fun d => String.eqb (Ticket.qrCode d) q) (Store.deleteMany g l)
  = None.
Proof.
  unfold Store.findOne, Store.deleteMany. intros Hnd Hf Hg.
  destruct (find _ (List.filter _ l)) as [d|] eqn:E; [|reflexivity].
  apply find_some in E as [Hin Hd]. apply filter_In in Hin as [Hin Hn].
  apply find_some in Hf as [Hk Hq].
  apply String.eqb_eq in Hd, Hq.
  assert (d = k)
    by (apply (NoDup_key_inj Ticket.qrCode l); congruence).
  subst d. now rewrite Hg in Hn.
Qed.

(** The redeeming routes on a ticket whose event is gone: the dereference
    of the populated event throws. *)
Lemma scan_dangling s user q clk k :
  JSON.parse q <> None ->
  Store.findOne (fun d => String.eqb (Ticket.qrCode d) q) (Store.tickets s)
  = Some k ->
  Store.Event_findById s (Ticket.event k) = None ->
  qr_scan s user q clk = (server_error, s)
  /\ qr_validate s user q (at_check clk) = (server_error, s)
  /\ tickets_validate s user q (at_check clk) = (server_error, s).
Proof.
  intros Hp Hf He. unfold qr_scan, qr_validate, tickets_validate.
  destruct (JSON.parse q); [|congruence].
  rewrite Hf. cbv zeta. unfold populate. rewrite He. cbn. auto.
Qed.

Lemma find_key_deleted {A} (key : A -> string) (f g : A -> bool) (l : list A)
    (q : string) (k : A) :
  (forall d, f d = true -> key d = q) ->
  NoDup (map key l) ->
  Store.findOne f l = Some k -> g k = true ->
  Store.findOne f (Store.deleteMany g l) = None.
Proof.
  unfold Store.findOne, Store.deleteMany. intros Hkey Hnd Hf Hg.
  destruct (find f (List.filter _ l)) as [d|] eqn:E; [|reflexivity].
  apply find_some in E as [Hin Hd]. apply filter_In in Hin as [Hin Hn].
  apply find_some in Hf as [Hk Hq].
  apply Hkey in Hd, Hq.
  assert (d = k) by (apply (NoDup_key_inj key l); congruence).
  subst d. now rewrite Hg in Hn.
Qed.

Lemma find_key_after_deleteOne {A} (key : A -> string) (l : list A) (x : string) :
  NoDup (map key l) ->
  Store.findOne (fun d => ObjectId.eqb (key d) x)
    (deleteOne (fun d => ObjectId.eqb (key d) x) l) = None.
Proof.
  unfold Store.findOne. induction l as [|d l IH]; [reflexivity|].
  cbn [map deleteOne]. intros Hnd. inversion Hnd as [|? ? Hd Hl]; subst.
  destruct (ObjectId.eqb (key d) x) eqn:E.
  - apply oid_eqb_eq in E. subst x.
    destruct (find _ l) as [e|] eqn:Hf; [|reflexivity].
    apply find_some in Hf as [Hin E]. apply oid_eqb_eq in E.
    exfalso. apply Hd. rewrite <- E. now apply in_map.
  - cbn [find]. rewrite E. now apply IH.
Qed.

Lemma deleteMany_In {A} (g : A -> bool) (l : list A) (x : A) :
  In x (Store.deleteMany g l) <-> In x l /\ g x = false.
Proof.
  unfold Store.deleteMany. rewrite filter_In, negb_true_iff. tauto.
Qed.

(** A scan reads the store through the tickets, the organizations, and
    the date and organization of the event of the ticket. *)
Lemma qr_scan_same_view s s' scanner q clk :
  Store.tickets s' = Store.tickets s ->
  Store.organizations s' = Store.organizations s ->
  (forall x,
     option_map (fun e => (Event.date e, Event.organization e))
       (Store.Event_findById s' x)
     = option_map (fun e => (Event.date e, Event.organization e))
         (Store.Event_findById s x)) ->
  fst (qr_scan s' scanner q clk) = fst (qr_scan s scanner q clk)
  /\ Store.tickets (snd (qr_scan s' scanner q clk))
     = Store.tickets (snd (qr_scan s scanner q clk)).
Proof.
  intros Ht Ho Hev. unfold qr_scan.
  destruct (JSON.parse q); [|now split].
  rewrite Ht.
  destruct (Store.findOne _ (Store.tickets s)) as [k|]; [|now split].
  cbv zeta. unfold populate. specialize (Hev (Ticket.event k)).
  destruct (Store.Event_findById s' (Ticket.event k)) as [e'|],
           (Store.Event_findById s (Ticket.event k)) as [e|];
    cbn [option_map] in Hev; try discriminate; [|now split].
  injection Hev as Hd Hg.
  unfold Store.Organization_exists. rewrite Ho, Hg.
  destruct (existsb _ _); cbn [organization_differs]; [|now split].
  destruct (User.organization scanner); [|now split]. rewrite Hg.
  destruct (negb (String.eqb _ _)); [now split|].
  destruct (negb (Ticket.status_eqb _ _)); [now split|].
  rewrite Hd. destruct (_ <? _); [now split|].
  cbn [fst snd]. split; [reflexivity|].
  cbn [Store.update_ticket Store.with_tickets Store.tickets]. now rewrite Ht.
Qed.

(** [findByIdAndUpdate] of an event, and a later [findById] of any. *)
Lemma change_event_find s id eid event change done other :
  (forall e, Event._id (change e) = Event._id e) ->
  ObjectId.cast id = Some eid ->
  Store.Event_findById s eid = Some event ->
  Store.Event_findById (snd (AdminRoutes.change_event s id change done)) other
  = option_map (fun e => if ObjectId.eqb other eid then change e else e)
      (Store.Event_findById s other).
Proof.
  intros Hid Hc He. unfold AdminRoutes.change_event. rewrite Hc, He.
  cbn [snd]. unfold Store.Event_findById. cbn [Store.events].
  destruct (ObjectId.eqb other eid) eqn:E.
  - apply oid_eqb_eq in E. subst other.
    apply find_update_first. intros d. now rewrite Hid.
  - rewrite find_update_first_other.
    + now destruct (Store.findOne _ _).
    + intros d. now rewrite Hid.
    + intros d Hd. apply oid_eqb_eq in Hd. rewrite Hd.
      apply oid_eqb_neq. apply oid_eqb_neq in E. congruence.
Qed.

(** [event.save()] of a modified event, and a later [findById] of any. *)
Lemma find_save_event s e' other :
  Store.Event_findById (EventRoutes.save_event s e') other
  = if ObjectId.eqb other (Event._id e')
    then option_map (fun _ => e') (Store.Event_findById s other)
    else Store.Event_findById s other.
Proof.
  unfold Store.Event_findById, Store.findOne, EventRoutes.save_event.
  cbn [Store.events].
  destruct (ObjectId.eqb other (Event._id e')) eqn:Eo.
  - apply oid_eqb_eq in Eo. subst other.
    induction (Store.events s) as [|d l IH]; [reflexivity|].
    cbn [map find].
    destruct (ObjectId.eqb (Event._id d) (Event._id e')) eqn:Ed.
    + now rewrite oid_eqb_refl.
    + now rewrite Ed.
  - induction (Store.events s) as [|d l IH]; [reflexivity|].
    cbn [map find].
    destruct (ObjectId.eqb (Event._id d) (Event._id e')) eqn:Ed.
    + apply oid_eqb_eq in Ed. rewrite Ed.
      assert (E : ObjectId.eqb (Event._id e') other = false).
      { apply oid_eqb_neq. apply oid_eqb_neq in Eo. congruence. }
      now rewrite E.
    + now rewrite IH.
Qed.

Lemma update_event_accepted s user id b eid event :
  ObjectId.cast id = Some eid ->
  Store.Event_findById s eid = Some event ->
  Event.createdBy event = User._id user ->
  EventRoutes.numbers_ok b = true ->
  EventRoutes.status_ok b = true ->
  EventRoutes.schema_ok (EventRoutes.assign event b) = true ->
  EventRoutes.update_event s user id b
  = (Reply.Sent 200 (EventRoutes.assign event b),
     EventRoutes.save_event s (EventRoutes.assign event b))
  /\ Store.Event_findById
       (EventRoutes.save_event s (EventRoutes.assign event b)) eid
     = Some (EventRoutes.assign event b).
Proof.
  intros Hc He Hby Hn Hst Hsc. split.
  - unfold EventRoutes.update_event. rewrite Hn, Hst, Hc, He, Hby, Hsc.
    unfold ObjectId.toString. now rewrite String.eqb_refl.
  - rewrite find_save_event. cbn [EventRoutes.assign Event._id].
    assert (Eid : Event._id event = eid).
    { apply find_some in He as [_ E]. now apply oid_eqb_eq in E. }
    now rewrite Eid, oid_eqb_refl, He.
Qed.

(** *** Pages *)

Lemma firstn_In {A} (n : nat) (l : list A) (x : A) :
  In x (firstn n l) -> In x l.
Proof.
  intros H. rewrite <- (firstn_skipn n l). apply in_or_app. now left.
Qed.

Lemma skipn_In {A} (n : nat) (l : list A) (x : A) :
  In x (skipn n l) -> In x l.
Proof.
  intros H. rewrite <- (firstn_skipn n l). apply in_or_app. now right.
Qed.

Section Pages.
Context {A : Type} (docs : list A) (find : JSNumber.t -> Z -> option (list A))
  (page limit : Z) (pg : Paging.Page A).
Hypothesis Hfind : Paging.answers docs find.
Hypothesis Hbound : page * limit <= 2 ^ 53.
Hypothesis Hlen : Z.of_nat (List.length docs) <= 2 ^ 53.
Hypothesis Hpage :
  Paging.list_page find (Z.of_nat (List.length docs)) page limit
  = Reply.Sent 200 pg.

Lemma list_page_valid : 1 <= page /\ 1 <= limit <= 100.
Proof.
  unfold Paging.list_page in Hpage.
  destruct ((1 <=? page) && (1 <=? limit) && (limit <=? 100)) eqn:E;
    [|discriminate].
  apply andb_true_iff in E as [E E3]. apply andb_true_iff in E as [E1 E2].
  lia.
Qed.

(** Within the bounds the skip of the route is the exact product. *)
Lemma list_page_skip :
  JSNumber.mul (JSNumber.sub (JSNumber.of_Z page) (JSNumber.Finite 1))
    (JSNumber.of_Z limit)
  = JSNumber.Finite ((page - 1) * limit)
  /\ 0 <= (page - 1) * limit <= 2 ^ 53
  /\ JSNumber.of_Z page = JSNumber.Finite page.
Proof.
  destruct list_page_valid as [Hp Hl].
  assert (H53 : 2 ^ 53 = 9007199254740992) by reflexivity.
  assert (Hpl : page <= 2 ^ 53) by nia.
  rewrite (NumberFacts.of_Z_exact page) by lia.
  rewrite (NumberFacts.of_Z_exact limit) by lia.
  rewrite NumberFacts.sub_exact by lia.
  rewrite NumberFacts.mul_exact by nia.
  repeat split; nia.
Qed.

Lemma list_page_fields :
  Paging.items pg
  = firstn (Z.to_nat limit) (skipn (Z.to_nat ((page - 1) * limit)) docs)
  /\ Paging.currentPage pg = JSNumber.Finite page
  /\ Paging.totalPages pg
     = JSNumber.ceil_quot (Z.of_nat (List.length docs)) limit
  /\ Paging.total pg = Z.of_nat (List.length docs)
  /\ Paging.hasNext pg
     = ((page - 1) * limit + Z.of_nat (List.length (Paging.items pg))
        <? Z.of_nat (List.length docs))
  /\ Paging.hasPrev pg = (1 <? page).
Proof.
  destruct list_page_valid as [Hp Hl].
  destruct list_page_skip as (Hskip & Hs & Hnum).
  unfold Paging.list_page in Hpage.
  destruct (negb _); [discriminate|].
  rewrite Hskip, Hnum, (Hfind _ limit Hs) in Hpage. injection Hpage as <-.
  cbn [Paging.items Paging.currentPage Paging.totalPages Paging.total
       Paging.hasNext Paging.hasPrev].
  repeat split.
  pose proof (firstn_le_length (Z.to_nat limit)
                (skipn (Z.to_nat ((page - 1) * limit)) docs)) as Hle.
  rewrite NumberFacts.of_Z_exact; [reflexivity|]. nia.
Qed.

Lemma list_page_length : Z.of_nat (List.length (Paging.items pg)) <= limit.
Proof.
  destruct list_page_valid as [_ Hl]. destruct list_page_fields as (-> & _).
  pose proof (firstn_le_length (Z.to_nat limit)
                (skipn (Z.to_nat ((page - 1) * limit)) docs)).
  lia.
Qed.

Lemma list_page_total :
  (Paging.totalPages pg - 1) * limit < Paging.total pg
  <= Paging.totalPages pg * limit.
Proof.
  destruct list_page_valid as [_ Hl].
  destruct list_page_fields as (_ & _ & -> & -> & _).
  apply NumberFacts.ceil_quot_bounds; lia.
Qed.

Lemma list_page_hasNext :
  Paging.hasNext pg = (page <? Paging.totalPages pg).
Proof.
  destruct list_page_valid as [Hp Hl].
  pose proof list_page_total as Ht.
  destruct list_page_fields as (Hi & _ & _ & Etotal & -> & _).
  rewrite Etotal in Ht.
  rewrite Hi, length_firstn, length_skipn.
  assert (Hs : 0 <= (page - 1) * limit) by nia.
  assert (E : page * limit = (page - 1) * limit + limit) by ring.
  set (skip := (page - 1) * limit) in *.
  set (tp := Paging.totalPages pg) in *.
  destruct (Z.ltb_spec page tp);
    [apply Z.ltb_lt | apply Z.ltb_ge]; nia.
Qed.

Lemma list_page_nth (i : nat) (d : A) :
  nth_error docs i = Some d ->
  page = Z.of_nat i / limit + 1 ->
  nth_error (Paging.items pg) (Z.to_nat (Z.of_nat i mod limit)) = Some d.
Proof.
  intros Hn Hp. destruct list_page_valid as [_ Hl].
  destruct list_page_fields as (-> & _).
  rewrite nth_error_firstn, nth_error_skipn.
  pose proof (Z.mod_pos_bound (Z.of_nat i) limit ltac:(lia)) as Hm.
  pose proof (Z.div_mod (Z.of_nat i) limit ltac:(lia)) as Hd.
  pose proof (Z.div_pos (Z.of_nat i) limit ltac:(lia) ltac:(lia)) as Hq.
  assert (E1 : (Z.to_nat (Z.of_nat i mod limit) <? Z.to_nat limit)%nat = true)
    by (apply Nat.ltb_lt; lia).
  rewrite E1.
  replace (Z.to_nat ((page - 1) * limit) + Z.to_nat (Z.of_nat i mod limit))%nat
    with i; [assumption|].
  rewrite Hp.
  replace ((Z.of_nat i / limit + 1 - 1) * limit)
    with (limit * (Z.of_nat i / limit)) by ring.
  assert (0 <= limit * (Z.of_nat i / limit)) by nia.
  lia.
Qed.

Lemma list_page_beyond :
  Paging.totalPages pg < page -> Paging.items pg = [].
Proof.
  destruct list_page_valid as [Hp Hl].
  pose proof list_page_total as Ht.
  destruct list_page_fields as (-> & _ & _ & Etotal & _).
  rewrite Etotal in Ht. intros Hlt.
  rewrite skipn_all2; [apply firstn_nil|]. nia.
Qed.
End Pages.

(** The database of the examples answers as [Paging.answers] wants. *)
Lemma in_memory_answers {A} (docs : list A) :
  Paging.answers docs (MoreExamples.in_memory docs).
Proof.
  intros skip limit Hs. unfold MoreExamples.in_memory.
  assert (E : (0 <=? skip) = true) by (apply Z.leb_le; lia).
  now rewrite E.
Qed.

Lemma filter_length_split {A} (f : A -> bool) (l : list A) :
  (List.length (List.filter f l)
   + List.length (List.filter (fun d => negb (f d)) l))%nat = List.length l.
Proof.
  induction l as [|d l IH]; [reflexivity|].
  cbn [filter]. destruct (f d); cbn [negb List.length]; lia.
Qed.

(** *** Where a stored ticket comes from *)

Lemma ticket_after_step s r k' :
  In k' (Store.tickets (Engine.step s r)) ->
  In k' (Store.tickets s)
  \/ (exists user event eid ticketId eventId oid clk,
        ObjectId.cast eventId = Some eid
        /\ k' = new_ticket user event eid ticketId
                  (qrData_of ticketId eventId
                     (ObjectId.toString (User._id user))
                     (JSDate.toISOString (at_write clk))) oid clk)
  \/ (exists k user clk,
        In k (Store.tickets s) /\ Ticket.status k = Ticket.active
        /\ k' = mark_used k user clk).
Proof.
  assert (Hred : forall k user clk,
            In k (Store.tickets s) -> Ticket.status k = Ticket.active ->
            In k' (Store.tickets (Store.update_ticket s (mark_used k user clk))) ->
            In k' (Store.tickets s)
            \/ (exists user event eid ticketId eventId oid clk,
                  ObjectId.cast eventId = Some eid
                  /\ k' = new_ticket user event eid ticketId
                            (qrData_of ticketId eventId
                               (ObjectId.toString (User._id user))
                               (JSDate.toISOString (at_write clk))) oid clk)
            \/ (exists k user clk,
                  In k (Store.tickets s) /\ Ticket.status k = Ticket.active
                  /\ k' = mark_used k user clk)).
  { intros k user clk Hk Hs Hin.
    cbn [Store.update_ticket Store.with_tickets Store.tickets] in Hin.
    apply in_map_iff in Hin as (d & E & Hd).
    destruct (ObjectId.eqb (Ticket._id d) _).
    - right; right. exists k, user, clk. auto.
    - left. now subst. }
  unfold Engine.step.
  destruct r as [user eventId ticketId oid clk | user qrData now
    | user qrData now | user qrData clk | user id clk | id | id];
    cbn [Engine.handle].
  - destruct (claim_cases s user eventId ticketId oid clk)
      as [[E _] | (eid & event & Hc & _ & _ & _ & _ & _ & _ & E)];
      rewrite E; cbn [snd]; [now left|].
    cbn [Store.with_tickets Store.tickets]. intros Hin.
    apply in_app_or in Hin as [Hin|[<-|[]]]; [now left|].
    right; left. now exists user, event, eid, ticketId, eventId, oid, clk.
  - rewrite qr_validate_read_only. now left.
  - rewrite tickets_validate_read_only. now left.
  - destruct (qr_scan_cases s user qrData clk)
      as [[E _] | (ticket & event & _ & Hf & _ & _ & _ & Hs & _ & E)];
      rewrite E; cbn [snd]; [now left|].
    apply Hred; [|assumption]. apply find_some in Hf. tauto.
  - destruct (tickets_use_cases s user id clk)
      as [[E _] | (tid & ticket & event & _ & Hf & _ & _ & Hs & E)];
      rewrite E; cbn [snd]; [now left|].
    apply Hred; [|assumption]. apply find_some in Hf. tauto.
  - unfold admin_delete_event.
    destruct (ObjectId.cast id) as [eid|]; [|now left].
    destruct (Store.Event_findById s eid); [|now left].
    cbn [snd Store.tickets]. intros Hin. left.
    eapply deleteMany_incl. exact Hin.
  - unfold admin_delete_user.
    destruct (ObjectId.cast id) as [uid|]; [|now left].
    destruct (Store.User_findById s uid); [|now left].
    cbn [snd Store.tickets]. intros Hin. left.
    eapply deleteMany_incl. exact Hin.
Qed.

(** The routes of the events and of the moderation write no ticket. *)
Lemma event_routes_keep_tickets s r :
  match r with Backend.Tickets _ => False | _ => True end ->
  Store.tickets (Backend.step s r) = Store.tickets s.
Proof.
  destruct r as [r | user b oid | user id b | user id | id v | id v | id];
    [contradiction | | | | | |]; intros _; cbn [Backend.step].
  - unfold EventRoutes.create_event.
    destruct (EventRoutes.date b), (EventRoutes.ticketType b),
      (EventRoutes.capacity b); try reflexivity.
    destruct (negb (EventRoutes.numbers_ok b)); [reflexivity|].
    destruct (User.organization user); [|reflexivity].
    destruct (negb (EventRoutes.schema_ok _)); [reflexivity|].
    now destruct (existsb _ _).
  - unfold EventRoutes.update_event.
    destruct (negb _); [reflexivity|].
    destruct (ObjectId.cast id); [|reflexivity].
    destruct (Store.Event_findById s _); [|reflexivity].
    destruct (negb _); [reflexivity|]. now destruct (EventRoutes.schema_ok _).
  - unfold EventRoutes.delete_event.
    destruct (ObjectId.cast id); [|reflexivity].
    destruct (Store.Event_findById s _); [|reflexivity].
    now destruct (negb _).
  - unfold AdminRoutes.approve_event, AdminRoutes.change_event.
    destruct (ObjectId.cast id); [|reflexivity].
    now destruct (Store.Event_findById s _).
  - unfold AdminRoutes.set_event_status, AdminRoutes.change_event.
    destruct (ObjectId.cast id); [|reflexivity].
    now destruct (Store.Event_findById s _).
  - unfold AdminRoutes.delete_organization.
    destruct (ObjectId.cast id); [|reflexivity].
    now destruct (negb _).
Qed.

Lemma ticket_after_backend_step s r k' :
  In k' (Store.tickets (Backend.step s r)) ->
  In k' (Store.tickets s)
  \/ (exists user event eid ticketId eventId oid clk,
        ObjectId.cast eventId = Some eid
        /\ k' = new_ticket user event eid ticketId
                  (qrData_of ticketId eventId
                     (ObjectId.toString (User._id user))
                     (JSDate.toISOString (at_write clk))) oid clk)
  \/ (exists k user clk,
        In k (Store.tickets s) /\ Ticket.status k = Ticket.active
        /\ k' = mark_used k user clk).
Proof.
  destruct r as [r | | | | | |];
    [apply ticket_after_step | | | | | |];
    (rewrite event_routes_keep_tickets; [now left | exact I]).
Qed.

(** An invariant of the tickets that every step keeps holds after every
    run. *)
Lemma backend_run_tickets (P : Ticket.t -> Prop) :
  (forall user event eid ticketId eventId oid clk,
     ObjectId.cast eventId = Some eid ->
     P (new_ticket user event eid ticketId
          (qrData_of ticketId eventId (ObjectId.toString (User._id user))
             (JSDate.toISOString (at_write clk))) oid clk)) ->
  (forall k user clk,
     P k -> Ticket.status k = Ticket.active -> P (mark_used k user clk)) ->
  forall rs s,
    (forall k, In k (Store.tickets s) -> P k) ->
    forall k, In k (Store.tickets (Backend.run s rs)) -> P k.
Proof.
  intros Hnew Hused. induction rs as [|r rs IH]; intros s Hs; [exact Hs|].
  cbn [Backend.run]. apply IH. intros k Hin.
  destruct (ticket_after_backend_step s r k Hin)
    as [H | [(u & e & eid & t & x & o & c & Hc & ->)
            | (k0 & u & c & H0 & Hs0 & ->)]]; auto.
Qed.

Lemma map_key_update_first {A} (key : A -> string) (f : A -> bool)
    (g : A -> A) (l : list A) :
  (forall d, key (g d) = key d) ->
  map key (AdminRoutes.update_first f g l) = map key l.
Proof.
  intros H. induction l as [|d l IH]; [reflexivity|].
  cbn [AdminRoutes.update_first]. destruct (f d); cbn [map].
  - now rewrite H.
  - now rewrite IH.
Qed.

(** Every writing route keeps the keys of the collections unique. *)
Lemma well_formed_backend_step s r :
  well_formed s = true -> well_formed (Backend.step s r) = true.
Proof.
  intros Hwf.
  destruct r as [r | user b oid | user id b | user id | id v | id v | id].
  - cbn [Backend.step].
    eapply well_formed_effect; [apply handle_effect | assumption].
  - pose proof (event_routes_keep_tickets s (Backend.CreateEvent user b oid) I)
      as Ht.
    apply well_formed_spec in Hwf as (H1 & H2 & H3 & H4).
    apply well_formed_spec. rewrite Ht. repeat split; trivial.
    cbn [Backend.step]. unfold EventRoutes.create_event.
    destruct (EventRoutes.date b), (EventRoutes.ticketType b),
      (EventRoutes.capacity b); trivial.
    destruct (negb (EventRoutes.numbers_ok b)); trivial.
    destruct (User.organization user); trivial.
    destruct (negb (EventRoutes.schema_ok _)); trivial.
    destruct (existsb _ _) eqn:Hex; trivial.
    cbn [snd Store.events]. apply NoDup_key_snoc; [assumption|].
    cbn [Event._id]. intros Hin. apply in_map_iff in Hin as (d & Hd & Hin).
    assert (existsb (fun e => ObjectId.eqb (Event._id e) oid) (Store.events s)
            = true).
    { apply existsb_exists. exists d. split; [assumption|].
      now apply oid_eqb_eq. }
    congruence.
  - pose proof (event_routes_keep_tickets s (Backend.UpdateEvent user id b) I)
      as Ht.
    apply well_formed_spec in Hwf as (H1 & H2 & H3 & H4).
    apply well_formed_spec. rewrite Ht. repeat split; trivial.
    cbn [Backend.step]. unfold EventRoutes.update_event.
    destruct (negb _); trivial.
    destruct (ObjectId.cast id); trivial.
    destruct (Store.Event_findById s _); trivial.
    destruct (negb _); trivial.
    destruct (EventRoutes.schema_ok _); trivial.
    cbn [snd EventRoutes.save_event Store.events].
    apply NoDup_key_map; [|assumption].
    intros d _. destruct (ObjectId.eqb _ _) eqn:E; [|reflexivity].
    apply oid_eqb_eq in E. now rewrite E.
  - pose proof (event_routes_keep_tickets s (Backend.DeleteEvent user id) I)
      as Ht.
    apply well_formed_spec in Hwf as (H1 & H2 & H3 & H4).
    apply well_formed_spec. rewrite Ht. repeat split; trivial.
    cbn [Backend.step]. unfold EventRoutes.delete_event.
    destruct (ObjectId.cast id); trivial.
    destruct (Store.Event_findById s _); trivial.
    destruct (negb _); trivial.
    cbn [snd Store.events]. now apply NoDup_key_deleteOne.
  - pose proof (event_routes_keep_tickets s (Backend.ApproveEvent id v) I)
      as Ht.
    apply well_formed_spec in Hwf as (H1 & H2 & H3 & H4).
    apply well_formed_spec. rewrite Ht. repeat split; trivial.
    cbn [Backend.step].
    unfold AdminRoutes.approve_event, AdminRoutes.change_event.
    destruct (ObjectId.cast id); trivial.
    destruct (Store.Event_findById s _); trivial.
    cbn [snd Store.events]. now rewrite map_key_update_first.
  - pose proof (event_routes_keep_tickets s (Backend.SetEventStatus id v) I)
      as Ht.
    apply well_formed_spec in Hwf as (H1 & H2 & H3 & H4).
    apply well_formed_spec. rewrite Ht. repeat split; trivial.
    cbn [Backend.step].
    unfold AdminRoutes.set_event_status, AdminRoutes.change_event.
    destruct (ObjectId.cast id); trivial.
    destruct (Store.Event_findById s _); trivial.
    cbn [snd Store.events]. now rewrite map_key_update_first.
  - pose proof (event_routes_keep_tickets s (Backend.DeleteOrganization id) I)
      as Ht.
    apply well_formed_spec in Hwf as (H1 & H2 & H3 & H4).
    apply well_formed_spec. rewrite Ht. repeat split; trivial.
    cbn [Backend.step]. unfold AdminRoutes.delete_organization.
    destruct (ObjectId.cast id); trivial.
    destruct (negb _); trivial.
    cbn [snd Store.events]. now apply NoDup_key_filter.
Qed.

Lemma one_per_holder_backend_step s r :
  well_formed s = true -> one_per_holder s ->
  one_per_holder (Backend.step s r).
Proof.
  intros Hwf Hinv. destruct r as [r | | | | | |];
    [cbn [Backend.step]; eapply one_per_holder_effect;
     [apply handle_effect | assumption | assumption] | | | | | |];
    (intros eid uid; unfold holds;
     rewrite event_routes_keep_tickets by exact I; apply Hinv).
Qed.

(** *** The handlers cut in two *)

Lemma claim_reads_granted s user eventId ticketId oid clk eid event :
  ObjectId.cast eventId = Some eid ->
  Store.Event_findById s eid = Some event ->
  claimable event (at_check clk) ->
  holds s eid (User._id user) = 0 ->
  active_count s eid < Event.capacity event ->
  Interleaving.claim_reads s user eventId ticketId oid clk
  = inr (new_ticket user event eid ticketId
           (qrData_of ticketId eventId (ObjectId.toString (User._id user))
              (JSDate.toISOString (at_write clk))) oid clk).
Proof.
  intros Hc He (Hs & Ha & Hd) Hh Hcap.
  unfold Interleaving.claim_reads.
  assert (Hv : ObjectId.isMongoId eventId = true)
    by exact (cast_isMongoId eventId eid Hc).
  rewrite Hv, Hc, He, Hs, Ha. cbn [negb orb Event.status_eqb].
  apply Z.ltb_ge in Hd. rewrite Hd.
  apply count_zero_find in Hh. unfold held, occupies in Hh. rewrite Hh.
  apply Z.leb_gt in Hcap. unfold active_count, is_active in Hcap.
  now rewrite Hcap.
Qed.

Lemma scan_reads_accepted s user qrData clk ticket event :
  JSON.parse qrData <> None ->
  Store.findOne (fun k => String.eqb (Ticket.qrCode k) qrData)
    (Store.tickets s) = Some ticket ->
  Store.Event_findById s (Ticket.event ticket) = Some event ->
  Store.Organization_exists s (Event.organization event) = true ->
  User.organization user = Some (Event.organization event) ->
  Ticket.status ticket = Ticket.active ->
  at_check clk <= Event.date event ->
  Interleaving.scan_reads s user qrData clk = inr (mark_used ticket user clk).
Proof.
  intros Hp Hf He Hx Hu Hs Hd. unfold Interleaving.scan_reads.
  destruct (JSON.parse qrData); [|congruence].
  rewrite Hf. cbv zeta.
  assert (Ho : organization_differs (populate s ticket) user = Some false)
    by (apply organization_differs_false; eauto).
  rewrite Ho, Hs. cbn [Ticket.status_eqb negb].
  unfold populate. rewrite He. apply Z.ltb_ge in Hd. now rewrite Hd.
Qed.

(** Replacing a stored document twice under the same [_id]. *)
Lemma update_ticket_twice s a b :
  Ticket._id a = Ticket._id b ->
  Store.update_ticket (Store.update_ticket s a) b = Store.update_ticket s b.
Proof.
  intros E. unfold Store.update_ticket, Store.with_tickets.
  cbn [Store.tickets Store.events Store.organizations Store.users].
  f_equal. rewrite map_map. apply map_ext. intros d.
  destruct (ObjectId.eqb (Ticket._id d) (Ticket._id a)) eqn:Ea.
  - rewrite E, oid_eqb_refl. now rewrite <- E, Ea.
  - reflexivity.
Qed.

(** *** Collections with a unique key of any type *)

Lemma find_deleteOne_unique {A K} (key : A -> K) (f : A -> bool) (q : K)
    (l : list A) :
  (forall d, f d = true -> key d = q) ->
  NoDup (map key l) ->
  Store.findOne f (deleteOne f l) = None.
Proof.
  unfold Store.findOne. intros Hkey.
  induction l as [|d l IH]; [reflexivity|].
  cbn [map deleteOne]. intros Hnd. inversion Hnd as [|? ? Hd Hl]; subst.
  destruct (f d) eqn:E.
  - destruct (find f l) as [e|] eqn:Hf; [|reflexivity].
    apply find_some in Hf as [Hin He].
    exfalso. apply Hd. rewrite (Hkey d E), <- (Hkey e He). now apply in_map.
  - cbn [find]. rewrite E. now apply IH.
Qed.

Lemma NoDup_map_deleteOne {A K} (key : A -> K) (f : A -> bool) (l : list A) :
  NoDup (map key l) -> NoDup (map key (deleteOne f l)).
Proof.
  induction l as [|z l IH]; [trivial|]. cbn [map deleteOne].
  intros Hnd. inversion Hnd as [|? ? Hz Hl]; subst.
  destruct (f z); [assumption|]. cbn [map]. constructor; [|now apply IH].
  intros Hin. apply Hz. apply in_map_iff in Hin as (w & Ew & Hw).
  apply find_deleteOne_incl in Hw. rewrite <- Ew. now apply in_map.
Qed.

Lemma string_eqb_oid_neq (a b : ObjectId.t) :
  a <> b ->
  String.eqb (ObjectId.toString a) (ObjectId.toString b) = false.
Proof. intros H. now apply String.eqb_neq. Qed.

End MoreFacts.

(** ** Objects of strings and booleans *)

Module FlatFacts.

Import JSON JSONFacts JSONFlat.
Local Open Scope string_scope.

Lemma parse_value_scalar (fuel : nat) (v : scalar) (rest : string) :
  parse_value (S fuel) (stringify_scalar v ++ rest)
  = Parsed (as_value v, rest).
Proof.
  destruct v as [s | [|]].
  - apply parse_value_quote.
  - reflexivity.
  - reflexivity.
Qed.

Lemma parse_members_flat (ms : list (string * scalar)) :
  ms <> [] ->
  forall fuel rest,
    List.length ms < fuel ->
    parse_members fuel (stringify_fields ms ++ String "}" rest)
    = Parsed (map (fun m => (fst m, as_value (snd m))) ms, rest).
Proof.
  induction ms as [|[k v] ms IH]; [congruence|]. intros _ fuel rest Hf.
  destruct fuel as [|fuel]; [simpl in Hf; lia|].
  destruct fuel as [|fuel]; [simpl in Hf; lia|].
  destruct ms as [|m ms].
  - change (stringify_fields [(k, v)])
      with (quote k ++ String ":" (stringify_scalar v)).
    rewrite append_assoc.
    change (String ":" (stringify_scalar v) ++ String "}" rest)
      with (String ":" (stringify_scalar v ++ String "}" rest)).
    rewrite parse_members_key, parse_value_scalar. reflexivity.
  - change (stringify_fields ((k, v) :: m :: ms))
      with (quote k
            ++ String ":" (stringify_scalar v
                           ++ String "," (stringify_fields (m :: ms)))).
    rewrite append_assoc.
    change (String ":" (stringify_scalar v
                        ++ String "," (stringify_fields (m :: ms)))
              ++ String "}" rest)
      with (String ":" ((stringify_scalar v
                         ++ String "," (stringify_fields (m :: ms)))
                          ++ String "}" rest)).
    rewrite append_assoc, parse_members_key, parse_value_scalar.
    change (String "," (stringify_fields (m :: ms)) ++ String "}" rest)
      with (String "," (stringify_fields (m :: ms) ++ String "}" rest)).
    unfold after_member, bind at 1.
    change (closes "}" (String "," (stringify_fields (m :: ms) ++ String "}" rest)))
      with (@None string).
    change (closes "," (String "," (stringify_fields (m :: ms) ++ String "}" rest)))
      with (Some (stringify_fields (m :: ms) ++ String "}" rest)).
    cbv iota beta.
    rewrite IH; [reflexivity | congruence | simpl in *; lia].
Qed.

Lemma length_stringify_fields (ms : list (string * scalar)) :
  List.length ms <= String.length (stringify_fields ms).
Proof.
  induction ms as [|[k v] ms IH]; [simpl; lia|].
  destruct ms as [|m ms].
  - change (stringify_fields [(k, v)])
      with (quote k ++ ":" ++ stringify_scalar v).
    rewrite length_append. unfold quote. simpl. lia.
  - change (stringify_fields ((k, v) :: m :: ms))
      with (quote k ++ ":" ++ stringify_scalar v ++ ","
            ++ stringify_fields (m :: ms)).
    rewrite !length_append.
    set (r := String.length (stringify_fields (m :: ms))) in *.
    simpl List.length in *.
    change (String.length ":") with 1%nat.
    change (String.length ",") with 1%nat. lia.
Qed.

Lemma stringify_fields_head (m : string * scalar) (ms : list (string * scalar)) :
  exists b, stringify_fields (m :: ms) = String dquote b.
Proof.
  destruct m as [k v]. destruct ms as [|m' ms']; eexists; reflexivity.
Qed.

(** [JSON.parse(JSON.stringify(o))] for an object [o] of string and boolean
    properties. *)
Lemma parse_stringify_flat (m : string * scalar) (ms : list (string * scalar)) :
  parse (stringify (m :: ms))
  = Some (normalize
            (Object (map (fun m => (fst m, as_value (snd m))) (m :: ms)))).
Proof.
  unfold parse, parse_text, stringify.
  set (body := stringify_fields (m :: ms)).
  assert (Hlen : List.length (m :: ms) <= String.length body)
    by apply length_stringify_fields.
  unfold fuel_for.
  assert (Hn : String.length ("{" ++ body ++ "}") = S (String.length body + 1)).
  { change (String.length ("{" ++ body ++ "}"))
      with (S (String.length (body ++ "}"))).
    now rewrite length_append. }
  rewrite Hn.
  replace (2 * S (String.length body + 1) + 2)%nat
    with (S (S (2 * String.length body + 4))) by lia.
  change ("{" ++ body ++ "}") with (String "{" (body ++ String "}" EmptyString)).
  destruct (stringify_fields_head m ms) as [b Hb]. fold body in Hb.
  rewrite Hb.
  change (String dquote b ++ String "}" EmptyString)
    with (String dquote (b ++ String "}" EmptyString)).
  rewrite parse_value_object.
  change (String dquote (b ++ String "}" EmptyString))
    with (String dquote b ++ String "}" EmptyString).
  rewrite <- Hb. subst body.
  rewrite parse_members_flat; [reflexivity | congruence |].
  simpl List.length in *. lia.
Qed.

End FlatFacts.

(** ** Redeeming by identifier, and the guards of the claim *)

Module Extras.

Import Routes Engine StoreFacts HandlerFacts Invariants LookupFacts MoreFacts.
Local Open Scope string_scope.
Local Open Scope Z_scope.

(** X1.  [POST /api/tickets/:id/use] has no date check: it redeems an
    active ticket of the principal's organization whatever the date of the
    event, and whether or not the organization document still exists; where
    the event date has passed, the scan of the same ticket is refused and
    writes nothing. *)
Theorem use_ignores_event_date :
  forall s user id clk tid ticket event,
    ObjectId.cast id = Some tid ->
    Store.Ticket_findById s tid = Some ticket ->
    Store.Event_findById s (Ticket.event ticket) = Some event ->
    User.organization user = Some (Event.organization event) ->
    Ticket.status ticket = Ticket.active ->
    tickets_use s user id clk
    = (json 200 (Message "Ticket marked as used successfully"),
       Store.update_ticket s (mark_used ticket user clk))
    /\ (forall qrData,
          JSON.parse qrData <> None ->
          Store.findOne (fun k => String.eqb (Ticket.qrCode k) qrData)
            (Store.tickets s) = Some ticket ->
          Store.Organization_exists s (Event.organization event) = true ->
          Event.date event < at_check clk ->
          qr_scan s user qrData clk = (EventPassed, s)).
Proof.
  intros s user id clk tid ticket event Hc Hf He Hu Hs. split.
  - unfold tickets_use. rewrite Hc, Hf, He, Hu, Hs.
    unfold ObjectId.toString. now rewrite String.eqb_refl.
  - intros qrData Hp Hq Hx Hd. unfold qr_scan.
    destruct (JSON.parse qrData); [|congruence].
    rewrite Hq. cbv zeta.
    assert (Ho : organization_differs (populate s ticket) user = Some false)
      by (apply organization_differs_false; eauto).
    rewrite Ho, Hs. cbn [Ticket.status_eqb negb].
    unfold populate. rewrite He. apply Z.ltb_lt in Hd. now rewrite Hd.
Qed.

(** Holder 1's ticket, the day after the concert. *)
Lemma use_ignores_event_date_witness :
  tickets_use Examples.s1 Examples.organizer_a Examples.oid1
    (Examples.clock (Examples.concert_date + 86400000))
  = (json 200 (Message "Ticket marked as used successfully"),
     Store.update_ticket Examples.s1
       (mark_used Examples.ticket1 Examples.organizer_a
          (Examples.clock (Examples.concert_date + 86400000))))
  /\ qr_scan Examples.s1 Examples.organizer_a Examples.qr1
       (Examples.clock (Examples.concert_date + 86400000))
     = (EventPassed, Examples.s1).
Proof.
  destruct (use_ignores_event_date Examples.s1 Examples.organizer_a
              Examples.oid1 (Examples.clock (Examples.concert_date + 86400000))
              Examples.oid1 Examples.ticket1 Examples.concert)
    as [H1 H2]; try reflexivity.
  split; [exact H1|]. apply H2; try reflexivity.
  vm_compute. discriminate.
Defined.

(** X2.  Where a scan redeems a ticket, redeeming the same ticket by its
    identifier stores the same: the two redeeming routes write the same
    document. *)
Theorem use_agrees_with_scan :
  forall s user qrData clk ticket,
    well_formed s = true ->
    Store.findOne (fun k => String.eqb (Ticket.qrCode k) qrData)
      (Store.tickets s) = Some ticket ->
    code (fst (qr_scan s user qrData clk)) = 200 ->
    ObjectId.cast (Ticket._id ticket) = Some (Ticket._id ticket) ->
    snd (tickets_use s user (Ticket._id ticket) clk)
    = snd (qr_scan s user qrData clk).
Proof.
  intros s user qrData clk ticket Hwf Hf Hok Hc.
  apply well_formed_spec in Hwf as (H1 & _).
  destruct (qr_scan_cases s user qrData clk)
    as [[_ N] | (t0 & event & _ & Hf' & He & _ & Hu & Hs & _ & E)];
    [contradiction|].
  assert (t0 = ticket) by congruence. subst t0.
  rewrite E. cbn [snd].
  assert (Hin : In ticket (Store.tickets s)) by (apply find_some in Hf; tauto).
  assert (Hid : Store.Ticket_findById s (Ticket._id ticket) = Some ticket)
    by (apply find_ticket_by_id_unique; assumption).
  unfold tickets_use. rewrite Hc, Hid, He, Hu, Hs.
  unfold ObjectId.toString. now rewrite String.eqb_refl.
Qed.

Lemma use_agrees_with_scan_witness :
  snd (tickets_use Examples.s1 Examples.organizer_a Examples.oid1
         (Examples.clock (Examples.now + 60000)))
  = Examples.s2.
Proof.
  apply (use_agrees_with_scan Examples.s1 Examples.organizer_a Examples.qr1
           (Examples.clock (Examples.now + 60000)) Examples.ticket1);
    reflexivity.
Defined.

(** X3.  The event gate of the claim.  A claim is granted only for an
    event that is found, published, approved and not past; and for an event
    that is not published or not approved the answer is "not available for
    ticket claiming", nothing written, whatever the capacity left and
    whatever the claimant holds. *)
Theorem claim_event_gate :
  (forall s user eventId ticketId oid clk,
     code (fst (claim s user eventId ticketId oid clk)) = 201 ->
     exists eid event,
       ObjectId.cast eventId = Some eid
       /\ Store.Event_findById s eid = Some event
       /\ Event.status event = Event.published
       /\ Event.isApproved event = true
       /\ at_check clk <= Event.date event)
  /\ (forall s user eventId ticketId oid clk eid event,
        ObjectId.cast eventId = Some eid ->
        Store.Event_findById s eid = Some event ->
        Event.status event <> Event.published \/ Event.isApproved event = false ->
        claim s user eventId ticketId oid clk
        = (json 400 (Message "Event is not available for ticket claiming"), s))
  /\ (forall s user eventId ticketId oid clk eid,
        ObjectId.cast eventId = Some eid ->
        Store.Event_findById s eid = None ->
        claim s user eventId ticketId oid clk
        = (json 404 (Message "Event not found"), s)).
Proof.
  split; [|split].
  - intros s user eventId ticketId oid clk H.
    destruct (claim_cases s user eventId ticketId oid clk)
      as [[_ N] | (eid & event & Hc & He & (H1 & H2 & H3) & _)];
      [contradiction|].
    exists eid, event. auto.
  - intros s user eventId ticketId oid clk eid event Hc He Hno.
    unfold claim.
    assert (Hv : ObjectId.isMongoId eventId = true)
      by exact (cast_isMongoId eventId eid Hc).
    rewrite Hv, Hc, He. cbn [negb].
    destruct Hno as [Hno | Hno].
    + destruct (Event.status_eqb (Event.status event) Event.published) eqn:E;
        [|reflexivity].
      apply event_status_eqb_eq in E. contradiction.
    + rewrite Hno. cbn [negb]. now rewrite orb_true_r.
  - intros s user eventId ticketId oid clk eid Hc He. unfold claim.
    assert (Hv : ObjectId.isMongoId eventId = true)
      by exact (cast_isMongoId eventId eid Hc).
    now rewrite Hv, Hc, He.
Qed.

(** The granted claim of holder 1, and a claim for an event nobody made. *)
Lemma claim_event_gate_witness :
  (exists eid event,
     ObjectId.cast Examples.concert_id = Some eid
     /\ Store.Event_findById Examples.s0 eid = Some event
     /\ Event.status event = Event.published
     /\ Event.isApproved event = true
     /\ at_check (Examples.clock Examples.now) <= Event.date event)
  /\ claim Examples.s0 Examples.holder1 Examples.org_a Examples.uuid1
       Examples.oid1 (Examples.clock Examples.now)
     = (json 404 (Message "Event not found"), Examples.s0).
Proof.
  split.
  - apply (proj1 claim_event_gate Examples.s0 Examples.holder1
             Examples.concert_id Examples.uuid1 Examples.oid1
             (Examples.clock Examples.now)).
    reflexivity.
  - apply (proj2 (proj2 claim_event_gate) Examples.s0 Examples.holder1
             Examples.org_a Examples.uuid1 Examples.oid1
             (Examples.clock Examples.now) Examples.org_a);
      reflexivity.
Defined.

(** X4.  No request changes what was fixed when a ticket was issued: a
    ticket that is still stored after a request has the ticket identifier,
    event, holder, price and time of creation it had before. *)
Theorem issued_fields_never_change :
  forall s r k k',
    well_formed s = true ->
    In k (Store.tickets s) -> In k' (Store.tickets (step s r)) ->
    Ticket._id k' = Ticket._id k ->
    Ticket.ticketId k' = Ticket.ticketId k
    /\ Ticket.event k' = Ticket.event k
    /\ Ticket.user k' = Ticket.user k
    /\ Ticket.price k' = Ticket.price k
    /\ Ticket.createdAt k' = Ticket.createdAt k.
Proof.
  intros s r k k' Hwf Hk Hk' Eid.
  apply well_formed_spec in Hwf as (H1 & _).
  destruct (ticket_after_effect s (step s r) k' (handle_effect s r) Hk')
    as [Hin | [(_ & _ & Hnew) | (k0 & user & clk & Hin & _ & ->)]].
  - now rewrite (NoDup_key_inj Ticket._id (Store.tickets s) k' k H1 Hin Hk Eid).
  - now destruct (Hnew k Hk).
  - cbn [mark_used Ticket._id] in Eid.
    rewrite (NoDup_key_inj Ticket._id (Store.tickets s) k0 k H1 Hin Hk Eid).
    repeat split.
Qed.

Lemma issued_fields_never_change_witness :
  Ticket.price (mark_used Examples.ticket1 Examples.organizer_a
                  (Examples.clock (Examples.now + 60000)))
  = Ticket.price Examples.ticket1.
Proof.
  apply (issued_fields_never_change Examples.s1 Examples.scan1
           Examples.ticket1).
  - reflexivity.
  - vm_compute. left. reflexivity.
  - vm_compute. left. reflexivity.
  - reflexivity.
Defined.

(** X5.  Validating and redeeming neither add nor remove a ticket, and
    touch no other collection: the [_id]s of the tickets, in their order,
    and the events, organizations and users are as before. *)
Theorem redeeming_keeps_the_collections :
  forall s r,
    match r with
    | QrValidate _ _ _ | TicketsValidate _ _ _ | QrScan _ _ _
    | TicketsUse _ _ _ => True
    | _ => False
    end ->
    map Ticket._id (Store.tickets (step s r)) = map Ticket._id (Store.tickets s)
    /\ Store.events (step s r) = Store.events s
    /\ Store.organizations (step s r) = Store.organizations s
    /\ Store.users (step s r) = Store.users s.
Proof.
  assert (Hupd : forall s k,
            map Ticket._id (Store.tickets (Store.update_ticket s k))
            = map Ticket._id (Store.tickets s)).
  { intros s k. cbn [Store.update_ticket Store.with_tickets Store.tickets].
    rewrite map_map. apply map_ext. intros d.
    destruct (ObjectId.eqb (Ticket._id d) (Ticket._id k)) eqn:E; [|reflexivity].
    apply oid_eqb_eq in E. now rewrite E. }
  intros s r Hr. unfold step.
  destruct r as [| user q now | user q now | user q clk | user id clk | |];
    try contradiction; cbn [handle].
  - rewrite qr_validate_read_only. repeat split.
  - rewrite tickets_validate_read_only. repeat split.
  - destruct (qr_scan_cases s user q clk)
      as [[E _] | (t & e & _ & _ & _ & _ & _ & _ & _ & E)]; rewrite E;
      [repeat split|].
    cbn [snd]. split; [apply Hupd | repeat split].
  - destruct (tickets_use_cases s user id clk)
      as [[E _] | (tid & t & e & _ & _ & _ & _ & _ & E)]; rewrite E;
      [repeat split|].
    cbn [snd]. split; [apply Hupd | repeat split].
Qed.

Lemma redeeming_keeps_the_collections_witness :
  map Ticket._id (Store.tickets Examples.s2) = [Examples.oid1].
Proof.
  apply (proj1 (redeeming_keeps_the_collections Examples.s1 Examples.scan1 I)).
Defined.

(** ** Reading a ticket, and who may manage an event *)

(** X6.  [GET /api/tickets/:id] sends a ticket only to its holder: what is
    sent is the stored ticket with the identifier asked for, and its holder
    is the principal; any other principal is answered 403. *)
Theorem ticket_sent_to_holder_only :
  (forall s user id code k,
     TicketReads.get_ticket s user id = Reply.Sent code k ->
     code = 200
     /\ In k (Store.tickets s)
     /\ ObjectId.cast id = Some (Ticket._id k)
     /\ Ticket.user k = User._id user)
  /\ (forall s user id tid k holder,
        ObjectId.cast id = Some tid ->
        Store.Ticket_findById s tid = Some k ->
        Store.User_findById s (Ticket.user k) = Some holder ->
        Ticket.user k <> User._id user ->
        TicketReads.get_ticket s user id = Reply.Refused 403 "Access denied").
Proof.
  split.
  - intros s user id code k. unfold TicketReads.get_ticket.
    destruct (ObjectId.cast id) as [tid|]; [|discriminate].
    destruct (Store.Ticket_findById s tid) as [ticket|] eqn:Hf; [|discriminate].
    destruct (Store.User_findById s (Ticket.user ticket)) as [holder|] eqn:Hu;
      [|discriminate].
    destruct (String.eqb _ _) eqn:E; cbn [negb]; [|discriminate].
    intros H. injection H as <- <-.
    apply find_some in Hf as [Hin Hid]. apply oid_eqb_eq in Hid.
    apply find_some in Hu as [_ Hh]. apply oid_eqb_eq in Hh.
    apply String.eqb_eq in E. unfold ObjectId.toString in E.
    repeat split; [assumption | congruence | congruence].
  - intros s user id tid k holder Hc Hf Hu Hne.
    unfold TicketReads.get_ticket. rewrite Hc, Hf, Hu.
    apply find_some in Hu as [_ Hh]. apply oid_eqb_eq in Hh.
    rewrite string_eqb_oid_neq; [reflexivity | congruence].
Qed.

Lemma ticket_sent_to_holder_only_witness :
  Ticket.user Examples.ticket1 = User._id Examples.holder1
  /\ TicketReads.get_ticket Examples.s1 Examples.holder2 Examples.oid1
     = Reply.Refused 403 "Access denied".
Proof.
  split.
  - apply (proj1 ticket_sent_to_holder_only Examples.s1 Examples.holder1
             Examples.oid1 200 Examples.ticket1).
    reflexivity.
  - apply (proj2 ticket_sent_to_holder_only Examples.s1 Examples.holder2
             Examples.oid1 Examples.oid1 Examples.ticket1 Examples.holder1);
      try reflexivity.
    vm_compute. discriminate.
Defined.

(** X7.  [GET /api/tickets/my] lists the tickets of the principal, all of
    them and no others, each as often as it is stored, the newest first. *)
Theorem my_tickets_newest_first :
  forall s user,
    (forall k, In k (TicketReads.my_tickets s user)
               <-> In k (Store.tickets s) /\ Ticket.user k = User._id user)
    /\ Z.of_nat (List.length (TicketReads.my_tickets s user))
       = Store.countDocuments
           (fun k => ObjectId.eqb (Ticket.user k) (User._id user))
           (Store.tickets s)
    /\ StronglySorted (fun a b => Ticket.createdAt b <= Ticket.createdAt a)
         (TicketReads.my_tickets s user).
Proof.
  intros s user. unfold TicketReads.my_tickets. split; [|split].
  - intros k. rewrite sort_desc_In, filter_In, oid_eqb_eq. tauto.
  - now rewrite sort_desc_length.
  - apply sort_desc_sorted.
Qed.

(** X8.  [DELETE /api/events/:id] by the creator deletes the event
    document and nothing else: the tickets of the event stay stored, and a
    scan or a validation of one of them is answered 500 from then on. *)
Theorem delete_event_leaves_tickets :
  forall s user id eid event,
    well_formed s = true ->
    ObjectId.cast id = Some eid ->
    Store.Event_findById s eid = Some event ->
    Event.createdBy event = User._id user ->
    let s' := snd (EventRoutes.delete_event s user id) in
    fst (EventRoutes.delete_event s user id)
    = json 200 (Message "Event deleted successfully")
    /\ Store.tickets s' = Store.tickets s
    /\ Store.Event_findById s' eid = None
    /\ (forall scanner qrData clk k,
          JSON.parse qrData <> None ->
          Store.findOne (fun d => String.eqb (Ticket.qrCode d) qrData)
            (Store.tickets s) = Some k ->
          Ticket.event k = eid ->
          qr_scan s' scanner qrData clk = (server_error, s')
          /\ qr_validate s' scanner qrData (at_check clk) = (server_error, s')).
Proof.
  intros s user id eid event Hwf Hc He Hby.
  apply well_formed_spec in Hwf as (_ & _ & _ & H4).
  unfold EventRoutes.delete_event. rewrite Hc, He, Hby.
  unfold ObjectId.toString. rewrite String.eqb_refl. cbn [negb fst snd].
  set (s' := {| Store.tickets := Store.tickets s;
                Store.events := deleteOne _ (Store.events s);
                Store.organizations := _; Store.users := _ |}).
  assert (Hgone : Store.Event_findById s' eid = None)
    by (apply find_after_deleteOne; assumption).
  repeat split; [assumption | |].
  - destruct (scan_dangling s' scanner qrData clk k) as [E _]; auto.
    now subst eid.
  - destruct (scan_dangling s' scanner qrData clk k) as (_ & E & _); auto.
    now subst eid.
Qed.

Lemma delete_event_leaves_tickets_witness :
  Store.tickets
    (snd (EventRoutes.delete_event Examples.s1 Examples.organizer_a
            Examples.concert_id))
  = [Examples.ticket1]
  /\ fst (qr_scan
            (snd (EventRoutes.delete_event Examples.s1 Examples.organizer_a
                    Examples.concert_id))
            Examples.organizer_a Examples.qr1 (Examples.clock Examples.now))
     = server_error.
Proof.
  destruct (delete_event_leaves_tickets Examples.s1 Examples.organizer_a
              Examples.concert_id Examples.concert_id Examples.concert)
    as (_ & H2 & _ & H4); try reflexivity.
  split; [exact H2|].
  destruct (H4 Examples.organizer_a Examples.qr1 (Examples.clock Examples.now)
              Examples.ticket1) as [E _]; try reflexivity.
  vm_compute. discriminate.
Defined.

(** X9.  The routes of one event that are the creator's: a principal who
    did not create the event can neither update nor delete it, and is sent
    neither its scan statistics, analytics and attendees nor a test
    payload, whatever organization the principal is of. *)
Theorem only_the_creator_manages_an_event :
  forall s user id eid event,
    ObjectId.cast id = Some eid ->
    Store.Event_findById s eid = Some event ->
    Event.createdBy event <> User._id user ->
    (forall b, snd (EventRoutes.update_event s user id b) = s
               /\ forall c e,
                    fst (EventRoutes.update_event s user id b) <> Reply.Sent c e)
    /\ EventRoutes.delete_event s user id
       = (json 403 (Message "Access denied"), s)
    /\ QrRoutes.scan_stats s user id = Reply.Refused 403 "Access denied"
    /\ (forall userId now c q,
          QrRoutes.generate_test s user id userId now <> Reply.Sent c q)
    /\ OrganizerViews.event_analytics s user id
       = Reply.Refused 403 "Access denied"
    /\ OrganizerViews.attendees s user id = Reply.Refused 403 "Access denied".
Proof.
  intros s user id eid event Hc He Hne.
  pose proof (string_eqb_oid_neq _ _ Hne) as E.
  repeat split.
  - unfold EventRoutes.update_event.
    destruct (negb _); [reflexivity|]. now rewrite Hc, He, E.
  - unfold EventRoutes.update_event.
    destruct (negb _); [discriminate|]. rewrite Hc, He, E. discriminate.
  - unfold EventRoutes.delete_event. now rewrite Hc, He, E.
  - unfold QrRoutes.scan_stats. now rewrite Hc, He, E.
  - intros userId now c q. unfold QrRoutes.generate_test.
    destruct (negb _); [discriminate|]. rewrite Hc, He, E. discriminate.
  - unfold OrganizerViews.event_analytics. now rewrite Hc, He, E.
  - unfold OrganizerViews.attendees. now rewrite Hc, He, E.
Qed.

(** The organizer of the other organization, on the concert. *)
Lemma only_the_creator_manages_an_event_witness :
  EventRoutes.delete_event Examples.s1 Examples.organizer_b Examples.concert_id
  = (json 403 (Message "Access denied"), Examples.s1).
Proof.
  apply (only_the_creator_manages_an_event Examples.s1 Examples.organizer_b
           Examples.concert_id Examples.concert_id Examples.concert);
    try reflexivity.
  vm_compute. discriminate.
Defined.

(** ** Deleting and moderating *)

(** X10.  [DELETE /api/admin/events/:id] deletes the event with its
    tickets: the tickets of other events stay, the other events are found
    as before, and the payload of a deleted ticket is answered "Ticket not
    found" by a scan. *)
Theorem admin_delete_event_cascade :
  forall s id eid event,
    well_formed s = true ->
    ObjectId.cast id = Some eid ->
    Store.Event_findById s eid = Some event ->
    let s' := snd (admin_delete_event s id) in
    (forall k, In k (Store.tickets s')
               <-> In k (Store.tickets s) /\ Ticket.event k <> eid)
    /\ Store.Event_findById s' eid = None
    /\ (forall other, other <> eid ->
          Store.Event_findById s' other = Store.Event_findById s other)
    /\ (forall scanner qrData clk k,
          JSON.parse qrData <> None ->
          Store.findOne (fun d => String.eqb (Ticket.qrCode d) qrData)
            (Store.tickets s) = Some k ->
          Ticket.event k = eid ->
          qr_scan s' scanner qrData clk = (NotFound, s')).
Proof.
  intros s id eid event Hwf Hc He.
  apply well_formed_spec in Hwf as (_ & _ & H3 & H4).
  unfold admin_delete_event. rewrite Hc, He. cbn [snd].
  set (s' := {| Store.tickets := Store.deleteMany _ (Store.tickets s);
                Store.events := _; Store.organizations := _;
                Store.users := _ |}).
  split; [|split; [|split]].
  - intros k. subst s'. cbn [Store.tickets].
    rewrite deleteMany_In, oid_eqb_neq. tauto.
  - apply find_after_deleteOne. assumption.
  - intros other Hne. apply find_deleteOne_other.
    intros d _ Hd. apply oid_eqb_eq in Hd. rewrite Hd.
    apply oid_eqb_neq. congruence.
  - intros scanner qrData clk k Hp Hf Hk. unfold qr_scan.
    destruct (JSON.parse qrData); [|congruence].
    subst s'. cbn [Store.tickets].
    rewrite (find_qr_deleted (Store.tickets s) _ qrData k H3 Hf);
      [reflexivity|].
    now apply oid_eqb_eq.
Qed.

Lemma admin_delete_event_cascade_witness :
  qr_scan (snd (admin_delete_event Examples.s1 Examples.concert_id))
    Examples.organizer_a Examples.qr1 (Examples.clock Examples.now)
  = (NotFound, snd (admin_delete_event Examples.s1 Examples.concert_id)).
Proof.
  assert (Hwf : well_formed Examples.s1 = true) by reflexivity.
  assert (He : Store.Event_findById Examples.s1 Examples.concert_id
               = Some Examples.concert) by reflexivity.
  destruct (admin_delete_event_cascade Examples.s1 Examples.concert_id
              Examples.concert_id Examples.concert Hwf eq_refl He)
    as (_ & _ & _ & H).
  apply (H Examples.organizer_a Examples.qr1 (Examples.clock Examples.now)
           Examples.ticket1); try reflexivity.
  vm_compute. discriminate.
Defined.

(** X11.  [DELETE /api/admin/users/:id] deletes the user, the tickets the
    user holds and the events the user created, but not the tickets that
    others hold for those events: such a ticket stays stored, and a scan of
    it is answered 500 from then on. *)
Theorem admin_delete_user_cascade :
  forall s id uid u,
    well_formed s = true ->
    NoDup (map User._id (Store.users s)) ->
    ObjectId.cast id = Some uid ->
    Store.User_findById s uid = Some u ->
    let s' := snd (admin_delete_user s id) in
    Store.User_findById s' uid = None
    /\ (forall k, In k (Store.tickets s')
                  <-> In k (Store.tickets s) /\ Ticket.user k <> uid)
    /\ (forall e, In e (Store.events s')
                  <-> In e (Store.events s) /\ Event.createdBy e <> uid)
    /\ (forall scanner qrData clk k event,
          JSON.parse qrData <> None ->
          Store.findOne (fun d => String.eqb (Ticket.qrCode d) qrData)
            (Store.tickets s) = Some k ->
          Ticket.user k <> uid ->
          Store.Event_findById s (Ticket.event k) = Some event ->
          Event.createdBy event = uid ->
          In k (Store.tickets s')
          /\ qr_scan s' scanner qrData clk = (server_error, s')).
Proof.
  intros s id uid u Hwf Hnd Hc Hu.
  apply well_formed_spec in Hwf as (_ & _ & H3 & H4).
  unfold admin_delete_user. rewrite Hc, Hu. cbn [snd].
  set (s' := {| Store.tickets := Store.deleteMany _ (Store.tickets s);
                Store.events := _; Store.organizations := _;
                Store.users := _ |}).
  assert (Ht : forall k, In k (Store.tickets s')
                         <-> In k (Store.tickets s) /\ Ticket.user k <> uid).
  { intros k. subst s'. cbn [Store.tickets].
    rewrite deleteMany_In, oid_eqb_neq. tauto. }
  split; [|split; [|split]].
  - apply (find_key_after_deleteOne User._id). assumption.
  - exact Ht.
  - intros e. subst s'. cbn [Store.events].
    rewrite deleteMany_In, oid_eqb_neq. tauto.
  - intros scanner qrData clk k event Hp Hf Hk He Hby.
    assert (Hin : In k (Store.tickets s)) by (apply find_some in Hf; tauto).
    split; [apply Ht; auto|].
    apply (scan_dangling s' scanner qrData clk k Hp).
    + subst s'. cbn [Store.tickets]. apply find_filter_keep; [assumption|].
      now apply negb_true_iff, oid_eqb_neq.
    + subst s'. unfold Store.Event_findById. cbn [Store.events].
      apply (find_key_deleted Event._id _ _ _ (Ticket.event k) event);
        [| assumption | exact He | now apply oid_eqb_eq].
      intros d Hd. now apply oid_eqb_eq.
Qed.

(** The organizer of the concert is deleted; holder 1's ticket stays. *)
Lemma admin_delete_user_cascade_witness :
  In Examples.ticket1
    (Store.tickets
       (snd (admin_delete_user Examples.s1 (User._id Examples.organizer_a))))
  /\ qr_scan
       (snd (admin_delete_user Examples.s1 (User._id Examples.organizer_a)))
       Examples.organizer_b Examples.qr1 (Examples.clock Examples.now)
     = (server_error,
        snd (admin_delete_user Examples.s1 (User._id Examples.organizer_a))).
Proof.
  destruct (admin_delete_user_cascade Examples.s1
              (User._id Examples.organizer_a) (User._id Examples.organizer_a)
              Examples.organizer_a)
    as (_ & _ & _ & H); try reflexivity.
  - vm_compute. repeat constructor; vm_compute; intuition discriminate.
  - apply (H Examples.organizer_b Examples.qr1 (Examples.clock Examples.now)
             Examples.ticket1 Examples.concert); try reflexivity;
      vm_compute; discriminate.
Defined.

(** X12.  [DELETE /api/admin/organizations/:id] deletes the events of the
    organization and takes the organization from its members, and leaves
    every ticket stored: afterwards no event of the organization is left,
    no user is a member of it, and a scan of a ticket of one of its events
    is answered 500. *)
Theorem delete_organization_leaves_tickets :
  forall s id org,
    ObjectId.cast id = Some org ->
    Store.Organization_exists s org = true ->
    let s' := snd (AdminRoutes.delete_organization s id) in
    fst (AdminRoutes.delete_organization s id)
    = json 200 (Message "Organization deleted successfully")
    /\ Store.tickets s' = Store.tickets s
    /\ (forall e, In e (Store.events s')
                  <-> In e (Store.events s) /\ Event.organization e <> org)
    /\ (forall u, In u (Store.users s') -> User.organization u <> Some org)
    /\ (forall scanner qrData clk k event,
          well_formed s = true ->
          JSON.parse qrData <> None ->
          Store.findOne (fun d => String.eqb (Ticket.qrCode d) qrData)
            (Store.tickets s) = Some k ->
          Store.Event_findById s (Ticket.event k) = Some event ->
          Event.organization event = org ->
          qr_scan s' scanner qrData clk = (server_error, s')).
Proof.
  intros s id org Hc Hx.
  unfold AdminRoutes.delete_organization. rewrite Hc, Hx. cbn [negb fst snd].
  set (s' := {| Store.tickets := Store.tickets s;
                Store.events := Store.deleteMany _ (Store.events s);
                Store.organizations := _; Store.users := _ |}).
  split; [reflexivity|]. split; [reflexivity|]. split; [|split].
  - intros e. subst s'. cbn [Store.events].
    rewrite deleteMany_In, oid_eqb_neq. tauto.
  - intros u Hu. subst s'. cbn [Store.users] in Hu.
    apply in_map_iff in Hu as (d & <- & _).
    unfold AdminRoutes.member_of.
    destruct (User.organization d) as [o|] eqn:Eo.
    + destruct (ObjectId.eqb o org) eqn:E.
      * cbn. discriminate.
      * rewrite Eo. apply oid_eqb_neq in E. congruence.
    + rewrite Eo. discriminate.
  - intros scanner qrData clk k event Hwf Hp Hf He Ho.
    apply well_formed_spec in Hwf as (_ & _ & _ & H4).
    apply (scan_dangling s' scanner qrData clk k Hp); [exact Hf|].
    subst s'. unfold Store.Event_findById. cbn [Store.events].
    apply (find_key_deleted Event._id _ _ _ (Ticket.event k) event);
      [| assumption | exact He | now apply oid_eqb_eq].
    intros d Hd. now apply oid_eqb_eq.
Qed.

Lemma delete_organization_leaves_tickets_witness :
  Store.tickets (snd (AdminRoutes.delete_organization Examples.s1 Examples.org_a))
  = [Examples.ticket1]
  /\ Store.events (snd (AdminRoutes.delete_organization Examples.s1 Examples.org_a))
     = [].
Proof.
  destruct (delete_organization_leaves_tickets Examples.s1 Examples.org_a
              Examples.org_a) as (_ & H & _); try reflexivity.
  split; [exact H | reflexivity].
Defined.

(** X13.  Moderation closes an event to claims and not to redemption:
    once the administrator has rejected an event, or set its status to
    other than published, every claim for it is answered "not available",
    while the tickets stay and a scan is answered as it was before. *)
Theorem moderation_stops_claims_not_scans :
  forall s id eid event s',
    ObjectId.cast id = Some eid ->
    Store.Event_findById s eid = Some event ->
    s' = snd (AdminRoutes.approve_event s id false)
    \/ (exists st, st <> Event.published
                   /\ s' = snd (AdminRoutes.set_event_status s id st)) ->
    Store.tickets s' = Store.tickets s
    /\ (forall user eventId ticketId oid clk,
          ObjectId.cast eventId = Some eid ->
          claim s' user eventId ticketId oid clk
          = (json 400 (Message "Event is not available for ticket claiming"),
             s'))
    /\ (forall scanner qrData clk,
          fst (qr_scan s' scanner qrData clk)
          = fst (qr_scan s scanner qrData clk)).
Proof.
  intros s id eid event s' Hc He Hs'.
  assert (H : exists change done,
             s' = snd (AdminRoutes.change_event s id change done)
             /\ (forall e, Event._id (change e) = Event._id e)
             /\ (forall e, Event.date (change e) = Event.date e)
             /\ (forall e, Event.organization (change e) = Event.organization e)
             /\ (forall e, Event.status (change e) <> Event.published
                           \/ Event.isApproved (change e) = false)).
  { destruct Hs' as [-> | (st & Hst & ->)].
    - exists (AdminRoutes.set_isApproved false), "Event rejected successfully".
      repeat split. now right.
    - exists (AdminRoutes.set_status st), "Event status updated successfully".
      repeat split. now left. }
  destruct H as (change & done & -> & Hid & Hdate & Horg & Hclosed).
  assert (Ht : Store.tickets (snd (AdminRoutes.change_event s id change done))
               = Store.tickets s).
  { unfold AdminRoutes.change_event. now rewrite Hc, He. }
  assert (Hg : Store.organizations
                 (snd (AdminRoutes.change_event s id change done))
               = Store.organizations s).
  { unfold AdminRoutes.change_event. now rewrite Hc, He. }
  split; [exact Ht|]. split.
  - intros user eventId ticketId oid clk Hce.
    pose proof (change_event_find s id eid event change done eid Hid Hc He)
      as Hfind.
    rewrite He, oid_eqb_refl in Hfind. cbn [option_map] in Hfind.
    unfold claim. rewrite (cast_isMongoId _ _ Hce), Hce, Hfind. cbn [negb].
    destruct (Hclosed event) as [Hno | Hno].
    + destruct (Event.status_eqb _ _) eqn:E; [|reflexivity].
      apply event_status_eqb_eq in E. contradiction.
    + rewrite Hno. cbn [negb]. now rewrite orb_true_r.
  - intros scanner qrData clk.
    apply qr_scan_same_view; [assumption | assumption|].
    intros x.
    rewrite (change_event_find s id eid event change done x Hid Hc He).
    destruct (Store.Event_findById s x) as [e|]; [|reflexivity].
    cbn [option_map]. destruct (ObjectId.eqb x eid); [|reflexivity].
    now rewrite Hdate, Horg.
Qed.

(** The concert is rejected after holder 1's claim: holder 2 cannot claim,
    holder 1's ticket is scanned as before. *)
Lemma moderation_stops_claims_not_scans_witness :
  code (fst (claim (snd (AdminRoutes.approve_event Examples.s1
                           Examples.concert_id false))
               Examples.holder2 Examples.concert_id Examples.uuid2
               Examples.oid2 (Examples.clock Examples.now))) = 400
  /\ code (fst (qr_scan (snd (AdminRoutes.approve_event Examples.s1
                                Examples.concert_id false))
                  Examples.organizer_a Examples.qr1
                  (Examples.clock Examples.now))) = 200.
Proof.
  destruct (moderation_stops_claims_not_scans Examples.s1 Examples.concert_id
              Examples.concert_id Examples.concert
              (snd (AdminRoutes.approve_event Examples.s1
                      Examples.concert_id false)))
    as (_ & H2 & H3); try reflexivity.
  - left. reflexivity.
  - split.
    + rewrite (H2 Examples.holder2 Examples.concert_id Examples.uuid2
                 Examples.oid2 (Examples.clock Examples.now));
        reflexivity.
    + rewrite (H3 Examples.organizer_a Examples.qr1
                 (Examples.clock Examples.now)).
      reflexivity.
Defined.

(** ** Creating and updating an event *)

(** X14.  [PUT /api/events/:id] assigns the body to the event as it is,
    [status] and [isApproved] included: after the creator's update with
    status published and [isApproved] true the event is stored published
    and approved, and a claim that meets the other guards is granted. *)
Theorem creator_update_opens_event_to_claims :
  forall s user id b eid event holder eventId ticketId oid clk,
    ObjectId.cast id = Some eid ->
    Store.Event_findById s eid = Some event ->
    Event.createdBy event = User._id user ->
    EventRoutes.status b = Some Event.published ->
    EventRoutes.isApproved b = Some true ->
    EventRoutes.numbers_ok b = true ->
    EventRoutes.schema_ok (EventRoutes.assign event b) = true ->
    let event' := EventRoutes.assign event b in
    let s' := snd (EventRoutes.update_event s user id b) in
    fst (EventRoutes.update_event s user id b) = Reply.Sent 200 event'
    /\ Store.Event_findById s' eid = Some event'
    /\ Event.status event' = Event.published
    /\ Event.isApproved event' = true
    /\ Store.tickets s' = Store.tickets s
    /\ (ObjectId.cast eventId = Some eid ->
        at_check clk <= Event.date event' ->
        holds s eid (User._id holder) = 0 ->
        active_count s eid < Event.capacity event' ->
        let tk := new_ticket holder event' eid ticketId
                    (qrData_of ticketId eventId
                       (ObjectId.toString (User._id holder))
                       (JSDate.toISOString (at_write clk))) oid clk in
        Store.duplicate_key tk (Store.tickets s) = false ->
        Store.price_valid tk = true ->
        code (fst (claim s' holder eventId ticketId oid clk)) = 201
        /\ Store.tickets (snd (claim s' holder eventId ticketId oid clk))
           = (Store.tickets s ++ [tk])%list).
Proof.
  intros s user id b eid event holder eventId ticketId oid clk
    Hc He Hby Hst Hap Hn Hsc event' s'.
  assert (Hok : EventRoutes.status_ok b = true)
    by (unfold EventRoutes.status_ok; now rewrite Hst).
  destruct (update_event_accepted s user id b eid event Hc He Hby Hn Hok Hsc)
    as [E Hfind].
  subst s'. rewrite E. cbn [fst snd]. fold event'.
  assert (H1 : Event.status event' = Event.published)
    by (subst event'; cbn; now rewrite Hst).
  assert (H2 : Event.isApproved event' = true)
    by (subst event'; cbn; now rewrite Hap).
  repeat split; try assumption.
  - rewrite (claim_granted (EventRoutes.save_event s event') holder eventId
               ticketId oid clk eid event'); try assumption; [reflexivity|].
    repeat split; assumption.
  - rewrite (claim_granted (EventRoutes.save_event s event') holder eventId
               ticketId oid clk eid event'); try assumption; [reflexivity|].
    repeat split; assumption.
Qed.

(** Organizer A publishes and approves the workshop; holder 2 claims. *)
Lemma creator_update_opens_event_to_claims_witness :
  code (fst (claim
               (snd (EventRoutes.update_event MoreExamples.s_created
                       Examples.organizer_a MoreExamples.workshop_id
                       MoreExamples.publish_body))
               Examples.holder2 MoreExamples.workshop_id Examples.uuid2
               Examples.oid2 (Examples.clock Examples.now))) = 201.
Proof.
  assert (He : Store.Event_findById MoreExamples.s_created
                 MoreExamples.workshop_id = Some MoreExamples.workshop)
    by reflexivity.
  destruct (creator_update_opens_event_to_claims MoreExamples.s_created
              Examples.organizer_a MoreExamples.workshop_id
              MoreExamples.publish_body MoreExamples.workshop_id
              MoreExamples.workshop Examples.holder2 MoreExamples.workshop_id
              Examples.uuid2 Examples.oid2 (Examples.clock Examples.now)
              eq_refl He eq_refl eq_refl eq_refl eq_refl eq_refl)
    as (_ & _ & _ & _ & _ & H).
  apply H; try reflexivity.
  vm_compute. discriminate.
Defined.

(** X15.  An update may lower the capacity of an event below the number of
    its active tickets: the update is accepted, no ticket is touched, and
    the event is left with more active tickets than its capacity. *)
Theorem update_can_lower_capacity_below_issued :
  forall s user id b eid event c,
    ObjectId.cast id = Some eid ->
    Store.Event_findById s eid = Some event ->
    Event.createdBy event = User._id user ->
    EventRoutes.capacity b = Some c ->
    1 <= c < active_count s eid ->
    EventRoutes.numbers_ok b = true ->
    EventRoutes.status_ok b = true ->
    EventRoutes.schema_ok (EventRoutes.assign event b) = true ->
    let s' := snd (EventRoutes.update_event s user id b) in
    fst (EventRoutes.update_event s user id b)
    = Reply.Sent 200 (EventRoutes.assign event b)
    /\ Store.tickets s' = Store.tickets s
    /\ ~ within_capacity s'.
Proof.
  intros s user id b eid event c Hc He Hby Hcap Hlt Hn Hok Hsc s'.
  destruct (update_event_accepted s user id b eid event Hc He Hby Hn Hok Hsc)
    as [E Hfind].
  subst s'. rewrite E. cbn [fst snd]. repeat split.
  intros Hin. specialize (Hin eid _ Hfind).
  cbn [EventRoutes.assign Event.capacity] in Hin. rewrite Hcap in Hin.
  cbn [EventRoutes.or_else] in Hin.
  change (active_count (EventRoutes.save_event s (EventRoutes.assign event b)) eid)
    with (active_count s eid) in Hin.
  lia.
Qed.

(** The concert of two places, both taken, is cut to one place. *)
Lemma update_can_lower_capacity_below_issued_witness :
  ~ within_capacity
      (snd (EventRoutes.update_event MoreExamples.s_two Examples.organizer_a
              Examples.concert_id MoreExamples.shrink_body)).
Proof.
  assert (He : Store.Event_findById MoreExamples.s_two Examples.concert_id
               = Some MoreExamples.concert2) by reflexivity.
  assert (Hc : 1 <= 1 < active_count MoreExamples.s_two Examples.concert_id)
    by (vm_compute; split; [discriminate | reflexivity]).
  apply (update_can_lower_capacity_below_issued MoreExamples.s_two
           Examples.organizer_a Examples.concert_id MoreExamples.shrink_body
           Examples.concert_id MoreExamples.concert2 1
           eq_refl He eq_refl eq_refl Hc eq_refl eq_refl eq_refl).
Defined.

(** X16.  [POST /api/events] stores a draft of the principal and of the
    principal's organization, whatever status, organization and creator the
    body names; and while the event is a draft every claim for it is
    answered "not available". *)
Theorem created_event_is_a_draft :
  forall s user b oid c e s',
    EventRoutes.create_event s user b oid = (Reply.Sent c e, s') ->
    c = 201
    /\ Event._id e = oid
    /\ Event.status e = Event.draft
    /\ Event.createdBy e = User._id user
    /\ User.organization user = Some (Event.organization e)
    /\ Store.tickets s' = Store.tickets s
    /\ Store.Event_findById s' oid = Some e
    /\ (forall holder eventId ticketId toid clk,
          ObjectId.cast eventId = Some oid ->
          claim s' holder eventId ticketId toid clk
          = (json 400 (Message "Event is not available for ticket claiming"),
             s')).
Proof.
  intros s user b oid c e s'. unfold EventRoutes.create_event.
  destruct (EventRoutes.date b) as [d|]; [|discriminate].
  destruct (EventRoutes.ticketType b) as [kind|]; [|discriminate].
  destruct (EventRoutes.capacity b) as [cap|]; [|discriminate].
  destruct (negb (EventRoutes.numbers_ok b)); [discriminate|].
  destruct (User.organization user) as [org|]; [|discriminate].
  destruct (negb (EventRoutes.schema_ok _)); [discriminate|].
  destruct (existsb _ (Store.events s)) eqn:Hex; [discriminate|].
  intros H. injection H as <- <- <-.
  assert (Hfind : Store.Event_findById
                    {| Store.tickets := Store.tickets s;
                       Store.events :=
                         (Store.events s
                          ++ [{| Event._id := oid; Event.date := d;
                                 Event.ticketType := kind;
                                 Event.ticketPrice := EventRoutes.ticketPrice b;
                                 Event.capacity := cap;
                                 Event.status := Event.draft;
                                 Event.isApproved :=
                                   EventRoutes.or_else (EventRoutes.isApproved b)
                                     false;
                                 Event.organization := org;
                                 Event.createdBy := User._id user |}])%list;
                       Store.organizations := Store.organizations s;
                       Store.users := Store.users s |} oid
                  = Some {| Event._id := oid; Event.date := d;
                            Event.ticketType := kind;
                            Event.ticketPrice := EventRoutes.ticketPrice b;
                            Event.capacity := cap;
                            Event.status := Event.draft;
                            Event.isApproved :=
                              EventRoutes.or_else (EventRoutes.isApproved b)
                                false;
                            Event.organization := org;
                            Event.createdBy := User._id user |}).
  { unfold Store.Event_findById. cbn [Store.events]. rewrite find_snoc.
    destruct (Store.findOne _ (Store.events s)) as [x|] eqn:Hf.
    - apply find_some in Hf as [Hin Hx].
      assert (existsb (fun e => ObjectId.eqb (Event._id e) oid) (Store.events s)
              = true) by (apply existsb_exists; eauto).
      congruence.
    - cbn [Event._id]. now rewrite oid_eqb_refl. }
  repeat split; try assumption.
  intros holder eventId ticketId toid clk Hce. unfold claim.
  rewrite (cast_isMongoId _ _ Hce), Hce, Hfind. reflexivity.
Qed.

(** The workshop, created with a body that asks for a published event of
    the other organization. *)
Lemma created_event_is_a_draft_witness :
  Event.status MoreExamples.workshop = Event.draft
  /\ Store.Event_findById MoreExamples.s_created MoreExamples.workshop_id
     = Some MoreExamples.workshop.
Proof.
  destruct (created_event_is_a_draft Examples.s1 Examples.organizer_a
              MoreExamples.workshop_body MoreExamples.workshop_id 201
              MoreExamples.workshop MoreExamples.s_created eq_refl)
    as (_ & _ & H1 & _ & _ & _ & H2 & _).
  split; assumption.
Defined.

(** ** Lists, pages and counts *)

(** X17.  The pages of a listing route, where the Number arithmetic of
    the route is exact ([page * limit] and the number of documents at most
    2^53) and the database answers the query with the slice asked for:
    [currentPage] is the page asked for; a page has at most [limit]
    entries; [hasNext] says that the page is not the last; [totalPages] is
    the least number of pages that hold [total] documents; the document at
    position [i] of the result is entry [i mod limit] of page
    [i / limit + 1], and a page after the last is empty. *)
Theorem pages_split_the_documents :
  forall (A : Type) (docs : list A)
         (find : JSNumber.t -> Z -> option (list A))
         (page limit : Z) (pg : Paging.Page A),
    Paging.answers docs find ->
    page * limit <= 2 ^ 53 ->
    Z.of_nat (List.length docs) <= 2 ^ 53 ->
    Paging.list_page find (Z.of_nat (List.length docs)) page limit
    = Reply.Sent 200 pg ->
    Paging.currentPage pg = JSNumber.Finite page
    /\ Z.of_nat (List.length (Paging.items pg)) <= limit
    /\ Paging.hasNext pg = (page <? Paging.totalPages pg)
    /\ (Paging.totalPages pg - 1) * limit < Paging.total pg
       <= Paging.totalPages pg * limit
    /\ (forall i d,
          nth_error docs i = Some d ->
          page = Z.of_nat i / limit + 1 ->
          nth_error (Paging.items pg) (Z.to_nat (Z.of_nat i mod limit))
          = Some d)
    /\ (Paging.totalPages pg < page -> Paging.items pg = []).
Proof.
  intros A docs find page limit pg Hf Hb Hl H.
  split.
  { now destruct (list_page_fields docs find page limit pg Hf Hb Hl H)
      as (_ & E & _). }
  split; [exact (list_page_length docs find page limit pg Hf Hb Hl H)|].
  split; [exact (list_page_hasNext docs find page limit pg Hf Hb Hl H)|].
  split; [exact (list_page_total docs find page limit pg Hf Hb Hl H)|].
  split.
  - intros i d. apply (list_page_nth docs find page limit pg Hf Hb Hl H).
  - apply (list_page_beyond docs find page limit pg Hf Hb Hl H).
Qed.

(** Five documents in pages of two: the last page. *)
Lemma pages_split_the_documents_witness :
  nth_error [5] (Z.to_nat (4 mod 2)) = Some 5.
Proof.
  assert (Hb : 3 * 2 <= 2 ^ 53) by (vm_compute; discriminate).
  assert (Hl : Z.of_nat (List.length [1; 2; 3; 4; 5]) <= 2 ^ 53)
    by (vm_compute; discriminate).
  destruct (pages_split_the_documents Z [1; 2; 3; 4; 5]
              (MoreExamples.in_memory [1; 2; 3; 4; 5]) 3 2
              {| Paging.items := [5];
                 Paging.currentPage := JSNumber.Finite 3;
                 Paging.totalPages := 3; Paging.total := 5;
                 Paging.hasNext := false; Paging.hasPrev := true |}
              (in_memory_answers [1; 2; 3; 4; 5]) Hb Hl eq_refl)
    as (_ & _ & _ & _ & H & _).
  apply (H 4%nat 5); reflexivity.
Defined.

(** X18.  The public list shows the events that are open to claims, and
    all of them.  Where the database answers the query with the slice
    asked for and the Number arithmetic of the pages is exact, an entry is
    a stored event that is published, approved and not past, listed with
    capacity minus active tickets as Numbers subtract them, which is the
    exact difference while both are at most 2^53; where that is positive, a
    claim at that time by a holder without a ticket for the event is not
    refused; and every such event of the store is on one of the pages. *)
Theorem listed_events_are_open_to_claims :
  forall find s now page limit pg,
    well_formed s = true ->
    Paging.answers (EventList.upcoming s now) find ->
    page * limit <= 2 ^ 53 ->
    Z.of_nat (List.length (Store.events s)) <= 2 ^ 52 ->
    EventList.list_events find s now page limit = Reply.Sent 200 pg ->
    (forall item,
       In item (Paging.items pg) ->
       In (EventList.event item) (Store.events s)
       /\ claimable (EventList.event item) now
       /\ EventList.remainingCapacity item
          = JSNumber.sub
              (JSNumber.Finite (Event.capacity (EventList.event item)))
              (JSNumber.Finite
                 (active_count s (Event._id (EventList.event item))))
       /\ (0 <= Event.capacity (EventList.event item) <= 2 ^ 53 ->
           active_count s (Event._id (EventList.event item)) <= 2 ^ 53 ->
           EventList.remainingCapacity item
           = JSNumber.Finite
               (Event.capacity (EventList.event item)
                - active_count s (Event._id (EventList.event item))))
       /\ (JSNumber.ltb (JSNumber.Finite 0) (EventList.remainingCapacity item)
           = true ->
           forall holder eventId ticketId oid clk,
             at_check clk = now ->
             ObjectId.cast eventId = Some (Event._id (EventList.event item)) ->
             holds s (Event._id (EventList.event item)) (User._id holder) = 0 ->
             let tk := new_ticket holder (EventList.event item)
                         (Event._id (EventList.event item)) ticketId
                         (qrData_of ticketId eventId
                            (ObjectId.toString (User._id holder))
                            (JSDate.toISOString (at_write clk))) oid clk in
             Store.duplicate_key tk (Store.tickets s) = false ->
             Store.price_valid tk = true ->
             code (fst (claim s holder eventId ticketId oid clk)) = 201))
    /\ (forall e,
          In e (Store.events s) -> claimable e now ->
          exists p pg',
            p * limit <= 2 ^ 53
            /\ EventList.list_events find s now p limit = Reply.Sent 200 pg'
            /\ In e (map EventList.event (Paging.items pg'))).
Proof.
  intros find s now page limit pg Hwf Hfind Hbound Hevents H.
  apply well_formed_spec in Hwf as (_ & _ & _ & H4).
  assert (Hcount : Store.countDocuments (EventList.listed now) (Store.events s)
                   = Z.of_nat (List.length (EventList.upcoming s now))).
  { unfold EventList.upcoming, EventList.sort_asc, Store.countDocuments.
    now rewrite sort_desc_length. }
  assert (Hlen : Z.of_nat (List.length (EventList.upcoming s now)) <= 2 ^ 52).
  { rewrite <- Hcount. unfold Store.countDocuments.
    pose proof (filter_length_split (EventList.listed now) (Store.events s)).
    lia. }
  assert (H5253 : 2 ^ 52 + 100 <= 2 ^ 53) by (vm_compute; discriminate).
  assert (Hlen' : Z.of_nat (List.length (EventList.upcoming s now)) <= 2 ^ 53)
    by lia.
  unfold EventList.list_events in H. rewrite Hcount in H.
  destruct (Paging.list_page find _ page limit) as [c pg0| |] eqn:Hpg;
    try discriminate.
  assert (Hc : c = 200).
  { unfold Paging.list_page in Hpg. destruct (negb _); [discriminate|].
    destruct (find _ limit); congruence. }
  subst c. injection H as <-. cbn [Paging.items].
  assert (Hlisted : forall e,
            In e (EventList.upcoming s now)
            <-> In e (Store.events s) /\ claimable e now).
  { intros e. unfold EventList.upcoming, EventList.sort_asc.
    rewrite sort_desc_In, filter_In. unfold EventList.listed, claimable.
    rewrite !andb_true_iff, event_status_eqb_eq, Z.leb_le.
    destruct (Event.isApproved e); cbn [Bool.eqb]; intuition congruence. }
  split.
  - intros item Hin. apply in_map_iff in Hin as (e & <- & Hin).
    destruct (list_page_fields _ find page limit pg0 Hfind Hbound Hlen' Hpg)
      as (Hi & _).
    rewrite Hi in Hin. apply firstn_In, skipn_In in Hin.
    apply Hlisted in Hin as [Hin Hcl].
    cbn [EventList.with_tickets EventList.event EventList.remainingCapacity].
    change (Store.countDocuments
              (fun k => ObjectId.eqb (Ticket.event k) (Event._id e)
                        && Ticket.status_eqb (Ticket.status k) Ticket.active)
              (Store.tickets s))
      with (active_count s (Event._id e)).
    split; [assumption|]. split; [assumption|]. split; [reflexivity|].
    split.
    + intros Hcap Hact. apply NumberFacts.sub_exact.
      pose proof (count_nonneg
                    (fun k => ObjectId.eqb (Ticket.event k) (Event._id e)
                              && is_active k) (Store.tickets s)) as Hp.
      fold (active_count s (Event._id e)) in Hp. lia.
    + intros Hpos holder eventId ticketId oid clk Hnow Hcast Hh Hk Hp.
      apply NumberFacts.sub_positive in Hpos.
      rewrite (claim_granted s holder eventId ticketId oid clk (Event._id e) e);
        try assumption; [reflexivity | | now rewrite Hnow].
      unfold Store.Event_findById. now apply find_by_id_unique.
  - intros e Hin Hcl.
    assert (Hs : In e (EventList.upcoming s now)) by (apply Hlisted; auto).
    apply In_nth_error in Hs as [i Hi].
    destruct (list_page_valid _ find page limit pg0 Hpg) as [_ Hl].
    assert (Hil : Z.of_nat i < Z.of_nat (List.length (EventList.upcoming s now))).
    { apply Nat2Z.inj_lt. apply nth_error_Some. congruence. }
    pose proof (Z.div_pos (Z.of_nat i) limit ltac:(lia) ltac:(lia)) as Hq.
    pose proof (Z.mul_div_le (Z.of_nat i) limit ltac:(lia)) as Hmul.
    assert (Hb' : (Z.of_nat i / limit + 1) * limit <= 2 ^ 53) by nia.
    exists (Z.of_nat i / limit + 1).
    unfold EventList.list_events. rewrite Hcount.
    destruct (Paging.list_page find _ (Z.of_nat i / limit + 1) limit)
      as [c pg1| |] eqn:Hpg1.
    + assert (Hc : c = 200).
      { unfold Paging.list_page in Hpg1. destruct (negb _); [discriminate|].
        destruct (find _ limit); congruence. }
      subst c. eexists. split; [assumption|]. split; [reflexivity|].
      cbn [Paging.items]. rewrite map_map. cbn [EventList.with_tickets
        EventList.event]. rewrite map_id.
      eapply nth_error_In.
      apply (list_page_nth _ find _ limit pg1 Hfind Hb' Hlen' Hpg1 i e Hi
               eq_refl).
    + exfalso. unfold Paging.list_page in Hpg1.
      destruct (negb _); [discriminate|].
      assert (Hp1 : 1 <= Z.of_nat i / limit + 1) by lia.
      assert (E53 : 2 ^ 53 = 9007199254740992) by reflexivity.
      rewrite (NumberFacts.of_Z_exact (Z.of_nat i / limit + 1)) in Hpg1
        by nia.
      rewrite (NumberFacts.of_Z_exact limit) in Hpg1 by lia.
      rewrite NumberFacts.sub_exact in Hpg1 by nia.
      rewrite NumberFacts.mul_exact in Hpg1 by nia.
      rewrite Hfind in Hpg1 by nia. discriminate.
    + exfalso. unfold Paging.list_page in Hpg1.
      destruct ((1 <=? Z.of_nat i / limit + 1) && (1 <=? limit)
                && (limit <=? 100)) eqn:E.
      * cbn [negb] in Hpg1. destruct (find _ limit); discriminate.
      * rewrite !andb_false_iff, !Z.leb_gt in E. lia.
Qed.

(** The concert on the first page, before anyone has claimed. *)
Lemma listed_events_are_open_to_claims_witness :
  code (fst (claim Examples.s0 Examples.holder1 Examples.concert_id
               Examples.uuid1 Examples.oid1 (Examples.clock Examples.now)))
  = 201.
Proof.
  assert (Hb : 1 * 10 <= 2 ^ 53) by (vm_compute; discriminate).
  assert (Hl : Z.of_nat (List.length (Store.events Examples.s0)) <= 2 ^ 52)
    by (vm_compute; discriminate).
  destruct (listed_events_are_open_to_claims
              (MoreExamples.in_memory
                 (EventList.upcoming Examples.s0 Examples.now))
              Examples.s0 Examples.now 1 10
              {| Paging.items := [EventList.with_tickets Examples.s0
                                    Examples.concert];
                 Paging.currentPage := JSNumber.Finite 1;
                 Paging.totalPages := 1;
                 Paging.total := 1; Paging.hasNext := false;
                 Paging.hasPrev := false |}
              eq_refl (in_memory_answers _) Hb Hl eq_refl) as [H _].
  destruct (H (EventList.with_tickets Examples.s0 Examples.concert))
    as (_ & _ & _ & _ & Hclaim).
  - vm_compute. left. reflexivity.
  - apply Hclaim; reflexivity.
Defined.

(** X19.  A scan that succeeds moves one ticket of the event from active
    to used in the scan statistics of the event, and leaves the total. *)
Theorem scan_moves_one_ticket_to_used :
  forall s scanner qrData clk user eventId k st,
    well_formed s = true ->
    Store.findOne (fun d => String.eqb (Ticket.qrCode d) qrData)
      (Store.tickets s) = Some k ->
    code (fst (qr_scan s scanner qrData clk)) = 200 ->
    ObjectId.cast eventId = Some (Ticket.event k) ->
    QrRoutes.scan_stats s user eventId = Reply.Sent 200 st ->
    exists st',
      QrRoutes.scan_stats (snd (qr_scan s scanner qrData clk)) user eventId
      = Reply.Sent 200 st'
      /\ QrRoutes.totalTickets st' = QrRoutes.totalTickets st
      /\ QrRoutes.usedTickets st' = QrRoutes.usedTickets st + 1
      /\ QrRoutes.activeTickets st' = QrRoutes.activeTickets st - 1.
Proof.
  intros s scanner qrData clk user eventId k st Hwf Hf Hok Hc Hst.
  apply well_formed_spec in Hwf as (H1 & _).
  destruct (qr_scan_cases s scanner qrData clk)
    as [[_ N] | (t0 & event & _ & Hf' & He & _ & _ & Hs & _ & E)];
    [contradiction|].
  assert (t0 = k) by congruence. subst t0.
  assert (Hin : In k (Store.tickets s)) by (apply find_some in Hf; tauto).
  rewrite E. cbn [snd].
  unfold QrRoutes.scan_stats in *. rewrite Hc in *.
  change (Store.Event_findById (Store.update_ticket s (mark_used k scanner clk))
            (Ticket.event k))
    with (Store.Event_findById s (Ticket.event k)).
  destruct (Store.Event_findById s (Ticket.event k)) as [e|]; [|discriminate].
  destruct (negb _); [discriminate|].
  injection Hst as <-. eexists. split; [reflexivity|].
  cbn [QrRoutes.totalTickets QrRoutes.usedTickets QrRoutes.activeTickets].
  cbn [Store.update_ticket Store.with_tickets Store.tickets].
  change (fun d => if ObjectId.eqb (Ticket._id d)
                        (Ticket._id (mark_used k scanner clk))
                   then mark_used k scanner clk else d)
    with (replaced (mark_used k scanner clk)).
  split; [|split].
  - apply count_replaced_same with (k := k); trivial.
  - assert (Hcount :
      Store.countDocuments
        (fun d => negb (ObjectId.eqb (Ticket.event d) (Ticket.event k)
                        && Ticket.status_eqb (Ticket.status d) Ticket.used))
        (map (replaced (mark_used k scanner clk)) (Store.tickets s))
      = Store.countDocuments
          (fun d => negb (ObjectId.eqb (Ticket.event d) (Ticket.event k)
                          && Ticket.status_eqb (Ticket.status d) Ticket.used))
          (Store.tickets s) - 1).
    { apply count_replaced_drop with (k := k); trivial.
      - now rewrite Hs, oid_eqb_refl.
      - cbn [mark_used Ticket.event Ticket.status]. now rewrite oid_eqb_refl. }
    pose proof (count_split (fun _ : Ticket.t => true)
                  (fun d => ObjectId.eqb (Ticket.event d) (Ticket.event k)
                            && Ticket.status_eqb (Ticket.status d) Ticket.used)
                  (map (replaced (mark_used k scanner clk)) (Store.tickets s)))
      as P1.
    pose proof (count_split (fun _ : Ticket.t => true)
                  (fun d => ObjectId.eqb (Ticket.event d) (Ticket.event k)
                            && Ticket.status_eqb (Ticket.status d) Ticket.used)
                  (Store.tickets s)) as P2.
    cbn [andb] in P1, P2.
    assert (Hall :
      Store.countDocuments (fun _ : Ticket.t => true)
        (map (replaced (mark_used k scanner clk)) (Store.tickets s))
      = Store.countDocuments (fun _ : Ticket.t => true) (Store.tickets s))
      by (apply count_replaced_same with (k := k); trivial).
    lia.
  - apply count_replaced_drop with (k := k); trivial.
    + now rewrite Hs, oid_eqb_refl.
    + cbn [mark_used Ticket.event Ticket.status]. now rewrite oid_eqb_refl.
Qed.

Lemma scan_moves_one_ticket_to_used_witness :
  exists st',
    QrRoutes.scan_stats Examples.s2 Examples.organizer_a Examples.concert_id
    = Reply.Sent 200 st'
    /\ QrRoutes.usedTickets st' = 1 /\ QrRoutes.activeTickets st' = 0.
Proof.
  destruct (scan_moves_one_ticket_to_used Examples.s1 Examples.organizer_a
              Examples.qr1 (Examples.clock (Examples.now + 60000))
              Examples.organizer_a Examples.concert_id Examples.ticket1
              {| QrRoutes.totalTickets := 1; QrRoutes.usedTickets := 0;
                 QrRoutes.activeTickets := 1; QrRoutes.recentScans := [] |}
              eq_refl eq_refl eq_refl eq_refl eq_refl)
    as (st' & E & _ & Hu & Ha).
  exists st'. split; [exact E|]. split; [exact Hu | exact Ha].
Defined.

(** X20.  The three views of the tickets of an event agree: the creator's
    analytics, attendees and scan statistics are sent together or not at
    all; the attendees are the tickets of the event, of every status,
    newest first, as many as the total; used, active and cancelled
    together are at most the total; and the recent scans are as many as
    the used tickets, up to twenty. *)
Theorem event_views_agree :
  forall s user id st,
    OrganizerViews.event_analytics s user id = Reply.Sent 200 st ->
    OrganizerViews.usedTickets st + OrganizerViews.activeTickets st
    + OrganizerViews.cancelledTickets st <= OrganizerViews.totalTickets st
    /\ (exists l eid,
          OrganizerViews.attendees s user id
          = Reply.Sent 200 (l, OrganizerViews.totalTickets st)
          /\ ObjectId.cast id = Some eid
          /\ (forall k, In k l <-> In k (Store.tickets s) /\ Ticket.event k = eid)
          /\ StronglySorted
               (fun a b => Ticket.createdAt b <= Ticket.createdAt a) l)
    /\ (exists ss,
          QrRoutes.scan_stats s user id = Reply.Sent 200 ss
          /\ QrRoutes.totalTickets ss = OrganizerViews.totalTickets st
          /\ QrRoutes.usedTickets ss = OrganizerViews.usedTickets st
          /\ QrRoutes.activeTickets ss = OrganizerViews.activeTickets st
          /\ Z.of_nat (List.length (QrRoutes.recentScans ss))
             = Z.min 20 (OrganizerViews.usedTickets st)
          /\ forall k, In k (QrRoutes.recentScans ss) ->
                       In k (Store.tickets s)
                       /\ Ticket.status k = Ticket.used).
Proof.
  intros s user id st.
  unfold OrganizerViews.event_analytics, OrganizerViews.attendees,
    QrRoutes.scan_stats.
  destruct (ObjectId.cast id) as [eid|]; [|discriminate].
  destruct (Store.Event_findById s eid) as [event|]; [|discriminate].
  destruct (negb _); [discriminate|].
  intros H. injection H as <-.
  cbn [OrganizerViews.totalTickets OrganizerViews.usedTickets
       OrganizerViews.activeTickets OrganizerViews.cancelledTickets].
  split; [|split].
  - set (of_event := fun k : Ticket.t => ObjectId.eqb (Ticket.event k) eid).
    pose proof (count_split of_event
                  (fun k => Ticket.status_eqb (Ticket.status k) Ticket.used)
                  (Store.tickets s)) as P1.
    pose proof (count_split
                  (fun k => of_event k
                            && negb (Ticket.status_eqb (Ticket.status k)
                                       Ticket.used))
                  (fun k => Ticket.status_eqb (Ticket.status k) Ticket.active)
                  (Store.tickets s)) as P2.
    pose proof (count_split
                  (fun k => of_event k
                            && negb (Ticket.status_eqb (Ticket.status k)
                                       Ticket.used)
                            && negb (Ticket.status_eqb (Ticket.status k)
                                       Ticket.active))
                  (fun k => Ticket.status_eqb (Ticket.status k) Ticket.cancelled)
                  (Store.tickets s)) as P3.
    pose proof (count_nonneg
                  (fun k => of_event k
                            && negb (Ticket.status_eqb (Ticket.status k)
                                       Ticket.used)
                            && negb (Ticket.status_eqb (Ticket.status k)
                                       Ticket.active)
                            && negb (Ticket.status_eqb (Ticket.status k)
                                       Ticket.cancelled))
                  (Store.tickets s)) as P4.
    assert (E2 :
      Store.countDocuments
        (fun k => of_event k
                  && negb (Ticket.status_eqb (Ticket.status k) Ticket.used)
                  && Ticket.status_eqb (Ticket.status k) Ticket.active)
        (Store.tickets s)
      = Store.countDocuments (OrganizerViews.with_status eid Ticket.active)
          (Store.tickets s)).
    { unfold Store.countDocuments. do 2 f_equal. apply filter_ext.
      intros k. unfold OrganizerViews.with_status, of_event.
      destruct (ObjectId.eqb _ _), (Ticket.status k); reflexivity. }
    assert (E3 :
      Store.countDocuments
        (fun k => of_event k
                  && negb (Ticket.status_eqb (Ticket.status k) Ticket.used)
                  && negb (Ticket.status_eqb (Ticket.status k) Ticket.active)
                  && Ticket.status_eqb (Ticket.status k) Ticket.cancelled)
        (Store.tickets s)
      = Store.countDocuments (OrganizerViews.with_status eid Ticket.cancelled)
          (Store.tickets s)).
    { unfold Store.countDocuments. do 2 f_equal. apply filter_ext.
      intros k. unfold OrganizerViews.with_status, of_event.
      destruct (ObjectId.eqb _ _), (Ticket.status k); reflexivity. }
    unfold OrganizerViews.with_status at 1.
    subst of_event. cbv beta in P1, P2, P3, P4, E2, E3. lia.
  - eexists. exists eid. split; [|split; [reflexivity|split]].
    + cbv zeta. rewrite sort_desc_length. reflexivity.
    + intros k. rewrite sort_desc_In, filter_In, oid_eqb_eq. tauto.
    + apply sort_desc_sorted.
  - eexists. split; [reflexivity|].
    cbn [QrRoutes.totalTickets QrRoutes.usedTickets QrRoutes.activeTickets
         QrRoutes.recentScans].
    repeat split.
    + rewrite length_firstn. unfold QrRoutes.sort_usedAt_desc.
      rewrite length_app, sort_desc_length, filter_length_split.
      unfold OrganizerViews.with_status, Store.countDocuments.
      match goal with |- context [List.length ?l] => generalize (List.length l) end.
      intros n. lia.
    + apply firstn_In in H. unfold QrRoutes.sort_usedAt_desc in H.
      apply in_app_or in H as [H|H].
      * apply sort_desc_In, filter_In in H as [H _].
        apply filter_In in H. tauto.
      * apply filter_In in H as [H _]. apply filter_In in H. tauto.
    + apply firstn_In in H. unfold QrRoutes.sort_usedAt_desc in H.
      assert (Hk : In k (List.filter
                (fun k => ObjectId.eqb (Ticket.event k) eid
                          && Ticket.status_eqb (Ticket.status k) Ticket.used)
                (Store.tickets s))).
      { apply in_app_or in H as [H|H].
        - apply sort_desc_In, filter_In in H. tauto.
        - apply filter_In in H. tauto. }
      apply filter_In in Hk as [_ Hk]. apply andb_true_iff in Hk as [_ Hk].
      now apply status_eqb_eq.
Qed.

Lemma event_views_agree_witness :
  exists ss,
    QrRoutes.scan_stats Examples.s2 Examples.organizer_a Examples.concert_id
    = Reply.Sent 200 ss
    /\ QrRoutes.totalTickets ss = 1.
Proof.
  destruct (event_views_agree Examples.s2 Examples.organizer_a
              Examples.concert_id
              {| OrganizerViews.totalTickets := 1;
                 OrganizerViews.usedTickets := 1;
                 OrganizerViews.activeTickets := 0;
                 OrganizerViews.cancelledTickets := 0 |} eq_refl)
    as (_ & _ & ss & E & Ht & _).
  exists ss. split; [exact E | exact Ht].
Defined.

(** ** The tickets of every reachable store *)

(** X21.  Started without tickets, whatever requests are served, a stored
    ticket is either active and was never redeemed, or used with the time
    and the principal of its redemption recorded: no route makes a ticket
    cancelled or expired, and none returns a used ticket to active. *)
Theorem tickets_are_active_or_used :
  forall s0 rs k,
    Store.tickets s0 = [] ->
    In k (Store.tickets (Backend.run s0 rs)) ->
    (Ticket.status k = Ticket.active
     /\ Ticket.usedAt k = None /\ Ticket.usedBy k = None)
    \/ (Ticket.status k = Ticket.used
        /\ (exists t, Ticket.usedAt k = Some t)
        /\ (exists u, Ticket.usedBy k = Some u)).
Proof.
  intros s0 rs k H0.
  apply (backend_run_tickets
           (fun k => (Ticket.status k = Ticket.active
                      /\ Ticket.usedAt k = None /\ Ticket.usedBy k = None)
                     \/ (Ticket.status k = Ticket.used
                         /\ (exists t, Ticket.usedAt k = Some t)
                         /\ (exists u, Ticket.usedBy k = Some u)))).
  - intros. left. repeat split.
  - intros k0 user clk _ _. right. cbn. eauto.
  - rewrite H0. intros k0 [].
Qed.

Lemma tickets_are_active_or_used_witness :
  Ticket.status (mark_used Examples.ticket1 Examples.organizer_a
                   (Examples.clock (Examples.now + 60000))) = Ticket.used.
Proof.
  destruct (tickets_are_active_or_used Examples.s0
              [Backend.Tickets Examples.claim1; Backend.Tickets Examples.scan1]
              (mark_used Examples.ticket1 Examples.organizer_a
                 (Examples.clock (Examples.now + 60000))) eq_refl)
    as [(H & _) | (H & _)].
  - vm_compute. left. reflexivity.
  - discriminate H.
  - exact H.
Defined.

(** X22.  Started without tickets, whatever requests are served, the
    payload stored with a ticket names the ticket: its [ticketId] is the
    ticket's, its [userId] the holder's, and its [eventId] is, as an
    [ObjectId], the ticket's event. *)
Theorem payload_names_its_ticket :
  forall s0 rs k,
    Store.tickets s0 = [] ->
    In k (Store.tickets (Backend.run s0 rs)) ->
    exists eventId timestamp,
      Ticket.qrCode k
      = qrData_of (Ticket.ticketId k) eventId (Ticket.user k) timestamp
      /\ ObjectId.cast eventId = Some (Ticket.event k).
Proof.
  intros s0 rs k H0.
  apply (backend_run_tickets
           (fun k => exists eventId timestamp,
                Ticket.qrCode k
                = qrData_of (Ticket.ticketId k) eventId (Ticket.user k) timestamp
                /\ ObjectId.cast eventId = Some (Ticket.event k))).
  - intros user event eid ticketId eventId oid clk Hc.
    exists eventId, (JSDate.toISOString (at_write clk)). now split.
  - intros k0 user clk H _. exact H.
  - rewrite H0. intros k0 [].
Qed.

Lemma payload_names_its_ticket_witness :
  exists eventId timestamp,
    Ticket.qrCode Examples.ticket1
    = qrData_of Examples.uuid1 eventId (User._id Examples.holder1) timestamp
    /\ ObjectId.cast eventId = Some Examples.concert_id.
Proof.
  apply (payload_names_its_ticket Examples.s0
           [Backend.Tickets Examples.claim1] Examples.ticket1 eq_refl).
  vm_compute. left. reflexivity.
Defined.

(** X23.  The payload of [POST /api/qr/generate-test] is JSON, and it is
    the payload of no ticket: in a store that started without tickets, a
    scan or a validation of it is answered "Ticket not found", then and
    after any further requests. *)
Theorem test_payload_is_never_a_ticket :
  forall s0 rs user eventId userId now c qrData,
    Store.tickets s0 = [] ->
    QrRoutes.generate_test (Backend.run s0 rs) user eventId userId now
    = Reply.Sent c qrData ->
    JSON.parse qrData
    = Some (JSON.Object
              [("eventId", JSON.Str eventId); ("userId", JSON.Str userId);
               ("testMode", JSON.Bool true);
               ("timestamp", JSON.Str (JSDate.toISOString now))])
    /\ (forall rs' scanner clk,
          let s' := Backend.run (Backend.run s0 rs) rs' in
          qr_scan s' scanner qrData clk = (NotFound, s')
          /\ qr_validate s' scanner qrData (at_check clk) = (NotFound, s')).
Proof.
  intros s0 rs user eventId userId now c qrData H0 Hgen.
  assert (Hq : qrData
               = QrRoutes.test_qrData eventId userId (JSDate.toISOString now)).
  { unfold QrRoutes.generate_test in Hgen.
    destruct (negb _); [discriminate|].
    destruct (ObjectId.cast eventId); [|discriminate].
    destruct (Store.Event_findById _ _); [|discriminate].
    destruct (negb _); [discriminate|]. now injection Hgen. }
  assert (Hparse : JSON.parse qrData
                   = Some (JSON.Object
                             [("eventId", JSON.Str eventId);
                              ("userId", JSON.Str userId);
                              ("testMode", JSON.Bool true);
                              ("timestamp", JSON.Str (JSDate.toISOString now))])).
  { subst qrData. unfold QrRoutes.test_qrData.
    now rewrite FlatFacts.parse_stringify_flat. }
  split; [exact Hparse|].
  intros rs' scanner clk s'.
  assert (Hnone : Store.findOne (fun k => String.eqb (Ticket.qrCode k) qrData)
                    (Store.tickets s') = None).
  { destruct (Store.findOne _ (Store.tickets s')) as [k|] eqn:Hf;
      [|reflexivity].
    apply find_some in Hf as [Hin Hk]. apply String.eqb_eq in Hk.
    assert (Hshape : exists a b c d, Ticket.qrCode k = qrData_of a b c d).
    { revert k Hin Hk.
      assert (Hall : forall k, In k (Store.tickets s') ->
                exists a b c d, Ticket.qrCode k = qrData_of a b c d).
      { subst s'.
        apply (backend_run_tickets
                 (fun k => exists a b c d, Ticket.qrCode k = qrData_of a b c d)).
        - intros. cbn [new_ticket Ticket.qrCode]. eauto.
        - intros k0 u clk0 H _. exact H.
        - apply (backend_run_tickets
                   (fun k => exists a b c d,
                        Ticket.qrCode k = qrData_of a b c d)).
          + intros. cbn [new_ticket Ticket.qrCode]. eauto.
          + intros k0 u clk0 H _. exact H.
          + rewrite H0. intros k0 []. }
      intros k Hin _. now apply Hall. }
    destruct Hshape as (a & b & c' & d & Hshape).
    pose proof (parse_qrData a b c' d) as P.
    rewrite <- Hshape, Hk, Hparse in P. discriminate P. }
  unfold qr_scan, qr_validate. rewrite Hparse, Hnone. split; reflexivity.
Qed.

(** Organizer A makes a test payload for the concert and scans it. *)
Lemma test_payload_is_never_a_ticket_witness :
  fst (qr_scan Examples.s1 Examples.organizer_a
         (QrRoutes.test_qrData Examples.concert_id (User._id Examples.holder1)
            (JSDate.toISOString Examples.now))
         (Examples.clock Examples.now))
  = NotFound.
Proof.
  destruct (test_payload_is_never_a_ticket Examples.s0
              [Backend.Tickets Examples.claim1] Examples.organizer_a
              Examples.concert_id (User._id Examples.holder1) Examples.now 200
              (QrRoutes.test_qrData Examples.concert_id
                 (User._id Examples.holder1)
                 (JSDate.toISOString Examples.now)) eq_refl eq_refl)
    as [_ H].
  destruct (H [] Examples.organizer_a (Examples.clock Examples.now)) as [E _].
  cbn [Backend.run] in E.
  change (Backend.step Examples.s0 (Backend.Tickets Examples.claim1))
    with Examples.s1 in E.
  now rewrite E.
Defined.

(** X24.  Whatever requests are served, one after the other, the keys of
    the collections stay unique and no holder has two tickets, active or
    used, for one event; this holds of the routes of the events and of the
    moderation as of those of the tickets. *)
Theorem every_route_keeps_one_ticket_per_holder :
  forall s rs,
    well_formed s = true -> one_per_holder s ->
    well_formed (Backend.run s rs) = true
    /\ one_per_holder (Backend.run s rs).
Proof.
  intros s rs. revert s.
  induction rs as [|r rs IH]; intros s Hwf Hinv; [now split|].
  cbn [Backend.run]. apply IH.
  - now apply well_formed_backend_step.
  - now apply one_per_holder_backend_step.
Qed.

Lemma every_route_keeps_one_ticket_per_holder_witness :
  holds (Backend.run Examples.s0
           [Backend.Tickets Examples.claim1;
            Backend.UpdateEvent Examples.organizer_a Examples.concert_id
              MoreExamples.shrink_body;
            Backend.Tickets Examples.claim1])
    Examples.concert_id (User._id Examples.holder1) <= 1.
Proof.
  apply (every_route_keeps_one_ticket_per_holder Examples.s0).
  - reflexivity.
  - intros eid uid. vm_compute. discriminate.
Defined.

(** X25.  A principal without an organization redeems nothing: on a
    ticket that is found, the scan, both validations and the redemption by
    identifier are answered 500 and write nothing. *)
Theorem principal_without_organization_is_answered_500 :
  forall s user qrData clk k,
    User.organization user = None ->
    JSON.parse qrData <> None ->
    Store.findOne (fun d => String.eqb (Ticket.qrCode d) qrData)
      (Store.tickets s) = Some k ->
    qr_scan s user qrData clk = (server_error, s)
    /\ qr_validate s user qrData (at_check clk) = (server_error, s)
    /\ tickets_validate s user qrData (at_check clk) = (server_error, s)
    /\ (forall id,
          ObjectId.cast id = Some (Ticket._id k) ->
          Store.Ticket_findById s (Ticket._id k) = Some k ->
          tickets_use s user id clk = (server_error, s)).
Proof.
  intros s user qrData clk k Hu Hp Hf.
  assert (Ho : organization_differs (populate s k) user = None).
  { unfold organization_differs.
    destruct (populate s k) as [[e [|]]|]; [|reflexivity|reflexivity].
    now rewrite Hu. }
  unfold qr_scan, qr_validate, tickets_validate.
  destruct (JSON.parse qrData); [|congruence].
  rewrite Hf. cbv zeta. rewrite Ho. repeat split.
  intros id Hc Hid. unfold tickets_use. rewrite Hc, Hid, Hu.
  now destruct (Store.Event_findById s (Ticket.event k)).
Qed.

Lemma principal_without_organization_is_answered_500_witness :
  qr_scan Examples.s1 Examples.holder2 Examples.qr1 (Examples.clock Examples.now)
  = (server_error, Examples.s1).
Proof.
  assert (Hp : JSON.parse Examples.qr1 <> None)
    by (vm_compute; discriminate).
  assert (Hf : Store.findOne
                 (fun d => String.eqb (Ticket.qrCode d) Examples.qr1)
                 (Store.tickets Examples.s1) = Some Examples.ticket1)
    by (vm_compute; reflexivity).
  destruct (principal_without_organization_is_answered_500 Examples.s1
              Examples.holder2 Examples.qr1 (Examples.clock Examples.now)
              Examples.ticket1 eq_refl Hp Hf) as [E _].
  exact E.
Defined.

(** ** The calendar of saved events *)

(** X26.  An event is saved at most once by a user: saving and removing
    keep the pairs of user and event unique; after a save that succeeded
    another is answered "Event already saved" and changes nothing, and the
    event is among the user's saved events; after a removal the user has no
    entry for the event, and every other entry is kept. *)
Theorem calendar_saves_an_event_once :
  forall s saved principal id now eid,
    NoDup (map (fun d => (Calendar.user d, Calendar.event d)) saved) ->
    ObjectId.cast id = Some eid ->
    let saved1 := snd (Calendar.save s saved principal id now) in
    let saved2 := snd (Calendar.unsave saved principal id) in
    NoDup (map (fun d => (Calendar.user d, Calendar.event d)) saved1)
    /\ NoDup (map (fun d => (Calendar.user d, Calendar.event d)) saved2)
    /\ (code (fst (Calendar.save s saved principal id now)) = 200 ->
        (forall later,
           Calendar.save s saved1 principal id later
           = (json 400 (Message "Event already saved"), saved1))
        /\ exists e, Store.Event_findById s eid = Some e
                     /\ In e (Calendar.my_saved s saved1 principal))
    /\ Store.findOne (Calendar.is_saved (User._id principal) eid) saved2 = None
    /\ (forall d, In d saved2 -> In d saved)
    /\ (forall d, In d saved ->
                  Calendar.is_saved (User._id principal) eid d = false ->
                  In d saved2).
Proof.
  intros s saved principal id now eid Hnd Hc saved1 saved2.
  assert (Hkey : forall d, Calendar.is_saved (User._id principal) eid d = true ->
                           (Calendar.user d, Calendar.event d)
                           = (User._id principal, eid)).
  { intros d Hd. unfold Calendar.is_saved in Hd.
    apply andb_true_iff in Hd as [H1 H2].
    apply oid_eqb_eq in H1, H2. congruence. }
  subst saved1 saved2. unfold Calendar.save, Calendar.unsave. rewrite Hc.
  cbn [snd].
  split; [|split; [|split; [|split; [|split]]]].
  - destruct (Store.Event_findById s eid) as [e|]; [|assumption].
    destruct (Store.findOne _ saved) as [d|] eqn:Hf; [assumption|].
    cbn [snd]. rewrite map_app. cbn [map Calendar.user Calendar.event].
    apply NoDup_app; [assumption | repeat constructor; easy |].
    intros a Ha [<-|[]]. apply in_map_iff in Ha as (d & Hd & Hin).
    apply find_none with (x := d) in Hf; [|assumption].
    unfold Calendar.is_saved in Hf. injection Hd as H1 H2.
    now rewrite H1, H2, !oid_eqb_refl in Hf.
  - now apply NoDup_map_deleteOne.
  - destruct (Store.Event_findById s eid) as [e|] eqn:He;
      [|cbn; discriminate].
    destruct (Store.findOne _ saved) as [d|] eqn:Hf; [cbn; discriminate|].
    intros _. cbn [snd].
    set (entry := {| Calendar.user := User._id principal;
                     Calendar.event := eid; Calendar.createdAt := now |}).
    assert (Hfound : Store.findOne (Calendar.is_saved (User._id principal) eid)
                       (saved ++ [entry]) = Some entry).
    { rewrite find_snoc, Hf. unfold Calendar.is_saved. subst entry.
      cbn [Calendar.user Calendar.event]. now rewrite !oid_eqb_refl. }
    split.
    + intros later. now rewrite Hfound.
    + exists e. split; [reflexivity|].
      unfold Calendar.my_saved. apply in_flat_map. exists entry. split.
      * apply sort_desc_In, filter_In. split.
        -- apply in_or_app. right. now left.
        -- subst entry. cbn [Calendar.user]. apply oid_eqb_refl.
      * subst entry. cbn [Calendar.event]. rewrite He. now left.
  - apply (find_deleteOne_unique
             (fun d => (Calendar.user d, Calendar.event d)) _
             (User._id principal, eid)); assumption.
  - intros d. apply find_deleteOne_incl.
  - intros d Hin Hd. induction saved as [|x l IH]; [contradiction|].
    cbn [deleteOne].
    destruct (Calendar.is_saved (User._id principal) eid x) eqn:Ex.
    + destruct Hin as [->|Hin]; [congruence | assumption].
    + destruct Hin as [->|Hin]; [now left | right].
      apply IH; [|assumption]. now inversion Hnd.
Qed.

(** Holder 1 saves the concert. *)
Lemma calendar_saves_an_event_once_witness :
  Calendar.save Examples.s0
    (snd (Calendar.save Examples.s0 [] Examples.holder1 Examples.concert_id
            Examples.now))
    Examples.holder1 Examples.concert_id (Examples.now + 1)
  = (json 400 (Message "Event already saved"),
     snd (Calendar.save Examples.s0 [] Examples.holder1 Examples.concert_id
            Examples.now)).
Proof.
  destruct (calendar_saves_an_event_once Examples.s0 [] Examples.holder1
              Examples.concert_id Examples.now Examples.concert_id
              (NoDup_nil _) eq_refl) as (_ & _ & H & _).
  destruct (H eq_refl) as [H1 _].
  exact (H1 (Examples.now + 1)).
Defined.

(** ** Requests that overlap *)

(** X27.  Two claims for one event whose reads both come before either
    write are both granted whenever each would be granted alone, whatever
    capacity is left: the event has two more active tickets, and where the
    two claimants are one, that holder has two tickets for the event. *)
Theorem overlapped_claims_are_both_granted :
  forall s u1 u2 eventId t1 t2 o1 o2 c1 c2 eid,
    ObjectId.cast eventId = Some eid ->
    code (fst (claim s u1 eventId t1 o1 c1)) = 201 ->
    code (fst (claim s u2 eventId t2 o2 c2)) = 201 ->
    t1 <> t2 -> o1 <> o2 ->
    exists k1 k2,
      Interleaving.overlapped
        (fun s => Interleaving.claim_reads s u1 eventId t1 o1 c1)
        (fun s => Interleaving.claim_reads s u2 eventId t2 o2 c2)
        Interleaving.claim_write s
      = (json 201 (Claimed k1), json 201 (Claimed k2),
         Store.with_tickets s (Store.tickets s ++ [k1; k2]))
      /\ active_count (Store.with_tickets s (Store.tickets s ++ [k1; k2])) eid
         = active_count s eid + 2
      /\ (User._id u1 = User._id u2 ->
          holds (Store.with_tickets s (Store.tickets s ++ [k1; k2])) eid
            (User._id u1) = 2).
Proof.
  intros s u1 u2 eventId t1 t2 o1 o2 c1 c2 eid Hc G1 G2 Ht Ho.
  destruct (claim_cases s u1 eventId t1 o1 c1)
    as [[_ N] | (eid1 & e1 & Hc1 & He1 & Hcl1 & Hh1 & Hcap1 & Hk1 & Hp1 & _)];
    [contradiction|].
  destruct (claim_cases s u2 eventId t2 o2 c2)
    as [[_ N] | (eid2 & e2 & Hc2 & He2 & Hcl2 & Hh2 & Hcap2 & Hk2 & Hp2 & _)];
    [contradiction|].
  assert (eid1 = eid) by congruence. assert (eid2 = eid) by congruence.
  subst eid1 eid2. assert (e2 = e1) by congruence. subst e2.
  cbv zeta in Hk1, Hp1, Hk2, Hp2.
  set (k1 := new_ticket u1 e1 eid t1
               (qrData_of t1 eventId (ObjectId.toString (User._id u1))
                  (JSDate.toISOString (at_write c1))) o1 c1) in *.
  set (k2 := new_ticket u2 e1 eid t2
               (qrData_of t2 eventId (ObjectId.toString (User._id u2))
                  (JSDate.toISOString (at_write c2))) o2 c2) in *.
  exists k1, k2.
  assert (Hdup : Store.duplicate_key k2 (Store.tickets s ++ [k1]) = false).
  { unfold Store.duplicate_key. rewrite existsb_app.
    unfold Store.duplicate_key in Hk2. rewrite Hk2.
    cbn [existsb orb]. subst k1 k2.
    cbn [new_ticket Ticket._id Ticket.ticketId Ticket.qrCode].
    rewrite orb_false_r. apply orb_false_iff. split; [apply orb_false_iff; split|].
    - now apply oid_eqb_neq.
    - now apply String.eqb_neq.
    - apply String.eqb_neq. intros E.
      apply qrData_injective in E as (E & _). contradiction. }
  split; [|split].
  - unfold Interleaving.overlapped.
    rewrite (claim_reads_granted s u1 eventId t1 o1 c1 eid e1) by assumption.
    rewrite (claim_reads_granted s u2 eventId t2 o2 c2 eid e1) by assumption.
    fold k1 k2. unfold Interleaving.claim_write, Store.insert_ticket.
    rewrite Hp1, Hk1. cbn [negb].
    cbn [Store.with_tickets Store.tickets]. rewrite Hp2, Hdup. cbn [negb].
    unfold Store.with_tickets.
    cbn [Store.tickets Store.events Store.organizations Store.users].
    now rewrite <- app_assoc.
  - unfold active_count. cbn [Store.with_tickets Store.tickets].
    change [k1; k2] with ([k1] ++ [k2])%list.
    rewrite app_assoc, !count_snoc. subst k1 k2.
    cbn [new_ticket Ticket.event Ticket.status is_active Ticket.status_eqb].
    rewrite oid_eqb_refl. cbn [andb]. lia.
  - intros Eu. unfold holds in *. cbn [Store.with_tickets Store.tickets].
    change [k1; k2] with ([k1] ++ [k2])%list.
    rewrite app_assoc, !count_snoc, Hh1. subst k1 k2. unfold held, occupies.
    cbn [new_ticket Ticket.event Ticket.user Ticket.status Ticket.status_eqb].
    rewrite <- Eu, !oid_eqb_refl. cbn [andb orb]. lia.
Qed.

(** The two holders and the single ticket of the concert. *)
Lemma overlapped_claims_are_both_granted_witness :
  exists k1 k2,
    Interleaving.overlapped
      (fun s => Interleaving.claim_reads s Examples.holder1 Examples.concert_id
                  Examples.uuid1 Examples.oid1 (Examples.clock Examples.now))
      (fun s => Interleaving.claim_reads s Examples.holder2 Examples.concert_id
                  Examples.uuid2 Examples.oid2 (Examples.clock Examples.now))
      Interleaving.claim_write Examples.s0
    = (json 201 (Claimed k1), json 201 (Claimed k2),
       Store.with_tickets Examples.s0 [k1; k2]).
Proof.
  assert (Ht : Examples.uuid1 <> Examples.uuid2) by (vm_compute; discriminate).
  assert (Ho : Examples.oid1 <> Examples.oid2) by (vm_compute; discriminate).
  destruct (overlapped_claims_are_both_granted Examples.s0 Examples.holder1
              Examples.holder2 Examples.concert_id Examples.uuid1
              Examples.uuid2 Examples.oid1 Examples.oid2
              (Examples.clock Examples.now) (Examples.clock Examples.now)
              Examples.concert_id eq_refl eq_refl eq_refl Ht Ho)
    as (k1 & k2 & E & _).
  exists k1, k2. exact E.
Defined.

(** X28.  Two scans of one ticket whose reads both come before either
    write are both answered with success whenever each would succeed
    alone; the ticket is stored as the second write left it. *)
Theorem overlapped_scans_are_both_accepted :
  forall s u1 u2 qrData c1 c2,
    code (fst (qr_scan s u1 qrData c1)) = 200 ->
    code (fst (qr_scan s u2 qrData c2)) = 200 ->
    exists k,
      Store.findOne (fun d => String.eqb (Ticket.qrCode d) qrData)
        (Store.tickets s) = Some k
      /\ Ticket.status k = Ticket.active
      /\ Interleaving.overlapped
           (fun s => Interleaving.scan_reads s u1 qrData c1)
           (fun s => Interleaving.scan_reads s u2 qrData c2)
           Interleaving.scan_write s
         = (json 200 (Scanned "Ticket scanned and marked as used successfully"
                        (mark_used k u1 c1)),
            json 200 (Scanned "Ticket scanned and marked as used successfully"
                        (mark_used k u2 c2)),
            Store.update_ticket s (mark_used k u2 c2)).
Proof.
  intros s u1 u2 qrData c1 c2 G1 G2.
  destruct (qr_scan_cases s u1 qrData c1)
    as [[_ N] | (k & e & Hp & Hf & He & Hx & Hu1 & Hs & Hd1 & _)];
    [contradiction|].
  destruct (qr_scan_cases s u2 qrData c2)
    as [[_ N] | (k' & e' & _ & Hf' & He' & _ & Hu2 & _ & Hd2 & _)];
    [contradiction|].
  assert (k' = k) by congruence. subst k'.
  assert (e' = e) by congruence. subst e'.
  exists k. split; [assumption|]. split; [assumption|].
  unfold Interleaving.overlapped.
  rewrite (scan_reads_accepted s u1 qrData c1 k e) by assumption.
  rewrite (scan_reads_accepted s u2 qrData c2 k e) by assumption.
  unfold Interleaving.scan_write.
  now rewrite update_ticket_twice.
Qed.

Lemma overlapped_scans_are_both_accepted_witness :
  exists k,
    Interleaving.overlapped
      (fun s => Interleaving.scan_reads s Examples.organizer_a Examples.qr1
                  (Examples.clock (Examples.now + 60000)))
      (fun s => Interleaving.scan_reads s Examples.organizer_a Examples.qr1
                  (Examples.clock (Examples.now + 60003)))
      Interleaving.scan_write Examples.s1
    = (json 200 (Scanned "Ticket scanned and marked as used successfully"
                   (mark_used k Examples.organizer_a
                      (Examples.clock (Examples.now + 60000)))),
       json 200 (Scanned "Ticket scanned and marked as used successfully"
                   (mark_used k Examples.organizer_a
                      (Examples.clock (Examples.now + 60003)))),
       Store.update_ticket Examples.s1
         (mark_used k Examples.organizer_a
            (Examples.clock (Examples.now + 60003)))).
Proof.
  destruct (overlapped_scans_are_both_accepted Examples.s1 Examples.organizer_a
              Examples.organizer_a Examples.qr1
              (Examples.clock (Examples.now + 60000))
              (Examples.clock (Examples.now + 60003)) eq_refl eq_refl)
    as (k & _ & _ & E).
  exists k. exact E.
Defined.

End Extras.
